(** * AutomationZ Server Backup Scheduler: a shallow embedding of [app/main.py]

    The development follows the order of the Python file: string helpers of
    the Python runtime, [norm_remote], the data classes, the FTP client, the
    local path resolver [safe_join_local], the scheduler
    [check_and_run_due_jobs], the executor [run_job] with its tree walk
    [_download_dir], and the retention policy [_cleanup_snapshots].

    Python [str] values are modelled as [string] (a sequence of bytes, the
    UTF-8 encoding of the text); byte-wise lexicographic order on UTF-8
    coincides with Python's code point order.  Python [int] is [Z]. *)

From Stdlib Require Import ZArith Ascii String List Bool Lia.
From Stdlib Require Import Permutation Sorting.Sorted.
From Stdlib Require Import Structures.OrderedTypeEx.
From stdpp Require Import base decidable option list gmap strings pretty.

Local Open Scope string_scope.
Local Open Scope list_scope.

(** ** Python string primitives used by the program

    A string is a sequence of code points below 256, one character each;
    white space and letter case are those Python gives these code points.
    The signs that open the Discord messages lie outside that range: they
    are written as literals, and nothing looks into them. *)

Module PyStr.

Definition backslash : ascii := Ascii.ascii_of_nat 92.
Definition slash : ascii := Ascii.ascii_of_nat 47.
Definition cr : ascii := Ascii.ascii_of_nat 13.
Definition lf : ascii := Ascii.ascii_of_nat 10.

(** [s.replace(old, new)] for a one-character [old]. *)
Fixpoint replace (old : ascii) (new : string) (s : string) : string :=
  match s with
  | EmptyString => EmptyString
  | String c s' =>
      if Ascii.eqb c old then new +:+ replace old new s'
      else String c (replace old new s')
  end.

(** [s.startswith(c)] and [s.endswith(c)] for a one-character argument. *)
Definition startswith (c : ascii) (s : string) : bool :=
  match s with
  | EmptyString => false
  | String d _ => Ascii.eqb d c
  end.

Fixpoint endswith (c : ascii) (s : string) : bool :=
  match s with
  | EmptyString => false
  | String d EmptyString => Ascii.eqb d c
  | String _ s' => endswith c s'
  end.

(** [s[:-1]] *)
Fixpoint drop_last (s : string) : string :=
  match s with
  | EmptyString => EmptyString
  | String _ EmptyString => EmptyString
  | String d s' => String d (drop_last s')
  end.

(** [s.lstrip(c)] and [s.rstrip(c)] for a one-character set. *)
Fixpoint lstrip (c : ascii) (s : string) : string :=
  match s with
  | EmptyString => EmptyString
  | String d s' => if Ascii.eqb d c then lstrip c s' else s
  end.

Fixpoint rstrip (c : ascii) (s : string) : string :=
  match s with
  | EmptyString => EmptyString
  | String d s' =>
      match rstrip c s' with
      | EmptyString => if Ascii.eqb d c then EmptyString else String d EmptyString
      | r => String d r
      end
  end.

(** [c.isspace()], the characters [s.strip()] removes: 9-13, 28-32, and
    the next-line and no-break-space characters 133 and 160. *)
Definition is_py_space (c : ascii) : bool :=
  let n := Ascii.nat_of_ascii c in
  ((9 <=? n) && (n <=? 13) || (28 <=? n) && (n <=? 32)
   || (n =? 133) || (n =? 160))%nat.

Fixpoint lstrip_ws (s : string) : string :=
  match s with
  | EmptyString => EmptyString
  | String d s' => if is_py_space d then lstrip_ws s' else s
  end.

Fixpoint rstrip_ws (s : string) : string :=
  match s with
  | EmptyString => EmptyString
  | String d s' =>
      match rstrip_ws s' with
      | EmptyString => if is_py_space d then EmptyString else String d EmptyString
      | r => String d r
      end
  end.

Definition strip (s : string) : string := rstrip_ws (lstrip_ws s).

(** [s.split(sep)] for a one-character separator: never the empty list. *)
Fixpoint split (sep : ascii) (s : string) : list string :=
  match s with
  | EmptyString => [EmptyString]
  | String c s' =>
      if Ascii.eqb c sep then EmptyString :: split sep s'
      else match split sep s' with
           | [] => [String c EmptyString]
           | h :: t => String c h :: t
           end
  end.

(** [l[-1]] on the result of a split (which is never empty). *)
Definition last_seg (l : list string) : string := List.last l EmptyString.

(** [c.lower()]: the letters A-Z, and the accented capitals 192-222
    without the multiplication sign 215. *)
Definition lower_char (c : ascii) : ascii :=
  let n := Ascii.nat_of_ascii c in
  if ((65 <=? n) && (n <=? 90)
      || (192 <=? n) && (n <=? 222) && negb (n =? 215))%nat
  then Ascii.ascii_of_nat (n + 32) else c.

Fixpoint lower (s : string) : string :=
  match s with
  | EmptyString => EmptyString
  | String c s' => String (lower_char c) (lower s')
  end.

(** [sep.join(l)] *)
Fixpoint join (sep : string) (l : list string) : string :=
  match l with
  | [] => EmptyString
  | [x] => x
  | x :: t => x +:+ sep +:+ join sep t
  end.

(** The format spec [{n:02d}]: decimal, zero-padded to width two. *)
Definition fmt_02d (n : Z) : string :=
  let s := pretty n in
  if (String.length s <? 2)%nat then "0" +:+ s else s.

(** Occurrence of a character. *)
Fixpoint contains (c : ascii) (s : string) : bool :=
  match s with
  | EmptyString => false
  | String d s' => Ascii.eqb d c || contains c s'
  end.

End PyStr.

(** ** [norm_remote] *)

(** [path or ""] is [path] for every [str]; the three [replace] calls, the
    leading slash and the single [p[:-1]] follow the source line by line. *)
Definition norm_remote (path : string) : string :=
  let p := PyStr.replace PyStr.lf ""
             (PyStr.replace PyStr.cr ""
                (PyStr.replace PyStr.backslash "/" path)) in
  let p := if negb (PyStr.startswith PyStr.slash p) then "/" +:+ p else p in
  if (1 <? String.length p)%nat && PyStr.endswith PyStr.slash p
  then PyStr.drop_last p
  else p.

(** ** Data classes *)

Record Profile := {
  prof_name : string;
  prof_host : string;
  prof_port : Z;
  prof_username : string;
  prof_password : string;
  prof_tls : bool;
  prof_root : string
}.

Record BackupJob := {
  job_name : string;
  job_enabled : bool;
  job_profile : string;
  job_mode : string;
  job_remote_source : string;
  job_local_target : string;
  job_days : list string;
  job_hour : Z;
  job_minute : Z;
  job_include_subdirs : bool;
  job_keep_last : Z;
  job_dry_run : bool
}.

(** ** [pathlib] paths on a POSIX host

    A path is its anchor and its components; parsing a string drops empty
    and ["."] components, as [PurePosixPath] does.  (A root of exactly two
    slashes is treated like one.) *)

Record Path := { anchored : bool; parts : list string }.

#[global] Instance Path_eq_dec : EqDecision Path.
Proof. solve_decision. Defined.

Definition is_component (x : string) : bool :=
  negb (String.eqb x "") && negb (String.eqb x ".").

Definition parse_path (s : string) : Path :=
  {| anchored := PyStr.startswith PyStr.slash s;
     parts := List.filter is_component (PyStr.split PyStr.slash s) |}.

(** [p / s] *)
Definition joinpath (p : Path) (s : string) : Path :=
  let q := parse_path s in
  if anchored q then q
  else {| anchored := anchored p; parts := parts p ++ parts q |}.

(** A child yielded by [iterdir()]: the directory extended by one name. *)
Definition child (p : Path) (name : string) : Path :=
  {| anchored := anchored p; parts := parts p ++ [name] |}.

(** [p.name], [p.parent], [p.parents] and [str(p)] *)
Definition path_name (p : Path) : string := List.last (parts p) "".

Definition path_parent (p : Path) : Path :=
  {| anchored := anchored p; parts := List.removelast (parts p) |}.

Definition path_parents (p : Path) : list Path :=
  List.map (fun k => {| anchored := anchored p; parts := take k (parts p) |})
           (List.rev (List.seq 0 (List.length (parts p)))).

Definition str_of_path (p : Path) : string :=
  if anchored p then "/" +:+ PyStr.join "/" (parts p)
  else match parts p with
       | [] => "."
       | _ => PyStr.join "/" (parts p)
       end.

(** ** Exceptions, events and the effect monad *)

Inductive exn :=
  | ValueError (msg : string)
  | FtpError (msg : string)
  | OSError (msg : string)
  | RuntimeError (msg : string)
  | AttributeError (msg : string)
  | RecursionError.

Definition str_of_exn (e : exn) : string :=
  match e with
  | ValueError m | FtpError m | OSError m | RuntimeError m | AttributeError m => m
  | RecursionError => "maximum recursion depth exceeded"
  end.

Inductive Res (A : Type) :=
  | Ok (a : A)
  | Raise (e : exn).
Arguments Ok {A} a.
Arguments Raise {A} e.

(** ** JSON values and the settings

    A value is what [json.load] returns and [json.dump] takes, numbers
    without a fraction only.  The keys of a dict are distinct and a lookup
    takes the first. *)

#[warnings="-register-all"]
Inductive json :=
  | JNull
  | JBool (b : bool)
  | JInt (n : Z)
  | JStr (s : string)
  | JList (items : list json)
  | JDict (items : list (string * json)).

Fixpoint dict_lookup (k : string) (kvs : list (string * json)) : option json :=
  match kvs with
  | [] => None
  | (k', v) :: rest => if String.eqb k' k then Some v else dict_lookup k rest
  end.

(** [d.get(k, dflt)] *)
Definition dict_get (kvs : list (string * json)) (k : string) (dflt : json)
  : json :=
  match dict_lookup k kvs with
  | Some v => v
  | None => dflt
  end.

(** [bool(v)], and [v] as a condition *)
Definition truthy (v : json) : bool :=
  match v with
  | JNull => false
  | JBool b => b
  | JInt n => negb (n =? 0)%Z
  | JStr s => negb (String.eqb s "")
  | JList [] => false
  | JList (_ :: _) => true
  | JDict [] => false
  | JDict (_ :: _) => true
  end.

(** The name Python gives the type of a value *)
Definition type_name (v : json) : string :=
  match v with
  | JNull => "NoneType"
  | JBool _ => "bool"
  | JInt _ => "int"
  | JStr _ => "str"
  | JList _ => "list"
  | JDict _ => "dict"
  end.

(** The error of [v.attr] on a value without that attribute *)
Definition no_attribute (v : json) (attr : string) : exn :=
  AttributeError ("'" +:+ type_name v +:+ "' object has no attribute '"
                  +:+ attr +:+ "'").

(** [self.settings.get("discord", {}) if isinstance(self.settings, dict) else {}] *)
Definition discord_cfg (settings : json) : json :=
  match settings with
  | JDict kvs => dict_get kvs "discord" (JDict [])
  | _ => JDict []
  end.

(** [dcfg.get(key, True)] as a condition of [run_job] *)
Definition notify (settings : json) (key : string) : Res bool :=
  match discord_cfg settings with
  | JDict kvs => Ok (truthy (dict_get kvs key (JBool true)))
  | v => Raise (no_attribute v "get")
  end.

(** [(dcfg.get("webhook_url", "") or "").strip()] of [_discord_post] *)
Definition webhook_url (settings : json) : Res string :=
  match discord_cfg settings with
  | JDict kvs =>
      let v := dict_get kvs "webhook_url" (JStr "") in
      match (if truthy v then v else JStr "") with
      | JStr s => Ok (PyStr.strip s)
      | w => Raise (no_attribute w "strip")
      end
  | v => Raise (no_attribute v "get")
  end.

(** The request of [_discord_post] is made exactly then: what the lines
    before it raise is caught, and an empty URL ends the call. *)
Definition posts (settings : json) : bool :=
  match webhook_url settings with
  | Ok url => negb (String.eqb url "")
  | Raise _ => false
  end.

Inductive level := INFO | WARN | ERROR.

(** What a run does to the outside: log lines, webhook posts, FTP session
    boundaries and every mutating call on the local file system.  [Fire]
    records the scheduler invoking [run_job] on the job at a position of
    [self.jobs]. *)
Inductive event :=
  | Log (lvl : level) (msg : string)
  | DiscordPost (text : string)
  | FtpConnect (host : string) (port : Z)
  | FtpQuit
  | LocalMkdir (p : Path)
  | DownloadFile (remote_full : string) (local_path : Path)
  | Rmtree (d : Path)
  | Fire (idx : nat) (name : string).

(** The remote server as the client sees it during one run. [srv_login]
    stands for [connect], [login] and [prot_p] together.  The paths the
    program sends are absolute, and the answers are taken not to depend on
    the working directory of the session, which is not represented. *)
Record Server := {
  srv_login : Res unit;
  srv_pwd : Res string;
  srv_cwd : string -> Res unit;
  srv_mlsd : string -> Res (list (string * list (string * string)));
  srv_nlst : string -> Res (list string);
  srv_retr : string -> Res string
}.

(** The local operating system: file system, clock and the HTTP requests
    it sends ([os_urlopen] takes the URL and the content of the message).
    Reading does not change it; [mkdir], [open], [write] and [rmtree] may. *)
Class LocalOS (OS : Type) := {
  os_expanduser : OS -> Path -> Res Path;
  os_resolve : OS -> Path -> Res Path;
  os_exists : OS -> Path -> bool;
  os_is_dir : OS -> Path -> bool;
  os_iterdir : OS -> Path -> Res (list string);
  os_mkdir_parents : OS -> Path -> Res unit * OS;
  os_open_wb : OS -> Path -> Res unit * OS;
  os_write : OS -> Path -> string -> OS;
  os_rmtree : OS -> Path -> Res unit * OS;
  os_now_stamp : OS -> string;
  os_urlopen : OS -> string -> string -> Res unit
}.

(** Mutable state: the operating system, the trace of events so far, the
    [ftp] attribute of the run's [FTPClient] and [App.last_run_key]. *)
Record St (OS : Type) := {
  st_os : OS;
  st_trace : list event;
  st_ftp : option Server;
  st_last_run_key : gmap string string
}.
Arguments st_os {OS} s.
Arguments st_trace {OS} s.
Arguments st_ftp {OS} s.
Arguments st_last_run_key {OS} s.

Definition M (OS A : Type) : Type := St OS -> Res A * St OS.

Definition ret {OS A} (a : A) : M OS A := fun s => (Ok a, s).

Definition raise {OS A} (e : exn) : M OS A := fun s => (Raise e, s).

Definition bind {OS A B} (m : M OS A) (f : A -> M OS B) : M OS B :=
  fun s => match m s with
           | (Ok a, s') => f a s'
           | (Raise e, s') => (Raise e, s')
           end.

(** [try: m except Exception as e: h e] *)
Definition try_except {OS A} (m : M OS A) (h : exn -> M OS A) : M OS A :=
  fun s => match m s with
           | (Ok a, s') => (Ok a, s')
           | (Raise e, s') => h e s'
           end.

(** [try: m finally: c] *)
Definition try_finally {OS A} (m : M OS A) (c : M OS unit) : M OS A :=
  fun s => match m s with
           | (r, s') => match c s' with
                        | (Ok _, s'') => (r, s'')
                        | (Raise e, s'') => (Raise e, s'')
                        end
           end.

Declare Scope py_scope.
Delimit Scope py_scope with py.
Notation "'let!' x ':=' m 'in' k" := (bind m (fun x => k))
  (at level 10, x name, m at level 100, k at level 200) : py_scope.
Notation "m >> k" := (bind m (fun _ => k))
  (at level 90, right associativity) : py_scope.
Local Open Scope py_scope.

(** [for x in l: body x] *)
Fixpoint for_each {OS A} (l : list A) (body : A -> M OS unit) : M OS unit :=
  match l with
  | [] => ret tt
  | x :: t => body x >> for_each t body
  end.

(** [for x in l: body x], with the position of [x] in the whole list made
    explicit for the statements ([i] is the position of the head). *)
Fixpoint for_each_indexed {OS A} (i : nat) (l : list A)
    (body : nat -> A -> M OS unit) : M OS unit :=
  match l with
  | [] => ret tt
  | x :: t => body i x >> for_each_indexed (S i) t body
  end.

Definition lift {OS A} (r : Res A) : M OS A := fun s => (r, s).

Definition emit {OS} (e : event) : M OS unit :=
  fun s => (Ok tt, {| st_os := st_os s; st_trace := st_trace s ++ [e];
                      st_ftp := st_ftp s;
                      st_last_run_key := st_last_run_key s |}).

Definition read_os {OS A} (f : OS -> A) : M OS A :=
  fun s => (Ok (f (st_os s)), s).

Definition call_os {OS A} (f : OS -> Res A) : M OS A :=
  fun s => (f (st_os s), s).

Definition update_os {OS} (f : OS -> Res unit * OS) : M OS unit :=
  fun s => let '(r, o) := f (st_os s) in
           (r, {| st_os := o; st_trace := st_trace s; st_ftp := st_ftp s;
                  st_last_run_key := st_last_run_key s |}).

Definition get_ftp {OS} : M OS (option Server) := fun s => (Ok (st_ftp s), s).

Definition set_ftp {OS} (f : option Server) : M OS unit :=
  fun s => (Ok tt, {| st_os := st_os s; st_trace := st_trace s; st_ftp := f;
                      st_last_run_key := st_last_run_key s |}).

Definition get_last_run_key {OS} : M OS (gmap string string) :=
  fun s => (Ok (st_last_run_key s), s).

Definition set_last_run_key {OS} (k v : string) : M OS unit :=
  fun s => (Ok tt, {| st_os := st_os s; st_trace := st_trace s;
                      st_ftp := st_ftp s;
                      st_last_run_key := <[k := v]> (st_last_run_key s) |}).

(** [Logger] *)
Definition log_info {OS} (msg : string) : M OS unit := emit (Log INFO msg).
Definition log_warn {OS} (msg : string) : M OS unit := emit (Log WARN msg).
Definition log_error {OS} (msg : string) : M OS unit := emit (Log ERROR msg).

(** ** The program *)

Definition DAYS : list string := ["Mon"; "Tue"; "Wed"; "Thu"; "Fri"; "Sat"; "Sun"].

(** A reading of [datetime.datetime.now()]: [weekday()] is always in 0..6. *)
Inductive Weekday := Monday | Tuesday | Wednesday | Thursday | Friday | Saturday | Sunday.

Definition weekday_num (d : Weekday) : nat :=
  match d with
  | Monday => 0 | Tuesday => 1 | Wednesday => 2 | Thursday => 3
  | Friday => 4 | Saturday => 5 | Sunday => 6
  end.

Record Clock := { clock_weekday : Weekday; clock_hour : Z; clock_minute : Z }.

Definition weekday_now (now : Clock) : string :=
  List.nth (weekday_num (clock_weekday now)) DAYS "".

(** [self] of [App]: the fields the engine reads. [last_run_key] lives in
    the mutable state. *)
Record App := {
  app_jobs : list BackupJob;
  app_profiles : list Profile;
  app_settings : json;
  app_timeout : Z;
  app_scheduler_running : bool
}.

(** [os.sep] on a POSIX host. *)
Definition os_sep : ascii := PyStr.slash.

(** [traceback.format_exc()], the frames elided. *)
Definition format_exc (e : exn) : string :=
  "Traceback (most recent call last): " +:+ str_of_exn e.

(** [snaps[keep_last:]] with Python's treatment of a negative bound. *)
Definition slice_from {A} (k : Z) (l : list A) : list A :=
  if (0 <=? k)%Z then drop (Z.to_nat k) l
  else drop (Z.to_nat (Z.max 0 (Z.of_nat (List.length l) + k))) l.

(** [snaps.sort(key=lambda p: p.name, reverse=True)]: the sort is stable,
    so its result is that of any stable descending sort; entries with equal
    keys keep their order. *)
Fixpoint insert_desc (x : Path) (l : list Path) : list Path :=
  match l with
  | [] => [x]
  | y :: t =>
      if String.leb (path_name y) (path_name x) then x :: y :: t
      else y :: insert_desc x t
  end.

Definition sort_desc (l : list Path) : list Path :=
  List.fold_right insert_desc [] l.

(** The de-duplication loop of [list_dir]:
    [seen=set(); out=[]; for x in items: if x not in seen: ...]. *)
Definition dedup_step (acc : gset string * list string) (x : string)
  : gset string * list string :=
  if bool_decide (x ∈ acc.1) then acc else ({[x]} ∪ acc.1, acc.2 ++ [x]).

Definition dedup (items : list string) : list string :=
  (List.fold_left dedup_step items (∅, [])).2.

(** The final path segment of a name returned by NLST:
    [r.replace(backslash, "/").split("/")[-1]]. *)
Definition basename (r : string) : string :=
  PyStr.last_seg (PyStr.split PyStr.slash (PyStr.replace PyStr.backslash "/" r)).

Definition not_dot (name : string) : bool :=
  negb (bool_decide (name ∈ ["."; ".."])).

Section Program.
Context {OS : Type} `{LocalOS OS}.

(** The network: the server a profile's host and port lead to. *)
Variable net : Profile -> Server.

(** A bound on the depth of the walk, which makes its recursion
    structural: at that depth the walk gives up with [RecursionError].
    Where Python itself runs out of stack is not modelled (the error comes
    up in the deepest call, where [list_dir] or [is_dir] may swallow it);
    what is stated of the walk holds for every bound. *)
Variable recursion_limit : nat.

#[local] Abbreviation M := (M OS).

(** *** [FTPClient] *)

(** [self.ftp.<method>]: an attribute access on [None] raises. *)
Definition the_ftp : M Server :=
  let! f := get_ftp in
  match f with
  | Some srv => ret srv
  | None => raise (AttributeError "'NoneType' object has no attribute")
  end.

Definition connect (p : Profile) : M unit :=
  emit (FtpConnect (prof_host p) (prof_port p)) >>
  lift (srv_login (net p)) >>
  set_ftp (Some (net p)).

Definition close : M unit :=
  let! f := get_ftp in
  (match f with
   | Some _ => emit FtpQuit
   | None => ret tt
   end) >>
  set_ftp None.

Definition is_dir (path : string) : M bool :=
  let! srv := the_ftp in
  let! cur := lift (srv_pwd srv) in
  try_except
    (lift (srv_cwd srv path) >> lift (srv_cwd srv cur) >> ret true)
    (fun _ =>
       try_except (lift (srv_cwd srv cur)) (fun _ => ret tt) >>
       ret false).

(** [ftplib]'s [mlsd] collects every line of the reply before it yields the
    first entry, so a failure of the primary listing leaves [items] empty. *)
Definition list_dir (path : string) : M (list string) :=
  let items : list string := [] in
  let! primary :=
    try_except
      (let! srv := the_ftp in
       let! entries := lift (srv_mlsd srv path) in
       ret (Some (items ++ List.filter not_dot (List.map fst entries))))
      (fun _ => ret None) in
  match primary with
  | Some items => ret items
  | None =>
      try_except
        (let! srv := the_ftp in
         let! raw := lift (srv_nlst srv path) in
         let items := items ++ List.map basename raw in
         ret (dedup items))
        (fun _ => ret [])
  end.

Definition mkdir_parents (p : Path) : M unit :=
  emit (LocalMkdir p) >> update_os (fun o => os_mkdir_parents o p).

Definition download_file (remote_full : string) (local_path : Path) : M unit :=
  emit (DownloadFile remote_full local_path) >>
  mkdir_parents (path_parent local_path) >>
  update_os (fun o => os_open_wb o local_path) >>
  let! srv := the_ftp in
  let! data := lift (srv_retr srv remote_full) in
  update_os (fun o => (Ok tt, os_write o local_path data)).

(** *** [safe_join_local] *)

Definition safe_join_local (root : Path) (rel : string) : M Path :=
  let rel := PyStr.lstrip os_sep
               (PyStr.replace PyStr.slash (String os_sep "") rel) in
  let! out := call_os (fun o => os_resolve o (joinpath root rel)) in
  let! rr := call_os (fun o => os_resolve o root) in
  if bool_decide (out <> rr) && bool_decide (rr ∉ path_parents out)
  then raise (ValueError ("Unsafe path: " +:+ rel))
  else ret out.

(** *** [App] *)

(** [DiscordPost] marks the request being sent. *)
Definition _discord_post (app : App) (text : string) : M unit :=
  try_except
    (let! url := lift (webhook_url (app_settings app)) in
     if String.eqb url "" then ret tt
     else
       emit (DiscordPost text) >>
       call_os (fun o => os_urlopen o url text))
    (fun e => log_warn ("Discord webhook failed: " +:+ str_of_exn e)).

Definition get_profile (app : App) (name : string) : option Profile :=
  List.find (fun p => String.eqb (prof_name p) name) (app_profiles app).

Definition rmtree (d : Path) : M unit :=
  emit (Rmtree d) >> update_os (fun o => os_rmtree o d).

Definition _cleanup_snapshots (job_dir : Path) (keep_last : Z) : M unit :=
  let! ex := read_os (fun o => os_exists o job_dir) in
  if negb ex then ret tt
  else
    let! names := call_os (fun o => os_iterdir o job_dir) in
    let! isd := read_os os_is_dir in
    let snaps := List.filter isd (List.map (child job_dir) names) in
    let snaps := sort_desc snaps in
    for_each (slice_from keep_last snaps)
      (fun d =>
         try_except
           (rmtree d >>
            log_info ("Cleanup: removed old snapshot " +:+ str_of_path d))
           (fun _ => log_warn ("Cleanup: could not remove " +:+ str_of_path d))).

Fixpoint _download_dir (depth : nat) (remote_dir : string) (local_root : Path)
    (job : BackupJob) (rel_prefix : string) : M unit :=
  match depth with
  | O => raise RecursionError
  | S depth' =>
      log_info ("Entering folder: " +:+ remote_dir) >>
      let! items := list_dir remote_dir in
      for_each items
        (fun name =>
           let remote_child := PyStr.rstrip PyStr.slash remote_dir +:+ "/" +:+ name in
           let rel_child := PyStr.lstrip PyStr.slash (rel_prefix +:+ "/" +:+ name) in
           let! sub := (if job_include_subdirs job then is_dir remote_child
                        else ret false) in
           if sub
           then _download_dir depth' remote_child local_root job rel_child
           else
             let! target := safe_join_local local_root rel_child in
             (if negb (job_dry_run job) then download_file remote_child target
              else ret tt) >>
             log_info ("Downloaded: " +:+ remote_child +:+ " -> "
                       +:+ str_of_path target))
  end.

Definition is_snapshot (job : BackupJob) : bool :=
  String.eqb (PyStr.lower (job_mode job)) "snapshot".

Definition local_base_of (job : BackupJob) : M Path :=
  call_os (fun o => os_expanduser o (parse_path (job_local_target job))).

Definition job_dir_of (local_base : Path) (p : Profile) (job : BackupJob) : Path :=
  joinpath (joinpath local_base (prof_name p)) (job_name job).

Definition remote_full_of (p : Profile) (job : BackupJob) : string :=
  let remote_root :=
    norm_remote (if String.eqb (prof_root p) "" then "/" else prof_root p) in
  let src := PyStr.replace PyStr.lf ""
               (PyStr.replace PyStr.cr "" (PyStr.strip (job_remote_source job))) in
  if PyStr.startswith PyStr.slash src then norm_remote src
  else norm_remote (PyStr.rstrip PyStr.slash remote_root +:+ "/" +:+ src).

Definition dest_root_of (local_base : Path) (p : Profile) (job : BackupJob)
    (stamp : string) : Path :=
  if is_snapshot job
  then joinpath (job_dir_of local_base p job) stamp
  else joinpath (job_dir_of local_base p job) "MIRROR".

(** The transfer: the walk of a folder, or the download of a single file. *)
Definition transfer_step (remote_full : string) (dest_root : Path)
    (job : BackupJob) : M unit :=
  let! d := is_dir remote_full in
  if d
  then _download_dir recursion_limit remote_full dest_root job ""
  else
    let rel_name := PyStr.last_seg (PyStr.split PyStr.slash remote_full) in
    let! target := safe_join_local dest_root rel_name in
    (if negb (job_dry_run job) then download_file remote_full target
     else ret tt) >>
    log_info ("Downloaded file: " +:+ remote_full +:+ " -> "
              +:+ str_of_path target).

(** The retention step that follows the transfer. *)
Definition cleanup_step (local_base : Path) (p : Profile) (job : BackupJob)
  : M unit :=
  if is_snapshot job && negb (job_keep_last job =? 0)%Z
     && (0 <? job_keep_last job)%Z
  then _cleanup_snapshots (job_dir_of local_base p job) (job_keep_last job)
  else ret tt.

Definition run_job (app : App) (job : BackupJob) : M unit :=
  match get_profile app (job_profile job) with
  | None =>
      log_error ("Job '" +:+ job_name job +:+ "': profile '"
                 +:+ job_profile job +:+ "' not found.")
  | Some p =>
      let remote_full := remote_full_of p job in
      let! local_base := local_base_of job in
      mkdir_parents local_base >>
      let! stamp := read_os os_now_stamp in
      let dest_root := dest_root_of local_base p job stamp in
      log_info ("JOB: " +:+ job_name job +:+ " | mode=" +:+ job_mode job
                +:+ " | profile=" +:+ prof_name p) >>
      (let! flag := lift (notify (app_settings app) "notify_start") in
       if flag
       then _discord_post app ("⏳ Backup started: " +:+ job_name job +:+ " ("
                               +:+ prof_name p +:+ ")")
       else ret tt) >>
      log_info ("Remote: " +:+ remote_full) >>
      log_info ("Local : " +:+ str_of_path dest_root) >>
      (if job_dry_run job
       then log_warn "Dry run enabled: no files will be downloaded."
       else ret tt) >>
      set_ftp None >>  (* cli = FTPClient(p, self.timeout) *)
      try_finally
        (try_except
           (connect p >>
            transfer_step remote_full dest_root job >>
            cleanup_step local_base p job >>
            log_info ("JOB DONE: " +:+ job_name job) >>
            (let! flag := lift (notify (app_settings app) "notify_success") in
             if flag
             then _discord_post app ("✅ Backup done: " +:+ job_name job +:+ " ("
                                     +:+ prof_name p +:+ ")")
             else ret tt))
           (fun e =>
              log_error ("JOB FAILED: " +:+ job_name job +:+ " -> " +:+ str_of_exn e) >>
              (let! flag := lift (notify (app_settings app) "notify_failure") in
               if flag
               then _discord_post app ("❌ Backup failed: " +:+ job_name job +:+ " ("
                                       +:+ job_profile job +:+ ") — "
                                       +:+ str_of_exn e)
               else ret tt) >>
              log_error (format_exc e)))
        close
  end.

(** *** The scheduler *)

Definition key_time_of (now : Clock) : string :=
  weekday_now now +:+ "-" +:+ PyStr.fmt_02d (clock_hour now) +:+ ":"
  +:+ PyStr.fmt_02d (clock_minute now).

(** The body of the loop over [self.jobs], for the job at position [idx]. *)
Definition check_job (app : App) (now : Clock) (idx : nat) (job : BackupJob)
  : M unit :=
  let day := weekday_now now in
  let key_time := key_time_of now in
  if negb (job_enabled job) then ret tt
  else if negb (bool_decide (day ∈ job_days job)) then ret tt
  else if negb (job_hour job =? clock_hour now)%Z
          || negb (job_minute job =? clock_minute now)%Z then ret tt
  else
    let! keys := get_last_run_key in
    let last := keys !! job_name job in
    if bool_decide (last = Some key_time) then ret tt
    else
      set_last_run_key (job_name job) key_time >>
      emit (Fire idx (job_name job)) >>
      run_job app job.

Definition check_and_run_due_jobs (app : App) (now : Clock) : M unit :=
  for_each_indexed 0 (app_jobs app) (check_job app now).

(** [_tick], without the re-arming of the timer. *)
Definition _tick (app : App) (now : Clock) : M unit :=
  if negb (app_scheduler_running app) then ret tt
  else
    try_except (check_and_run_due_jobs app now)
      (fun e =>
         log_error ("Scheduler tick error: " +:+ str_of_exn e) >>
         log_error (format_exc e)).

(** The timer loop: one [_tick] per reading of the clock. *)
Definition run_scheduler (app : App) (clocks : list Clock) : M unit :=
  for_each clocks (_tick app).

End Program.

(** ** A simulated host and a simulated server, for running the program *)

Module Sim.

(** Lexical resolution of [".."] on a host without symbolic links. *)
Definition lexical (ps : list string) : list string :=
  List.fold_left
    (fun acc x => if String.eqb x ".." then List.removelast acc else acc ++ [x])
    ps [].

Record Host := {
  dirs : list (list string);
  files : list (list string);
  locked : list (list string);
  home : list string;
  stamp : string
}.

Definition canon (p : Path) : list string := lexical (parts p).

Definition has_dir (h : Host) (q : list string) : bool :=
  bool_decide (q = []) || bool_decide (q ∈ dirs h).

Definition has_file (h : Host) (q : list string) : bool :=
  bool_decide (q ∈ files h).

Definition prefixes (q : list string) : list (list string) :=
  List.map (fun k => take k q) (List.seq 1 (List.length q)).

Definition add_new (qs : list (list string)) (l : list (list string))
  : list (list string) :=
  List.fold_left (fun acc q => if bool_decide (q ∈ acc) then acc else acc ++ [q])
                 qs l.

Definition under (q r : list string) : bool :=
  bool_decide (take (List.length q) r = q).

(** The one URL that answers. *)
Definition webhook : string := "https://discord.example/api/webhooks/1/x".

#[global] Instance Host_os : LocalOS Host := {|
  os_expanduser h p :=
    match parts p with
    | x :: t =>
        if String.eqb x "~" && negb (anchored p)
        then Ok {| anchored := true; parts := home h ++ t |}
        else Ok p
    | [] => Ok p
    end;
  os_resolve h p := Ok {| anchored := true; parts := canon p |};
  os_exists h p := has_dir h (canon p) || has_file h (canon p);
  os_is_dir h p := has_dir h (canon p);
  os_iterdir h p :=
    if has_dir h (canon p)
    then Ok (List.map (fun q => List.last q "")
               (List.filter
                  (fun q => negb (bool_decide (q = []))
                            && bool_decide (List.removelast q = canon p))
                  (dirs h ++ files h)))
    else Raise (OSError "Not a directory");
  os_mkdir_parents h p :=
    if List.existsb (has_file h) (prefixes (canon p))
    then (Raise (OSError "File exists"), h)
    else (Ok tt, {| dirs := add_new (prefixes (canon p)) (dirs h);
                    files := files h; locked := locked h;
                    home := home h; stamp := stamp h |});
  os_open_wb h p :=
    if has_dir h (canon p) then (Raise (OSError "Is a directory"), h)
    else if negb (has_dir h (List.removelast (canon p)))
    then (Raise (OSError "No such file or directory"), h)
    else (Ok tt, {| dirs := dirs h; files := add_new [canon p] (files h);
                    locked := locked h; home := home h; stamp := stamp h |});
  os_write h p data := h;
  os_rmtree h p :=
    if bool_decide (canon p ∈ locked h)
    then (Raise (OSError "Permission denied"), h)
    else if negb (bool_decide (canon p ∈ dirs h))
    then (Raise (OSError "Not a directory"), h)
    else (Ok tt, {| dirs := List.filter (fun q => negb (under (canon p) q)) (dirs h);
                    files := List.filter (fun q => negb (under (canon p) q)) (files h);
                    locked := locked h; home := home h; stamp := stamp h |});
  os_now_stamp h := stamp h;
  os_urlopen h url content :=
    if String.eqb url webhook then Ok tt
    else Raise (OSError "<urlopen error [Errno -2] Name or service not known>")
|}.

(** A server given by its directories (path and child names) and by
    whether it implements MLSD; NLST answers with full paths. *)
Definition lookup_dir (tree : list (string * list string)) (path : string)
  : option (list string) :=
  option_map snd (List.find (fun d => String.eqb d.1 path) tree).

Definition server (tree : list (string * list string)) (mlsd_ok : bool) : Server := {|
  srv_login := Ok tt;
  srv_pwd := Ok "/";
  srv_cwd path :=
    match lookup_dir tree path with
    | Some _ => Ok tt
    | None => Raise (FtpError "550 Failed to change directory.")
    end;
  srv_mlsd path :=
    if mlsd_ok
    then match lookup_dir tree path with
         | Some names => Ok (List.map (fun n => (n, [])) ("." :: ".." :: names))
         | None => Raise (FtpError "550 No such directory.")
         end
    else Raise (FtpError "500 Unknown command.");
  srv_nlst path :=
    match lookup_dir tree path with
    | Some names =>
        Ok (List.map (fun n => PyStr.rstrip PyStr.slash path +:+ "/" +:+ n) names)
    | None => Raise (FtpError "550 No such directory.")
    end;
  srv_retr path :=
    match lookup_dir tree path with
    | Some _ => Raise (FtpError "550 Not a regular file.")
    | None => Ok "data"
    end
|}.

Definition host0 : Host :=
  {| dirs := []; files := []; locked := []; home := ["home"; "dayz"];
     stamp := "20260103_030000" |}.

Definition init (h : Host) : St Host :=
  {| st_os := h; st_trace := []; st_ftp := None; st_last_run_key := ∅ |}.

Definition profile0 : Profile :=
  {| prof_name := "main"; prof_host := "ftp.example.org"; prof_port := 21;
     prof_username := "u"; prof_password := "p"; prof_tls := false;
     prof_root := "/" |}.

Definition job0 : BackupJob :=
  {| job_name := "nightly"; job_enabled := true; job_profile := "main";
     job_mode := "snapshot"; job_remote_source := "/data";
     job_local_target := "/srv/backups"; job_days := ["Sat"];
     job_hour := 3; job_minute := 0; job_include_subdirs := true;
     job_keep_last := 2; job_dry_run := false |}.

Definition settings0 : json :=
  JDict [("app", JDict [("timeout_seconds", JInt 30); ("tick_seconds", JInt 20);
                        ("auto_start", JBool false)]);
         ("discord", JDict [("webhook_url", JStr webhook)])].

Definition app_of (jobs : list BackupJob) : App :=
  {| app_jobs := jobs; app_profiles := [profile0]; app_settings := settings0;
     app_timeout := 30; app_scheduler_running := true |}.

Definition with_dry_run (b : bool) (j : BackupJob) : BackupJob :=
  {| job_name := job_name j; job_enabled := job_enabled j;
     job_profile := job_profile j; job_mode := job_mode j;
     job_remote_source := job_remote_source j;
     job_local_target := job_local_target j; job_days := job_days j;
     job_hour := job_hour j; job_minute := job_minute j;
     job_include_subdirs := job_include_subdirs j;
     job_keep_last := job_keep_last j; job_dry_run := b |}.

Definition with_mode (m : string) (j : BackupJob) : BackupJob :=
  {| job_name := job_name j; job_enabled := job_enabled j;
     job_profile := job_profile j; job_mode := m;
     job_remote_source := job_remote_source j;
     job_local_target := job_local_target j; job_days := job_days j;
     job_hour := job_hour j; job_minute := job_minute j;
     job_include_subdirs := job_include_subdirs j;
     job_keep_last := job_keep_last j; job_dry_run := job_dry_run j |}.

Definition with_subdirs (b : bool) (j : BackupJob) : BackupJob :=
  {| job_name := job_name j; job_enabled := job_enabled j;
     job_profile := job_profile j; job_mode := job_mode j;
     job_remote_source := job_remote_source j;
     job_local_target := job_local_target j; job_days := job_days j;
     job_hour := job_hour j; job_minute := job_minute j;
     job_include_subdirs := b;
     job_keep_last := job_keep_last j; job_dry_run := job_dry_run j |}.

Definition with_keep_last (k : Z) (j : BackupJob) : BackupJob :=
  {| job_name := job_name j; job_enabled := job_enabled j;
     job_profile := job_profile j; job_mode := job_mode j;
     job_remote_source := job_remote_source j;
     job_local_target := job_local_target j; job_days := job_days j;
     job_hour := job_hour j; job_minute := job_minute j;
     job_include_subdirs := job_include_subdirs j;
     job_keep_last := k; job_dry_run := job_dry_run j |}.

Definition with_name (n : string) (j : BackupJob) : BackupJob :=
  {| job_name := n; job_enabled := job_enabled j;
     job_profile := job_profile j; job_mode := job_mode j;
     job_remote_source := job_remote_source j;
     job_local_target := job_local_target j; job_days := job_days j;
     job_hour := job_hour j; job_minute := job_minute j;
     job_include_subdirs := job_include_subdirs j;
     job_keep_last := job_keep_last j; job_dry_run := job_dry_run j |}.

(** A host with four snapshots of the job (listed out of order), a stray
    file beside them, and one snapshot that cannot be removed. *)
Definition nightly : list string := ["srv"; "backups"; "main"; "nightly"].

Definition host_snaps : Host :=
  {| dirs := [["srv"]; ["srv"; "backups"]; ["srv"; "backups"; "main"]; nightly;
              nightly ++ ["20260102_030000"]; nightly ++ ["20260104_030000"];
              nightly ++ ["20260101_030000"]; nightly ++ ["20260103_030000"]];
     files := [nightly ++ ["notes.txt"]];
     locked := [nightly ++ ["20260102_030000"]];
     home := ["home"; "dayz"];
     stamp := "20260105_030000" |}.

(** The same folders, none of them locked. *)
Definition host_four : Host :=
  {| dirs := dirs host_snaps; files := files host_snaps; locked := [];
     home := home host_snaps; stamp := stamp host_snaps |}.

Definition saturday_0300 : Clock :=
  {| clock_weekday := Saturday; clock_hour := 3; clock_minute := 0 |}.

Definition saturday_0301 : Clock :=
  {| clock_weekday := Saturday; clock_hour := 3; clock_minute := 1 |}.

(** A plain folder: one file, then a sub-folder, then another file. *)
Definition tree_mixed : list (string * list string) :=
  [("/", ["data"]);
   ("/data", ["a.txt"; "sub"; "b.txt"]);
   ("/data/sub", ["c.txt"])].

(** A server without MLSD whose NLST also names the folder itself and its
    parent, and repeats a name. *)
Definition server_dots : Server :=
  {| srv_login := Ok tt;
     srv_pwd := Ok "/";
     srv_cwd path := Ok tt;
     srv_mlsd path := Raise (FtpError "500 Unknown command.");
     srv_nlst path := Ok ["/data/."; "/data/.."; "/data/a.txt"; "/data/b.txt";
                          "/data/a.txt"];
     srv_retr path := Ok "data" |}.

(** A server whose listing of [/data] holds a name that climbs out of the
    folder. *)
Definition tree_escape : list (string * list string) :=
  [("/", ["data"]);
   ("/data", ["../../../../../etc/passwd"; "a.txt"])].

(** A server that refuses the login. *)
Definition server_down : Server :=
  {| srv_login := Raise (FtpError "530 Login incorrect.");
     srv_pwd := Ok "/";
     srv_cwd path := Ok tt;
     srv_mlsd path := Ok [];
     srv_nlst path := Ok [];
     srv_retr path := Ok "data" |}.

Definition connected (h : Host) (srv : Server) : St Host :=
  {| st_os := h; st_trace := []; st_ftp := Some srv; st_last_run_key := ∅ |}.

(** The root holds [/data], and [/data] holds two files and a folder holding three more. *)
Definition tree5 : list (string * list string) :=
  [("/", ["data"]);
   ("/data", ["a.txt"; "b.txt"; "sub"]);
   ("/data/sub", ["c.txt"; "d.txt"; "e.txt"])].

End Sim.

(** ** The configuration files

    A file holds the value last dumped into it; the store is keyed by the
    path below [BASE_DIR].  A file that does not parse and an I/O error are
    outside the model. *)

Definition Files := gmap string json.

Definition PROFILES_PATH : string := "config/profiles.json".
Definition JOBS_PATH : string := "config/backup_jobs.json".
Definition SETTINGS_PATH : string := "config/settings.json".

(** What reading a value out of a file comes to: the value; or a value of
    another type than the field of the data class is declared with, which
    Python stores without a word; or an exception. *)
Inductive Loaded (A : Type) :=
  | Value (a : A)
  | Untyped
  | Raises (what : string).

Arguments Value {A} a.
Arguments Untyped {A}.
Arguments Raises {A} what.

Definition load_map {A B} (f : A -> B) (x : Loaded A) : Loaded B :=
  match x with
  | Value a => Value (f a)
  | Untyped => Untyped
  | Raises e => Raises e
  end.

(** Arguments are evaluated from the left: the first exception wins, and a
    value of the wrong type stops nothing. *)
Definition load_ap {A B} (f : Loaded (A -> B)) (x : Loaded A) : Loaded B :=
  match f, x with
  | Raises e, _ => Raises e
  | _, Raises e => Raises e
  | Value g, Value a => Value (g a)
  | _, _ => Untyped
  end.

Definition load_bind {A B} (x : Loaded A) (f : A -> Loaded B) : Loaded B :=
  match x with
  | Value a => f a
  | Untyped => Untyped
  | Raises e => Raises e
  end.

Notation "f <*> x" := (load_ap f x) (at level 61, left associativity) : py_scope.

(** The loop [for x in xs: out.append(f(x))] *)
Fixpoint traverse {A B} (f : A -> Loaded B) (xs : list A) : Loaded (list B) :=
  match xs with
  | [] => Value []
  | x :: rest => Value cons <*> f x <*> traverse f rest
  end.

(** A field declared [str] *)
Definition to_str (v : json) : Loaded string :=
  match v with
  | JStr s => Value s
  | _ => Untyped
  end.

(** A field declared [Optional[str]], read with [obj.get(k)] *)
Definition to_opt_str (v : option json) : Loaded (option string) :=
  match v with
  | None | Some JNull => Value None
  | Some (JStr s) => Value (Some s)
  | Some _ => Untyped
  end.

(** The characters of a string, each a string *)
Definition chars (s : string) : list string :=
  List.map (fun c => String c "") (list_ascii_of_string s).

(** [for x in v] and [list(v)] *)
Definition iterate (v : json) : Loaded (list json) :=
  match v with
  | JList items => Value items
  | JStr s => Value (List.map JStr (chars s))
  | JDict kvs => Value (List.map (fun kv => JStr kv.1) kvs)
  | _ => Raises "TypeError"
  end.

Definition load_json (path : string) (default_obj : json) (fs : Files)
  : json * Files :=
  match fs !! path with
  | None => (default_obj, <[path := default_obj]> fs)
  | Some obj => (obj, fs)
  end.

Definition save_json (path : string) (obj : json) (fs : Files) : Files :=
  <[path := obj]> fs.

(** [p.__dict__] *)
Definition json_of_profile (p : Profile) : json :=
  JDict [("name", JStr (prof_name p)); ("host", JStr (prof_host p));
         ("port", JInt (prof_port p)); ("username", JStr (prof_username p));
         ("password", JStr (prof_password p)); ("tls", JBool (prof_tls p));
         ("root", JStr (prof_root p))].

Definition save_profiles (profiles : list Profile) (active : option string)
    (fs : Files) : Files :=
  save_json PROFILES_PATH
    (JDict [("profiles", JList (List.map json_of_profile profiles));
            ("active_profile", match active with
                               | Some a => JStr a
                               | None => JNull
                               end)]) fs.

(** [j.__dict__] *)
Definition json_of_job (j : BackupJob) : json :=
  JDict [("name", JStr (job_name j)); ("enabled", JBool (job_enabled j));
         ("profile", JStr (job_profile j)); ("mode", JStr (job_mode j));
         ("remote_source", JStr (job_remote_source j));
         ("local_target", JStr (job_local_target j));
         ("days", JList (List.map JStr (job_days j)));
         ("hour", JInt (job_hour j)); ("minute", JInt (job_minute j));
         ("include_subdirs", JBool (job_include_subdirs j));
         ("keep_last", JInt (job_keep_last j));
         ("dry_run", JBool (job_dry_run j))].

Definition save_jobs (jobs : list BackupJob) (fs : Files) : Files :=
  save_json JOBS_PATH (JDict [("jobs", JList (List.map json_of_job jobs))]) fs.

Definition default_settings : json :=
  JDict [("app", JDict [("timeout_seconds", JInt 30); ("tick_seconds", JInt 20);
                        ("auto_start", JBool false)])].

Definition load_settings (fs : Files) : json * Files :=
  load_json SETTINGS_PATH default_settings fs.

(** ** The forms: settings, jobs and profiles

    The handlers behind the buttons, as functions of what the form holds
    and of the data they change.  Widgets are refreshed from the data and
    are left out; what a handler shows on return is its [Dialog]. *)

Inductive Dialog :=
  | ShowWarning (title msg : string)
  | ShowError (title msg : string)
  | ShowInfo (title msg : string)
  | NoDialog
  | Uncaught (what : string).

(** [self.profiles], [self.active_profile] and [self.jobs], with the files. *)
Record Data := {
  profiles : list Profile;
  active_profile : option string;
  jobs : list BackupJob;
  files : Files
}.

(** [self.settings], [self.timeout], [self.tick_seconds], [self.auto_start] *)
Record Config := {
  cfg_settings : json;
  cfg_timeout : Z;
  cfg_tick_seconds : Z;
  cfg_auto_start : bool
}.

(** The variables of the job form; [day_vars] is the dict of check boxes
    keyed by the tags of [DAYS]. *)
Record JobForm := {
  j_name : string;
  j_enabled : bool;
  j_profile : string;
  j_mode : string;
  j_remote : string;
  j_local : string;
  j_hour : string;
  j_min : string;
  j_subdirs : bool;
  j_keep : string;
  j_dry : bool;
  day_vars : string -> bool
}.

Record ProfileForm := {
  v_name : string;
  v_host : string;
  v_port : string;
  v_user : string;
  v_pass : string;
  v_tls : bool;
  v_root : string
}.

(** [x or d] on strings *)
Definition or_else (x d : string) : string :=
  if String.eqb x "" then d else x.

(** [str] of an int *)
Definition str_int (z : Z) : string := pretty z.

(** The job form after a click in the list of jobs *)
Definition on_job_select (sel : option nat) (d : Data) (f : JobForm)
  : JobForm * Dialog :=
  match sel with
  | None => (f, NoDialog)
  | Some idx =>
      match jobs d !! idx with
      | None => (f, Uncaught "IndexError")
      | Some j =>
          ({| j_name := job_name j; j_enabled := job_enabled j;
              j_profile := job_profile j; j_mode := job_mode j;
              j_remote := job_remote_source j; j_local := job_local_target j;
              j_hour := str_int (job_hour j); j_min := str_int (job_minute j);
              j_subdirs := job_include_subdirs j;
              j_keep := str_int (job_keep_last j); j_dry := job_dry_run j;
              day_vars := fun day =>
                if bool_decide (day ∈ DAYS)
                then bool_decide (day ∈ job_days j)
                else day_vars f day |},
           NoDialog)
      end
  end.

(** The profile form after a click in the list of profiles *)
Definition on_profile_select (sel : option nat) (d : Data) (f : ProfileForm)
  : ProfileForm * Dialog :=
  match sel with
  | None => (f, NoDialog)
  | Some idx =>
      match profiles d !! idx with
      | None => (f, Uncaught "IndexError")
      | Some p =>
          ({| v_name := prof_name p; v_host := prof_host p;
              v_port := str_int (prof_port p); v_user := prof_username p;
              v_pass := prof_password p; v_tls := prof_tls p;
              v_root := prof_root p |},
           NoDialog)
      end
  end.

Section Persistence.

(** Python's [int] on a string: [None] stands for [ValueError]. *)
Variable py_int : string -> option Z.

(** [str(DATA_DIR)] *)
Variable data_dir : string.

(** [int(v)] *)
Definition to_int (v : json) : Loaded Z :=
  match v with
  | JInt n => Value n
  | JBool b => Value (if b then 1 else 0)%Z
  | JStr s =>
      match py_int s with
      | Some n => Value n
      | None => Raises "ValueError"
      end
  | _ => Raises "TypeError"
  end.

(** The body of the loop of [load_profiles]; [p.get] needs a dict. *)
Definition profile_of_json (p : json) : Loaded Profile :=
  match p with
  | JDict kvs =>
      Value (fun name host port username password tls root =>
               {| prof_name := name; prof_host := host; prof_port := port;
                  prof_username := username; prof_password := password;
                  prof_tls := tls; prof_root := root |})
      <*> to_str (dict_get kvs "name" (JStr "Unnamed"))
      <*> to_str (dict_get kvs "host" (JStr ""))
      <*> to_int (dict_get kvs "port" (JInt 21))
      <*> to_str (dict_get kvs "username" (JStr ""))
      <*> to_str (dict_get kvs "password" (JStr ""))
      <*> Value (truthy (dict_get kvs "tls" (JBool false)))
      <*> to_str (dict_get kvs "root" (JStr "/"))
  | _ => Raises "AttributeError"
  end.

(** [load_profiles] after [load_json] *)
Definition profiles_of_json (obj : json)
  : Loaded (list Profile * option string) :=
  match obj with
  | JDict kvs =>
      Value pair
      <*> load_bind (iterate (dict_get kvs "profiles" (JList [])))
            (traverse profile_of_json)
      <*> to_opt_str (dict_lookup "active_profile" kvs)
  | _ => Raises "AttributeError"
  end.

Definition load_profiles (fs : Files)
  : Loaded (list Profile * option string) * Files :=
  let '(obj, fs') :=
    load_json PROFILES_PATH
      (JDict [("profiles", JList []); ("active_profile", JNull)]) fs in
  (profiles_of_json obj, fs').

(** The body of the loop of [load_jobs] *)
Definition job_of_json (j : json) : Loaded BackupJob :=
  match j with
  | JDict kvs =>
      Value (fun name enabled profile mode remote_source local_target days
                 hour minute include_subdirs keep_last dry_run =>
               {| job_name := name; job_enabled := enabled;
                  job_profile := profile; job_mode := mode;
                  job_remote_source := remote_source;
                  job_local_target := local_target; job_days := days;
                  job_hour := hour; job_minute := minute;
                  job_include_subdirs := include_subdirs;
                  job_keep_last := keep_last; job_dry_run := dry_run |})
      <*> to_str (dict_get kvs "name" (JStr "Unnamed Job"))
      <*> Value (truthy (dict_get kvs "enabled" (JBool true)))
      <*> to_str (dict_get kvs "profile" (JStr ""))
      <*> to_str (dict_get kvs "mode" (JStr "snapshot"))
      <*> to_str (dict_get kvs "remote_source" (JStr "/"))
      <*> to_str (dict_get kvs "local_target" (JStr data_dir))
      <*> load_bind (iterate (dict_get kvs "days" (JList [JStr "Sat"])))
            (traverse to_str)
      <*> to_int (dict_get kvs "hour" (JInt 0))
      <*> to_int (dict_get kvs "minute" (JInt 0))
      <*> Value (truthy (dict_get kvs "include_subdirs" (JBool true)))
      <*> to_int (dict_get kvs "keep_last" (JInt 10))
      <*> Value (truthy (dict_get kvs "dry_run" (JBool false)))
  | _ => Raises "AttributeError"
  end.

(** [load_jobs] after [load_json] *)
Definition jobs_of_json (obj : json) : Loaded (list BackupJob) :=
  match obj with
  | JDict kvs =>
      load_bind (iterate (dict_get kvs "jobs" (JList []))) (traverse job_of_json)
  | _ => Raises "AttributeError"
  end.

Definition load_jobs (fs : Files) : Loaded (list BackupJob) * Files :=
  let '(obj, fs') := load_json JOBS_PATH (JDict [("jobs", JList [])]) fs in
  (jobs_of_json obj, fs').

(** [self.settings.get("app",{}).get(key, dflt)] *)
Definition app_get (settings : json) (key : string) (dflt : json) : Loaded json :=
  match settings with
  | JDict kvs =>
      match dict_get kvs "app" (JDict []) with
      | JDict app => Value (dict_get app key dflt)
      | _ => Raises "AttributeError"
      end
  | _ => Raises "AttributeError"
  end.

(** The settings as [__init__] reads them *)
Definition config_of_json (settings : json) : Loaded Config :=
  Value (fun timeout tick_seconds auto_start =>
           {| cfg_settings := settings; cfg_timeout := timeout;
              cfg_tick_seconds := tick_seconds; cfg_auto_start := auto_start |})
  <*> load_bind (app_get settings "timeout_seconds" (JInt 30)) to_int
  <*> load_bind (app_get settings "tick_seconds" (JInt 20)) to_int
  <*> load_map truthy (app_get settings "auto_start" (JBool false)).

Definition load_config (fs : Files) : Loaded Config * Files :=
  let '(settings, fs') := load_settings fs in
  (config_of_json settings, fs').

(** The profiles and the jobs as [__init__] reads them *)
Definition load_data (fs : Files) : Loaded Data :=
  let '(ps, fs1) := load_profiles fs in
  let '(js, fs2) := load_jobs fs1 in
  Value (fun pa js => {| profiles := pa.1; active_profile := pa.2;
                         jobs := js; files := fs2 |})
  <*> ps <*> js.

(** The [try] of [save_settings_ui]: both numbers parse and are positive. *)
Definition parse_settings (s_timeout s_tick : string) : option (Z * Z) :=
  match py_int (PyStr.strip (or_else s_timeout "30")) with
  | None => None
  | Some t =>
      match py_int (PyStr.strip (or_else s_tick "20")) with
      | None => None
      | Some k => if (t <=? 0)%Z || (k <=? 0)%Z then None else Some (t, k)
      end
  end.

Definition save_settings_ui (s_timeout s_tick : string) (s_auto : bool)
    (cfg : Config) (fs : Files) : Config * Files * Dialog :=
  match parse_settings s_timeout s_tick with
  | None =>
      (cfg, fs, ShowError "Invalid" "Timeout and tick must be positive numbers.")
  | Some (t, k) =>
      let settings :=
        JDict [("app", JDict [("timeout_seconds", JInt t);
                              ("tick_seconds", JInt k);
                              ("auto_start", JBool s_auto)])] in
      ({| cfg_settings := settings; cfg_timeout := t; cfg_tick_seconds := k;
          cfg_auto_start := s_auto |},
       save_json SETTINGS_PATH settings fs,
       ShowInfo "Saved" "Settings saved.")
  end.

(** [self.jobs] changed and [save_jobs(self.jobs)] *)
Definition save_jobs_of (d : Data) (js : list BackupJob) : Data :=
  {| profiles := profiles d; active_profile := active_profile d;
     jobs := js; files := save_jobs js (files d) |}.

(** [self.profiles] and [self.active_profile] changed and
    [save_profiles(self.profiles, self.active_profile)] *)
Definition save_profiles_of (d : Data) (ps : list Profile) (a : option string)
  : Data :=
  {| profiles := ps; active_profile := a; jobs := jobs d;
     files := save_profiles ps a (files d) |}.

Definition job_new (d : Data) : Data * Dialog :=
  let prof := match profiles d with
              | p :: _ => prof_name p
              | [] => ""
              end in
  let j := {| job_name := "BackupJob_" +:+ pretty (S (List.length (jobs d)));
              job_enabled := true; job_profile := prof; job_mode := "snapshot";
              job_remote_source := "/"; job_local_target := data_dir;
              job_days := ["Sat"]; job_hour := 0; job_minute := 0;
              job_include_subdirs := true; job_keep_last := 10;
              job_dry_run := false |} in
  (save_jobs_of d (jobs d ++ [j]), NoDialog).

(** [confirm] is the answer to [askyesno]. *)
Definition job_delete (sel : option nat) (confirm : bool) (d : Data)
  : Data * Dialog :=
  match sel with
  | None => (d, ShowWarning "No job" "Select a job.")
  | Some idx =>
      match jobs d !! idx with
      | None => (d, Uncaught "IndexError")
      | Some _ =>
          if negb confirm then (d, NoDialog)
          else (save_jobs_of d (delete idx (jobs d)), NoDialog)
      end
  end.

(** The first [try] of [job_save]: both numbers parse and are in range. *)
Definition parse_time (f : JobForm) : option (Z * Z) :=
  match py_int (PyStr.strip (or_else (j_hour f) "0")) with
  | None => None
  | Some hh =>
      match py_int (PyStr.strip (or_else (j_min f) "0")) with
      | None => None
      | Some mm =>
          if negb ((0 <=? hh)%Z && (hh <=? 23)%Z && ((0 <=? mm)%Z && (mm <=? 59)%Z))
          then None
          else Some (hh, mm)
      end
  end.

(** The second [try]: the count parses and is not negative. *)
Definition parse_keep (f : JobForm) : option Z :=
  match py_int (PyStr.strip (or_else (j_keep f) "10")) with
  | None => None
  | Some keep => if (keep <? 0)%Z then None else Some keep
  end.

Definition job_save (f : JobForm) (sel : option nat) (d : Data) : Data * Dialog :=
  match sel with
  | None => (d, ShowWarning "No job" "Select a job.")
  | Some idx =>
      match parse_time f with
      | None =>
          (d, ShowError "Invalid time" "Hour must be 0-23 and Minute must be 0-59.")
      | Some (hh, mm) =>
          match parse_keep f with
          | None =>
              (d, ShowError "Invalid keep"
                    "Keep last snapshots must be 0 or a positive number.")
          | Some keep =>
              let days := List.filter (day_vars f) DAYS in
              match days with
              | [] => (d, ShowError "Invalid days" "Select at least one day.")
              | _ =>
                  let j :=
                    {| job_name := or_else (PyStr.strip (j_name f)) "Unnamed Job";
                       job_enabled := j_enabled f;
                       job_profile := PyStr.strip (j_profile f);
                       job_mode := or_else (PyStr.strip (j_mode f)) "snapshot";
                       job_remote_source := or_else (PyStr.strip (j_remote f)) "/";
                       job_local_target := or_else (PyStr.strip (j_local f)) data_dir;
                       job_days := days; job_hour := hh; job_minute := mm;
                       job_include_subdirs := j_subdirs f;
                       job_keep_last := keep; job_dry_run := j_dry f |} in
                  if (idx <? List.length (jobs d))%nat
                  then (save_jobs_of d (<[idx := j]> (jobs d)),
                        ShowInfo "Saved" "Job saved.")
                  else (d, Uncaught "IndexError")
              end
          end
      end
  end.

Definition profile_new (d : Data) : Data * Dialog :=
  let n := "Profile_" +:+ pretty (S (List.length (profiles d))) in
  let p := {| prof_name := n; prof_host := ""; prof_port := 21;
              prof_username := ""; prof_password := ""; prof_tls := false;
              prof_root := "/" |} in
  (save_profiles_of d (profiles d ++ [p]) (Some n), NoDialog).

Definition profile_delete (sel : option nat) (confirm : bool) (d : Data)
  : Data * Dialog :=
  match sel with
  | None => (d, NoDialog)
  | Some idx =>
      match profiles d !! idx with
      | None => (d, Uncaught "IndexError")
      | Some p =>
          if negb confirm then (d, NoDialog)
          else
            let ps := delete idx (profiles d) in
            let a := if bool_decide (active_profile d = Some (prof_name p))
                     then match ps with
                          | q :: _ => Some (prof_name q)
                          | [] => None
                          end
                     else active_profile d in
            (save_profiles_of d ps a, NoDialog)
      end
  end.

Definition profile_set_active (sel : option nat) (d : Data) : Data * Dialog :=
  match sel with
  | None => (d, NoDialog)
  | Some idx =>
      match profiles d !! idx with
      | None => (d, Uncaught "IndexError")
      | Some p => (save_profiles_of d (profiles d) (Some (prof_name p)), NoDialog)
      end
  end.

Definition profile_save (f : ProfileForm) (sel : option nat) (d : Data)
  : Data * Dialog :=
  match py_int (PyStr.strip (or_else (v_port f) "21")) with
  | None => (d, ShowError "Invalid" "Port must be a number.")
  | Some port =>
      let new_profile :=
        {| prof_name := or_else (PyStr.strip (v_name f)) "Unnamed";
           prof_host := PyStr.strip (v_host f);
           prof_port := port;
           prof_username := PyStr.strip (v_user f);
           prof_password := v_pass f;
           prof_tls := v_tls f;
           prof_root := or_else (PyStr.strip (v_root f)) "/" |} in
      let existing_names := List.map prof_name (profiles d) in
      let duplicate :=
        (d, ShowError "Duplicate name"
              "A profile with this name already exists. Pick a different name.") in
      match sel with
      | None =>
          if bool_decide (prof_name new_profile ∈ existing_names) then duplicate
          else (save_profiles_of d (profiles d ++ [new_profile])
                  (Some (prof_name new_profile)),
                ShowInfo "Saved" "Profile saved.")
      | Some i =>
          match profiles d !! i with
          | None => (d, Uncaught "IndexError")
          | Some old =>
              let old_name := prof_name old in
              if negb (String.eqb (prof_name new_profile) old_name)
                 && bool_decide (prof_name new_profile ∈ existing_names)
              then duplicate
              else
                (save_profiles_of d (<[i := new_profile]> (profiles d))
                   (if bool_decide (active_profile d = Some old_name)
                    then Some (prof_name new_profile)
                    else active_profile d),
                 ShowInfo "Saved" "Profile saved.")
          end
      end
  end.

(** What the user can do to the data. *)
Inductive Action :=
  | JobNew
  | JobDelete (sel : option nat) (confirm : bool)
  | JobSave (f : JobForm) (sel : option nat)
  | ProfileNew
  | ProfileDelete (sel : option nat) (confirm : bool)
  | ProfileSetActive (sel : option nat)
  | ProfileSave (f : ProfileForm) (sel : option nat).

Definition handle (a : Action) (d : Data) : Data * Dialog :=
  match a with
  | JobNew => job_new d
  | JobDelete sel confirm => job_delete sel confirm d
  | JobSave f sel => job_save f sel d
  | ProfileNew => profile_new d
  | ProfileDelete sel confirm => profile_delete sel confirm d
  | ProfileSetActive sel => profile_set_active sel d
  | ProfileSave f sel => profile_save f sel d
  end.

End Persistence.

(** What the data model asks of a job. *)
Definition valid_job (j : BackupJob) : Prop :=
  (0 <= job_hour j <= 23)%Z /\ (0 <= job_minute j <= 59)%Z /\
  (0 <= job_keep_last j)%Z /\
  job_days j <> [] /\ List.NoDup (job_days j) /\
  (forall day, In day (job_days j) -> In day DAYS) /\
  job_name j <> "" /\ job_mode j <> "" /\ job_remote_source j <> "".

(** The active profile, when there is one, is the name of a profile. *)
Definition active_known (d : Data) : Prop :=
  forall a, active_profile d = Some a -> In a (List.map prof_name (profiles d)).

(** A restart would find what is in memory: the two files load, without
    being written, into the profiles, the active profile and the jobs. *)
Definition in_sync (py_int : string -> option Z) (data_dir : string) (d : Data)
  : Prop :=
  load_profiles py_int (files d) = (Value (profiles d, active_profile d), files d) /\
  load_jobs py_int data_dir (files d) = (Value (jobs d), files d).

(** A string that [strip] leaves as it is *)
Definition stripped (s : string) : Prop := PyStr.strip s = s.

(** [int] gives back the number whose [str] the form holds. *)
Definition reads_back (py_int : string -> option Z) (dflt : string) (z : Z)
  : Prop :=
  py_int (PyStr.strip (or_else (str_int z) dflt)) = Some z.

(** The days are days of the week, each once, in the order of the week. *)
Definition in_week_order (days : list string) : Prop :=
  List.filter (fun day => bool_decide (day ∈ days)) DAYS = days.

(** A job as the form would write it. *)
Definition tidy_job (j : BackupJob) : Prop :=
  stripped (job_name j) /\ stripped (job_profile j) /\ stripped (job_mode j) /\
  stripped (job_remote_source j) /\ stripped (job_local_target j) /\
  job_local_target j <> "" /\ in_week_order (job_days j).

(** A profile as the form would write it. *)
Definition tidy_profile (p : Profile) : Prop :=
  stripped (prof_name p) /\ prof_name p <> "" /\ stripped (prof_host p) /\
  stripped (prof_username p) /\ stripped (prof_root p) /\ prof_root p <> "".

(** A dialog that reports a refusal, or an exception that got away. *)
Definition refused (dlg : Dialog) : bool :=
  match dlg with
  | ShowWarning _ _ | ShowError _ _ | Uncaught _ => true
  | ShowInfo _ _ | NoDialog => false
  end.

(** ** Sample forms, for running the handlers *)

Module SimUI.

Definition digit (c : ascii) : option Z :=
  let n := nat_of_ascii c in
  if (48 <=? n)%nat && (n <=? 57)%nat then Some (Z.of_nat (n - 48)) else None.

Fixpoint digits (acc : Z) (s : string) : option Z :=
  match s with
  | EmptyString => Some acc
  | String c r =>
      match digit c with
      | Some v => digits (10 * acc + v)%Z r
      | None => None
      end
  end.

(** [int] on the strings met below: decimal digits after an optional sign. *)
Definition py_int (s : string) : option Z :=
  match s with
  | EmptyString => None
  | String c r =>
      if Ascii.eqb c "-" then
        if String.eqb r "" then None else option_map Z.opp (digits 0 r)
      else if Ascii.eqb c "+" then
        if String.eqb r "" then None else digits 0 r
      else digits 0 s
  end.

Definition data_dir : string := "/opt/backups".

Definition empty : Data :=
  {| profiles := []; active_profile := None; jobs := []; files := ∅ |}.

(** A press of each button in turn, from the left. *)
Definition press (acts : list Action) (d : Data) : Data :=
  List.fold_left (fun d a => (handle py_int data_dir a d).1) acts d.

Definition nightly_form : JobForm :=
  {| j_name := " Nightly "; j_enabled := true; j_profile := "Profile_1";
     j_mode := ""; j_remote := "/profiles"; j_local := "";
     j_hour := "3"; j_min := ""; j_subdirs := true; j_keep := "7";
     j_dry := false;
     day_vars := fun day => String.eqb day "Mon" || String.eqb day "Fri" |}.

Definition late_form : JobForm :=
  {| j_name := "Late"; j_enabled := true; j_profile := "Profile_1";
     j_mode := "mirror"; j_remote := "/"; j_local := "";
     j_hour := "24"; j_min := "0"; j_subdirs := true; j_keep := "7";
     j_dry := false; day_vars := fun _ => true |}.

Definition main_form : ProfileForm :=
  {| v_name := "Main"; v_host := " ftp.example.org "; v_port := "";
     v_user := "dayz"; v_pass := " s3cret "; v_tls := true; v_root := "" |}.

(** One profile and one job, both as the buttons make them. *)
Definition one_each : Data := press [ProfileNew; JobNew] empty.

(** Two profiles, the first deleted. *)
Definition second_left : Data :=
  press [ProfileNew; ProfileNew; ProfileDelete (Some 0%nat) true] empty.

(** The profile of [main_form], saved as the only one. *)
Definition with_main : Data := press [ProfileSave main_form None] empty.

(** Settings with a webhook, in memory and in the file. *)
Definition settings0 : json :=
  JDict [("app", JDict [("timeout_seconds", JInt 30); ("tick_seconds", JInt 20);
                        ("auto_start", JBool false)]);
         ("discord", JDict [("webhook_url", JStr "https://discord.example/hook");
                            ("notify_start", JBool false)])].

Definition config0 : Config :=
  {| cfg_settings := settings0; cfg_timeout := 30; cfg_tick_seconds := 20;
     cfg_auto_start := false |}.

Definition files0 : Files := save_json SETTINGS_PATH settings0 ∅.

End SimUI.

(** ** Vocabulary of the statements *)

(** The events a computation added to the trace (the trace only grows). *)
Definition new_events {OS} (s s' : St OS) : list event :=
  drop (List.length (st_trace s)) (st_trace s').

Definition is_download (e : event) : bool :=
  match e with DownloadFile _ _ => true | _ => false end.

Definition is_rmtree (e : event) : bool :=
  match e with Rmtree _ => true | _ => false end.

Definition is_fire (e : event) : bool :=
  match e with Fire _ _ => true | _ => false end.

Definition is_fire_named (n : string) (e : event) : bool :=
  match e with Fire _ m => String.eqb m n | _ => false end.

Definition is_fire_at (i : nat) (e : event) : bool :=
  match e with Fire j _ => Nat.eqb j i | _ => false end.

(** A computation every run of which relates the state before to the
    state after. *)
Definition respects {OS A} (R : St OS -> St OS -> Prop) (m : M OS A) : Prop :=
  forall s, R s (m s).2.


(** Whether the name [n] may still fire for the key: 0 once
    [last_run_key[n]] is the key, 1 before. *)
Definition unfired {OS} (key n : string) (s : St OS) : nat :=
  if bool_decide (st_last_run_key s !! n = Some key) then 0 else 1.

(** The trace grew by at most as many firings of [n] as were still
    allowed, and what is left is allowed after. *)
Definition once {OS} (key n : string) (s s' : St OS) : Prop :=
  exists d : list event,
    st_trace s' = st_trace s ++ d /\
    (List.length (List.filter (is_fire_named n) d) + unfired key n s'
     <= unfired key n s)%nat.

(** The state in which the loop of the scheduler hands the job at position
    [idx] to [run_job]: the key of the minute is recorded under the name of
    the job and the firing is noted. *)
Definition fired_state {OS} (key : string) (idx : nat) (n : string) (s : St OS)
  : St OS :=
  {| st_os := st_os s; st_trace := st_trace s ++ [Fire idx n];
     st_ftp := st_ftp s;
     st_last_run_key := <[n := key]> (st_last_run_key s) |}.

(** The trace grew without a firing at position [k], and a key recorded
    for [n] stays recorded. *)
Definition not_at {OS} (key n : string) (k : nat) (s s' : St OS) : Prop :=
  exists d : list event,
    st_trace s' = st_trace s ++ d /\
    Forall (fun e => is_fire_at k e = false) d /\
    (st_last_run_key s !! n = Some key ->
     st_last_run_key s' !! n = Some key).

(** The trace grew and the entry of [n] in [last_run_key] is unchanged. *)
Definition same_key {OS} (n : string) (s s' : St OS) : Prop :=
  (exists d : list event, st_trace s' = st_trace s ++ d) /\
  st_last_run_key s' !! n = st_last_run_key s !! n.

(** [a] may stand before [b] in the descending order of names. *)
Definition name_ge (a b : Path) : Prop :=
  String.leb (path_name b) (path_name a) = true.

(** The sub-folders of [job_dir] among the names [iterdir()] yields. *)
Definition snapshot_dirs {OS} `{LocalOS OS} (o : OS) (job_dir : Path)
    (names : list string) : list Path :=
  List.filter (os_is_dir o) (List.map (child job_dir) names).

(** A log line reporting a transferred (or would-be transferred) file. *)
Definition is_downloaded_log (e : event) : bool :=
  match e with
  | Log INFO msg => String.prefix "Downloaded" msg
  | _ => false
  end.

(** Order of first occurrence, in the words of the specification: each
    name once, where it is first seen. *)
Fixpoint first_seen (l : list string) : list string :=
  match l with
  | [] => []
  | x :: t => x :: List.filter (fun y => negb (String.eqb y x)) (first_seen t)
  end.

(** The cleaned string of [norm_remote], before the slashes are looked at. *)
Definition cleaned (path : string) : string :=
  PyStr.replace PyStr.lf ""
    (PyStr.replace PyStr.cr "" (PyStr.replace PyStr.backslash "/" path)).


(** A string ending in two copies of a character. *)
Definition ends_double (c : ascii) (s : string) : bool :=
  PyStr.endswith c s && PyStr.endswith c (PyStr.drop_last s).


(** [out] is [rr] or lies below it. *)
Definition within (rr out : Path) : Prop :=
  anchored out = anchored rr /\ exists suffix, parts out = parts rr ++ suffix.

(** A job is due at a reading of the clock: the first three tests of the
    scheduler's loop all pass. *)
Definition due (job : BackupJob) (now : Clock) : bool :=
  job_enabled job
  && bool_decide (weekday_now now ∈ job_days job)
  && (job_hour job =? clock_hour now)%Z
  && (job_minute job =? clock_minute now)%Z.

(** A computation that appends only events satisfying [Q] to the trace
    and leaves [last_run_key] alone. *)
Definition emits {OS A} (Q : event -> Prop) (m : M OS A) : Prop :=
  forall s, exists d,
    st_trace (m s).2 = st_trace s ++ d /\ Forall Q d /\
    st_last_run_key (m s).2 = st_last_run_key s.

(** The character [c] is the small letter [d] or its capital. *)
Definition letter_of (d c : ascii) : bool :=
  Ascii.eqb c d
  || (let n := Ascii.nat_of_ascii d in
      (97 <=? n)%nat && (n <=? 122)%nat
      && (Ascii.nat_of_ascii c =? n - 32)%nat).

(** The string spells the word, given in small letters, whatever the case
    of its own letters. *)
Fixpoint spells (word s : string) : bool :=
  match word, s with
  | EmptyString, EmptyString => true
  | String d word', String c s' => letter_of d c && spells word' s'
  | _, _ => false
  end.

(** An event that a run into the folder [root] may leave: a download only
    to a path that is the resolution of a name joined to [root] and is the
    resolved [root] or lies below it; no removal and no firing. *)
Definition lands_in {OS} `{LocalOS OS} (root : Path) (e : event) : Prop :=
  match e with
  | DownloadFile _ l =>
      exists (o : OS) rr rel,
        os_resolve o root = Ok rr /\
        os_resolve o (joinpath root rel) = Ok l /\ within rr l
  | Rmtree _ => False
  | Fire _ _ => False
  | _ => True
  end.

(** The traffic of [_discord_post]: its request and its warning. *)
Definition is_discord (e : event) : bool :=
  match e with
  | DiscordPost _ => true
  | Log WARN msg => String.prefix "Discord webhook failed: " msg
  | _ => false
  end.

(** Whether a call returned rather than raised. *)
Definition is_ok {A} (r : Res A) : bool :=
  match r with Ok _ => true | Raise _ => false end.

(** A firing that is accounted for: the job at that position bears that
    name and is due at one of the clock readings. *)
Definition fired_due (app : App) (clocks : list Clock) (e : event) : Prop :=
  match e with
  | Fire i n =>
      exists job now, In now clocks /\ app_jobs app !! i = Some job /\
                      job_name job = n /\ due job now = true
  | _ => True
  end.

(** The trace grew by accounted firings (and other events) only. *)
Definition accounted {OS} (app : App) (clocks : list Clock) (s s' : St OS) : Prop :=
  exists d : list event,
    st_trace s' = st_trace s ++ d /\ Forall (fired_due app clocks) d.

(** A reading of the clock as [datetime] gives it. *)
Definition valid_clock (c : Clock) : Prop :=
  (0 <= clock_hour c <= 23)%Z /\ (0 <= clock_minute c <= 59)%Z.

(** * Properties *)

(** ** Strings *)

#[local] Arguments Ascii.eqb : simpl never.

Section StringFacts.

Lemma contains_app c a b :
  PyStr.contains c (a +:+ b) = PyStr.contains c a || PyStr.contains c b.
Proof.
  induction a as [|d a IH]; simpl; [reflexivity|].
  rewrite IH. apply orb_assoc.
Qed.

Lemma contains_replace_old old new s :
  PyStr.contains old new = false ->
  PyStr.contains old (PyStr.replace old new s) = false.
Proof.
  intros Hnew. induction s as [|d s IH]; simpl; [reflexivity|].
  destruct (Ascii.eqb d old) eqn:E.
  - rewrite contains_app, Hnew, IH. reflexivity.
  - simpl. rewrite E, IH. reflexivity.
Qed.

Lemma contains_replace_other c old new s :
  PyStr.contains c new = false ->
  PyStr.contains c s = false ->
  PyStr.contains c (PyStr.replace old new s) = false.
Proof.
  intros Hnew. induction s as [|d s IH]; simpl; [reflexivity|].
  intros Hs. apply orb_false_iff in Hs as [Hd Hs].
  destruct (Ascii.eqb d old).
  - rewrite contains_app, Hnew, IH by assumption. reflexivity.
  - simpl. rewrite Hd, IH by assumption. reflexivity.
Qed.

Lemma contains_drop_last c s :
  PyStr.contains c s = false -> PyStr.contains c (PyStr.drop_last s) = false.
Proof.
  induction s as [|d s IH]; simpl; [reflexivity|].
  intros Hs. apply orb_false_iff in Hs as [Hd Hs].
  destruct s as [|e s]; [reflexivity|].
  change (PyStr.contains c (String d (PyStr.drop_last (String e s))) = false).
  simpl PyStr.contains at 1. rewrite Hd. simpl. apply IH, Hs.
Qed.

Lemma replace_absent old new s :
  PyStr.contains old s = false -> PyStr.replace old new s = s.
Proof.
  induction s as [|d s IH]; simpl; [reflexivity|].
  intros Hs. apply orb_false_iff in Hs as [Hd Hs].
  rewrite Hd, IH by assumption. reflexivity.
Qed.

Lemma startswith_drop_last c s :
  (1 < String.length s)%nat ->
  PyStr.startswith c (PyStr.drop_last s) = PyStr.startswith c s.
Proof.
  destruct s as [|d [|e s]]; simpl; intros Hl; try lia. reflexivity.
Qed.



Lemma endswith_nonempty c s : PyStr.endswith c s = true -> s <> "".
Proof. destruct s; simpl; congruence. Qed.

Lemma ends_double_cons c d s :
  (1 < String.length s)%nat -> ends_double c (String d s) = ends_double c s.
Proof.
  intros Hl. unfold ends_double.
  destruct s as [|e [|f s]]; simpl in Hl; try lia. reflexivity.
Qed.

End StringFacts.

(** ** [norm_remote] *)


(** [strip] takes off the no-break space and the next-line character as
    well as the blanks of ASCII. *)
Example strip_examples :
  PyStr.strip (String (Ascii.ascii_of_nat 160) "Nightly ") = "Nightly" /\
  PyStr.strip (String (Ascii.ascii_of_nat 133) " 21") = "21" /\
  PyStr.strip " a b " = "a b".
Proof. repeat split. Qed.

Lemma norm_remote_unfold path :
  norm_remote path =
  let p := if negb (PyStr.startswith PyStr.slash (cleaned path))
           then "/" +:+ cleaned path else cleaned path in
  if (1 <? String.length p)%nat && PyStr.endswith PyStr.slash p
  then PyStr.drop_last p else p.
Proof. reflexivity. Qed.

Lemma cleaned_no_backslash path :
  PyStr.contains PyStr.backslash (cleaned path) = false.
Proof.
  unfold cleaned.
  do 2 (apply contains_replace_other; [reflexivity|]).
  apply contains_replace_old. reflexivity.
Qed.

Lemma cleaned_no_cr path : PyStr.contains PyStr.cr (cleaned path) = false.
Proof.
  unfold cleaned.
  apply contains_replace_other; [reflexivity|].
  apply contains_replace_old. reflexivity.
Qed.

Lemma cleaned_no_lf path : PyStr.contains PyStr.lf (cleaned path) = false.
Proof. unfold cleaned. apply contains_replace_old. reflexivity. Qed.

Lemma cleaned_fixed r :
  PyStr.contains PyStr.backslash r = false ->
  PyStr.contains PyStr.cr r = false ->
  PyStr.contains PyStr.lf r = false ->
  cleaned r = r.
Proof.
  intros Hb Hc Hl. unfold cleaned.
  rewrite (replace_absent PyStr.backslash) by assumption.
  rewrite (replace_absent PyStr.cr) by assumption.
  apply replace_absent. assumption.
Qed.

Lemma with_slash_facts c :
  let p := if negb (PyStr.startswith PyStr.slash c) then "/" +:+ c else c in
  PyStr.startswith PyStr.slash p = true /\
  (forall x, x <> PyStr.slash -> PyStr.contains x c = false ->
             PyStr.contains x p = false) /\
  (ends_double PyStr.slash p = true -> ends_double PyStr.slash c = true).
Proof.
  destruct (PyStr.startswith PyStr.slash c) eqn:Hs; simpl negb; cbv iota zeta.
  - auto.
  - change ("/" +:+ c) with (String PyStr.slash c).
    split; [reflexivity|]. split.
    + intros x Hx Hc. simpl. rewrite Hc, orb_false_r.
      apply Ascii.eqb_neq. congruence.
    + destruct c as [|e [|f c]].
      * discriminate.
      * unfold ends_double. simpl in *. rewrite Hs. discriminate.
      * intros Hd. rewrite ends_double_cons in Hd by (simpl; lia). exact Hd.
Qed.


(** The result holds none of the three removed characters and begins
    with a slash. *)
Lemma norm_remote_clean (path : string) :
  PyStr.contains PyStr.backslash (norm_remote path) = false /\
  PyStr.contains PyStr.cr (norm_remote path) = false /\
  PyStr.contains PyStr.lf (norm_remote path) = false /\
  PyStr.startswith PyStr.slash (norm_remote path) = true.
Proof.
  rewrite norm_remote_unfold.
  pose proof (with_slash_facts (cleaned path)) as Hp. cbv zeta in *.
  set (p := if negb (PyStr.startswith PyStr.slash (cleaned path))
            then "/" +:+ cleaned path else cleaned path) in *.
  destruct Hp as (Hstart & Hkeep & _).
  assert (Hb : PyStr.contains PyStr.backslash p = false)
    by (apply Hkeep; [discriminate | apply cleaned_no_backslash]).
  assert (Hc : PyStr.contains PyStr.cr p = false)
    by (apply Hkeep; [discriminate | apply cleaned_no_cr]).
  assert (Hl : PyStr.contains PyStr.lf p = false)
    by (apply Hkeep; [discriminate | apply cleaned_no_lf]).
  destruct ((1 <? String.length p)%nat && PyStr.endswith PyStr.slash p) eqn:Hstrip.
  - apply andb_true_iff in Hstrip as [Hlen _].
    repeat split; try (apply contains_drop_last; assumption).
    rewrite startswith_drop_last by (apply Nat.ltb_lt; exact Hlen).
    exact Hstart.
  - repeat split; assumption.
Qed.





Example norm_remote_examples :
  norm_remote "" = "/" /\ norm_remote "a\b/" = "/a/b" /\
  norm_remote "/" = "/" /\ norm_remote "//" = "/" /\
  norm_remote "/dayz/profiles" = "/dayz/profiles".
Proof. repeat split. Qed.


(** A result without a trailing slash, or the root, is a fixed point. *)
Lemma norm_remote_fixed path :
  PyStr.endswith PyStr.slash (norm_remote path) = false \/ norm_remote path = "/" ->
  norm_remote (norm_remote path) = norm_remote path.
Proof.
  destruct (norm_remote_clean path) as (Hb & Hc & Hl & Hs).
  intros Hend. rewrite (norm_remote_unfold (norm_remote path)).
  rewrite cleaned_fixed by assumption. cbv zeta. rewrite Hs. simpl negb. cbv iota.
  destruct Hend as [Hend | Hroot].
  - rewrite Hend, andb_false_r. reflexivity.
  - rewrite Hroot. reflexivity.
Qed.

(** C8 fails on the code: the second pass strips the slash the first pass
    left behind. *)
Theorem norm_remote_not_idempotent :
  norm_remote "a//" = "/a/" /\
  norm_remote (norm_remote "a//") = "/a" /\
  norm_remote (norm_remote "a//") <> norm_remote "a//".
Proof. repeat split. discriminate. Qed.

(** ** Effects: what a computation may add to the trace *)

Section Effects.
Context {OS : Type} `{LocalOS OS}.
Variable Q : event -> Prop.

#[local] Abbreviation M := (M OS).

Lemma emits_ret {A} (a : A) : emits Q (ret a : M A).
Proof. intros s. exists []. simpl. rewrite app_nil_r. auto. Qed.

Lemma emits_raise {A} e : emits Q (raise e : M A).
Proof. intros s. exists []. simpl. rewrite app_nil_r. auto. Qed.

Lemma emits_lift {A} (r : Res A) : emits Q (lift r : M A).
Proof. intros s. exists []. simpl. rewrite app_nil_r. auto. Qed.

Lemma emits_read_os {A} (f : OS -> A) : emits Q (read_os f).
Proof. intros s. exists []. simpl. rewrite app_nil_r. auto. Qed.

Lemma emits_call_os {A} (f : OS -> Res A) : emits Q (call_os f).
Proof. intros s. exists []. simpl. rewrite app_nil_r. auto. Qed.

Lemma emits_update_os (f : OS -> Res unit * OS) : emits Q (update_os f).
Proof.
  intros s. exists []. unfold update_os. destruct (f (st_os s)).
  simpl. rewrite app_nil_r. auto.
Qed.

Lemma emits_get_ftp : emits Q (get_ftp : M _).
Proof. intros s. exists []. simpl. rewrite app_nil_r. auto. Qed.

Lemma emits_set_ftp f : emits Q (set_ftp f : M _).
Proof. intros s. exists []. simpl. rewrite app_nil_r. auto. Qed.

Lemma emits_get_last_run_key : emits Q (get_last_run_key : M _).
Proof. intros s. exists []. simpl. rewrite app_nil_r. auto. Qed.

Lemma emits_emit e : Q e -> emits Q (emit e : M _).
Proof. intros He s. exists [e]. simpl. auto. Qed.

Lemma emits_bind {A B} (m : M A) (f : A -> M B) :
  emits Q m -> (forall a, emits Q (f a)) -> emits Q (bind m f).
Proof.
  intros Hm Hf s. unfold bind.
  destruct (Hm s) as (d1 & Ht1 & Hq1 & Hk1).
  destruct (m s) as [[a|e] s1]; simpl in *.
  - destruct (Hf a s1) as (d2 & Ht2 & Hq2 & Hk2).
    exists (d1 ++ d2). rewrite Ht2, Ht1, Hk2, Hk1, app_assoc.
    split; [reflexivity|]. split; [apply Forall_app; auto | reflexivity].
  - exists d1. auto.
Qed.

Lemma bind_ok {A B} (m : M A) (f : A -> M B) s a s1 :
  m s = (Ok a, s1) -> bind m f s = f a s1.
Proof. intros Hm. unfold bind. rewrite Hm. reflexivity. Qed.

Lemma bind_raise {A B} (m : M A) (f : A -> M B) s e s1 :
  m s = (Raise e, s1) -> bind m f s = (Raise e, s1).
Proof. intros Hm. unfold bind. rewrite Hm. reflexivity. Qed.

(** As [emits_bind], the continuation being looked at only for the values
    the first computation can return. *)
Lemma emits_bind_res {A B} (m : M A) (f : A -> M B) :
  emits Q m ->
  (forall a, (exists s s', m s = (Ok a, s')) -> emits Q (f a)) ->
  emits Q (bind m f).
Proof.
  intros Hm Hf s. unfold bind.
  destruct (Hm s) as (d1 & Ht1 & Hq1 & Hk1).
  destruct (m s) as [[a|e] s1] eqn:Hms; simpl in *.
  - destruct (Hf a (ex_intro _ s (ex_intro _ s1 Hms)) s1) as (d2 & Ht2 & Hq2 & Hk2).
    exists (d1 ++ d2). rewrite Ht2, Ht1, Hk2, Hk1, app_assoc.
    split; [reflexivity|]. split; [apply Forall_app; auto | reflexivity].
  - exists d1. auto.
Qed.

Lemma emits_try_except {A} (m : M A) (h : exn -> M A) :
  emits Q m -> (forall e, emits Q (h e)) -> emits Q (try_except m h).
Proof.
  intros Hm Hh s. unfold try_except.
  destruct (Hm s) as (d1 & Ht1 & Hq1 & Hk1).
  destruct (m s) as [[a|e] s1]; simpl in *.
  - exists d1. auto.
  - destruct (Hh e s1) as (d2 & Ht2 & Hq2 & Hk2).
    exists (d1 ++ d2). rewrite Ht2, Ht1, Hk2, Hk1, app_assoc.
    split; [reflexivity|]. split; [apply Forall_app; auto | reflexivity].
Qed.

Lemma emits_try_finally {A} (m : M A) (c : M unit) :
  emits Q m -> emits Q c -> emits Q (try_finally m c).
Proof.
  intros Hm Hc s. unfold try_finally.
  destruct (Hm s) as (d1 & Ht1 & Hq1 & Hk1).
  destruct (m s) as [r s1]; simpl in *.
  destruct (Hc s1) as (d2 & Ht2 & Hq2 & Hk2).
  exists (d1 ++ d2).
  destruct (c s1) as [[u|e] s2]; simpl in *;
    rewrite Ht2, Ht1, Hk2, Hk1, app_assoc;
    (split; [reflexivity|]; split; [apply Forall_app; auto | reflexivity]).
Qed.

Lemma emits_for_each {A} (l : list A) (body : A -> M unit) :
  (forall x, In x l -> emits Q (body x)) -> emits Q (for_each l body).
Proof.
  induction l as [|x l IH]; simpl; intros Hb.
  - apply emits_ret.
  - apply emits_bind; [apply Hb; auto | intros _; apply IH; auto].
Qed.

End Effects.

Section Respects.
Context {OS : Type}.
Variable R : St OS -> St OS -> Prop.
Hypothesis R_refl : forall s, R s s.
Hypothesis R_trans : forall s1 s2 s3, R s1 s2 -> R s2 s3 -> R s1 s3.

Lemma respects_pure {A} (m : M OS A) :
  (forall s, (m s).2 = s) -> respects R m.
Proof. intros Hm s. rewrite Hm. apply R_refl. Qed.

Lemma respects_ret {A} (a : A) : respects R (ret a).
Proof. intros s. apply R_refl. Qed.

Lemma respects_bind {A B} (m : M OS A) (f : A -> M OS B) :
  respects R m -> (forall a, respects R (f a)) -> respects R (bind m f).
Proof.
  intros Hm Hf s. unfold bind. specialize (Hm s).
  destruct (m s) as [[a|e] s1]; simpl in *; [|exact Hm].
  eapply R_trans; [exact Hm | apply Hf].
Qed.

Lemma respects_try_except {A} (m : M OS A) (h : exn -> M OS A) :
  respects R m -> (forall e, respects R (h e)) -> respects R (try_except m h).
Proof.
  intros Hm Hh s. unfold try_except. specialize (Hm s).
  destruct (m s) as [[a|e] s1]; simpl in *; [exact Hm|].
  eapply R_trans; [exact Hm | apply Hh].
Qed.

Lemma respects_for_each {A} (l : list A) (body : A -> M OS unit) :
  (forall x, In x l -> respects R (body x)) -> respects R (for_each l body).
Proof.
  induction l as [|x l IH]; simpl; intros Hb.
  - apply respects_ret.
  - apply respects_bind; [apply Hb; auto | intros _; apply IH; auto].
Qed.

Lemma respects_for_each_indexed {A} (l : list A) (body : nat -> A -> M OS unit) :
  forall i, (forall j x, respects R (body j x)) ->
            respects R (for_each_indexed i l body).
Proof.
  induction l as [|x l IH]; simpl; intros i Hb.
  - apply respects_ret.
  - apply respects_bind; [apply Hb | intros _; apply IH; exact Hb].
Qed.

End Respects.

Create HintDb emits.

#[local] Hint Resolve emits_ret emits_raise emits_lift emits_read_os
  emits_call_os emits_update_os emits_get_ftp emits_set_ftp
  emits_get_last_run_key : emits.

(** One step of a proof that a computation keeps within [Q]: peel the
    outermost construct of the monad or branch on the scrutinee. *)
Ltac emits_step :=
  lazymatch goal with
  | |- emits _ (bind _ _) => apply emits_bind; [|intros ?]
  | |- emits _ (try_except _ _) => apply emits_try_except; [|intros ?]
  | |- emits _ (try_finally _ _) => apply emits_try_finally
  | |- emits _ (for_each _ _) => apply emits_for_each; intros ? ?
  | |- emits _ (if ?b then _ else _) => destruct b eqn:?
  | |- emits _ (match ?x with _ => _ end) => destruct x eqn:?
  | |- emits _ (log_info _) => apply emits_emit
  | |- emits _ (log_warn _) => apply emits_emit
  | |- emits _ (log_error _) => apply emits_emit
  | |- emits _ (emit _) => apply emits_emit
  | |- emits _ _ => solve [auto with emits]
  end.

Section ProgramEffects.
Context {OS : Type} `{LocalOS OS}.
Variable net : Profile -> Server.
Variable recursion_limit : nat.
Variable Q : event -> Prop.

(** [Q] admits every event that is not a download, a removal or a firing. *)
Hypothesis Q_other :
  forall e, is_download e = false -> is_rmtree e = false ->
            is_fire e = false -> Q e.

Lemma emits_the_ftp : emits Q (the_ftp (OS:=OS)).
Proof. unfold the_ftp. repeat emits_step. Qed.

Lemma emits_connect p : emits Q (connect (OS:=OS) net p).
Proof. unfold connect. repeat emits_step. apply Q_other; reflexivity. Qed.

Lemma emits_close : emits Q (close (OS:=OS)).
Proof. unfold close. repeat emits_step. apply Q_other; reflexivity. Qed.

Lemma emits_is_dir path : emits Q (is_dir (OS:=OS) path).
Proof. unfold is_dir. emits_step; [apply emits_the_ftp|]. repeat emits_step. Qed.

Lemma emits_list_dir path : emits Q (list_dir (OS:=OS) path).
Proof.
  unfold list_dir.
  repeat first [apply emits_the_ftp | emits_step].
Qed.

Lemma emits_mkdir_parents p : emits Q (mkdir_parents (OS:=OS) p).
Proof. unfold mkdir_parents. repeat emits_step. apply Q_other; reflexivity. Qed.

Lemma emits_safe_join_local root rel : emits Q (safe_join_local (OS:=OS) root rel).
Proof. unfold safe_join_local. repeat emits_step. Qed.

Lemma emits_download_file remote_full local_path :
  Q (DownloadFile remote_full local_path) ->
  emits Q (download_file (OS:=OS) remote_full local_path).
Proof.
  intros Hq. unfold download_file.
  repeat first [apply emits_the_ftp | apply emits_mkdir_parents | emits_step].
  exact Hq.
Qed.

Lemma emits_cleanup_snapshots job_dir keep_last :
  (forall d, Q (Rmtree d)) ->
  emits Q (_cleanup_snapshots (OS:=OS) job_dir keep_last).
Proof.
  intros Hq. unfold _cleanup_snapshots, rmtree.
  repeat emits_step; first [apply Hq | apply Q_other; reflexivity].
Qed.

Lemma emits_download_dir depth remote_dir local_root job rel_prefix :
  (job_dry_run job = false -> forall r l, Q (DownloadFile r l)) ->
  emits Q (_download_dir (OS:=OS) depth remote_dir local_root job rel_prefix).
Proof.
  intros Hq. revert remote_dir rel_prefix.
  induction depth as [|depth IH]; intros remote_dir rel_prefix; simpl.
  - apply emits_raise.
  - repeat first
      [ apply emits_list_dir | apply emits_is_dir | apply emits_safe_join_local
      | apply IH
      | apply emits_download_file; apply Hq;
        match goal with E : negb _ = true |- _ => apply negb_true_iff in E; exact E end
      | emits_step ];
    apply Q_other; reflexivity.
Qed.

Lemma emits_transfer_step remote_full dest_root job :
  (job_dry_run job = false -> forall r l, Q (DownloadFile r l)) ->
  emits Q (transfer_step (OS:=OS) recursion_limit remote_full dest_root job).
Proof.
  intros Hdl. unfold transfer_step.
  repeat first
    [ apply emits_is_dir | apply emits_safe_join_local
    | apply emits_download_dir; exact Hdl
    | apply emits_download_file; apply Hdl;
      match goal with E : negb _ = true |- _ => apply negb_true_iff in E; exact E end
    | emits_step ];
  apply Q_other; reflexivity.
Qed.

Lemma emits_cleanup_step local_base p job :
  (is_snapshot job = true -> forall d, Q (Rmtree d)) ->
  emits Q (cleanup_step (OS:=OS) local_base p job).
Proof.
  intros Hrm. unfold cleanup_step.
  destruct (is_snapshot job); simpl; [|apply emits_ret].
  repeat emits_step. apply emits_cleanup_snapshots. auto.
Qed.

Lemma emits_discord_post app text :
  emits Q (_discord_post (OS:=OS) app text).
Proof. unfold _discord_post. repeat emits_step; apply Q_other; reflexivity. Qed.

Lemma emits_run_job app job :
  (job_dry_run job = false -> forall r l, Q (DownloadFile r l)) ->
  (is_snapshot job = true -> forall d, Q (Rmtree d)) ->
  emits Q (run_job (OS:=OS) net recursion_limit app job).
Proof.
  intros Hdl Hrm. unfold run_job, local_base_of.
  destruct (get_profile app (job_profile job)) as [p|].
  2: { apply emits_emit, Q_other; reflexivity. }
  repeat first
    [ apply emits_connect | apply emits_close | apply emits_mkdir_parents
    | apply emits_discord_post
    | apply emits_transfer_step; exact Hdl
    | apply emits_cleanup_step; exact Hrm
    | emits_step ];
  apply Q_other; reflexivity.
Qed.

End ProgramEffects.

(** ** Reading the new events off a run *)

Lemma new_events_app {OS} (s s' : St OS) d :
  st_trace s' = st_trace s ++ d -> new_events s s' = d.
Proof. intros Ht. unfold new_events. rewrite Ht. apply drop_app_length. Qed.

Lemma emits_new_events {OS A} (Q : event -> Prop) (m : M OS A) s :
  emits Q m -> Forall Q (new_events s (m s).2).
Proof.
  intros Hm. destruct (Hm s) as (d & Ht & Hq & _).
  rewrite (new_events_app _ _ _ Ht). exact Hq.
Qed.

(** ** Dry run *)

Section DryRunFrame.
Context {OS : Type} `{LocalOS OS}.









End DryRunFrame.



(** A tree of five files under dry run: five log lines, no file on the
    host, and only the base folder created. *)
Example dry_run_five_files :
  let s' := (run_job (fun _ => Sim.server Sim.tree5 true) 100
               (Sim.app_of []) (Sim.with_dry_run true Sim.job0)
               (Sim.init Sim.host0)).2 in
  List.length (List.filter is_downloaded_log (st_trace s')) = 5%nat /\
  Sim.files (st_os s') = [] /\
  Sim.dirs (st_os s') = [["srv"]; ["srv"; "backups"]].
Proof. vm_compute. auto. Qed.

(** ** The tree walk without sub-folders *)

(** C1 fails on the code: with [include_subdirs] off the walk never asks
    whether an entry is a folder, so the folder [/data/sub] is handed to
    [download_file] like a file; the server refuses the transfer, the run
    fails and the entry after it is never reached. *)
Theorem walk_downloads_folder_entry :
  let job := Sim.with_subdirs false (Sim.with_mode "mirror" Sim.job0) in
  let s' := (run_job (fun _ => Sim.server Sim.tree_mixed true) 100
               (Sim.app_of []) job (Sim.init Sim.host0)).2 in
  List.filter is_download (st_trace s')
  = [DownloadFile "/data/a.txt"
       (parse_path "/srv/backups/main/nightly/MIRROR/a.txt");
     DownloadFile "/data/sub"
       (parse_path "/srv/backups/main/nightly/MIRROR/sub")] /\
  In (Log ERROR "JOB FAILED: nightly -> 550 Not a regular file.") (st_trace s') /\
  Sim.files (st_os s')
  = [["srv"; "backups"; "main"; "nightly"; "MIRROR"; "a.txt"];
     ["srv"; "backups"; "main"; "nightly"; "MIRROR"; "sub"]].
Proof. vm_compute. intuition. Qed.

(** With [include_subdirs] on, the same tree is walked to the end. *)
Example walk_with_subdirs :
  let job := Sim.with_mode "mirror" Sim.job0 in
  let s' := (run_job (fun _ => Sim.server Sim.tree_mixed true) 100
               (Sim.app_of []) job (Sim.init Sim.host0)).2 in
  List.map (fun e => match e with DownloadFile r _ => r | _ => "" end)
           (List.filter is_download (st_trace s'))
  = ["/data/a.txt"; "/data/sub/c.txt"; "/data/b.txt"] /\
  In (Log INFO "JOB DONE: nightly") (st_trace s').
Proof. vm_compute. intuition. Qed.

(** ** [list_dir] *)

Section Listing.
Context {OS : Type} `{LocalOS OS}.

Lemma list_dir_primary (s : St OS) srv path entries :
  st_ftp s = Some srv -> srv_mlsd srv path = Ok entries ->
  list_dir path s = (Ok (List.filter not_dot (List.map fst entries)), s).
Proof.
  intros Hf Hm. cbv [list_dir try_except bind the_ftp get_ftp lift ret raise].
  rewrite Hf, Hm. reflexivity.
Qed.

Lemma list_dir_fallback (s : St OS) srv path e raw :
  st_ftp s = Some srv -> srv_mlsd srv path = Raise e ->
  srv_nlst srv path = Ok raw ->
  list_dir path s = (Ok (dedup (List.map basename raw)), s).
Proof.
  intros Hf Hm Hn. cbv [list_dir try_except bind the_ftp get_ftp lift ret raise].
  rewrite Hf, Hm, Hf, Hn. reflexivity.
Qed.

Lemma list_dir_both_fail (s : St OS) srv path e e' :
  st_ftp s = Some srv -> srv_mlsd srv path = Raise e ->
  srv_nlst srv path = Raise e' ->
  list_dir path s = (Ok [], s).
Proof.
  intros Hf Hm Hn. cbv [list_dir try_except bind the_ftp get_ftp lift ret raise].
  rewrite Hf, Hm, Hf, Hn. reflexivity.
Qed.

(** X2: [list_dir] never raises and changes nothing, connected or not,
    whichever of the two listings fails. *)
Lemma list_dir_never_raises (s : St OS) path :
  exists items, list_dir path s = (Ok items, s).
Proof.
  destruct (st_ftp s) as [srv|] eqn:Hf.
  - destruct (srv_mlsd srv path) eqn:Hm.
    { erewrite list_dir_primary by eauto. eauto. }
    destruct (srv_nlst srv path) eqn:Hn.
    + erewrite list_dir_fallback by eauto. eauto.
    + erewrite list_dir_both_fail by eauto. eauto.
  - cbv [list_dir try_except bind the_ftp get_ftp lift ret raise].
    rewrite Hf. cbv beta iota. rewrite Hf. eexists; reflexivity.
Qed.

End Listing.

Lemma filter_filter_comm {A} (f g : A -> bool) l :
  List.filter f (List.filter g l) = List.filter g (List.filter f l).
Proof.
  induction l as [|x l IH]; simpl; [reflexivity|].
  destruct (f x) eqn:Ef, (g x) eqn:Eg; simpl; rewrite ?Ef, ?Eg, IH; reflexivity.
Qed.

Lemma filter_weaken {A} (f g : A -> bool) l :
  (forall x, f x = true -> g x = true) ->
  List.filter f (List.filter g l) = List.filter f l.
Proof.
  intros Hfg. induction l as [|x l IH]; simpl; [reflexivity|].
  destruct (g x) eqn:Eg; simpl.
  - rewrite IH. reflexivity.
  - destruct (f x) eqn:Ef; [rewrite Hfg in Eg by assumption; discriminate|].
    exact IH.
Qed.

Lemma first_seen_filter (f : string -> bool) l :
  first_seen (List.filter f l) = List.filter f (first_seen l).
Proof.
  induction l as [|x l IH]; simpl; [reflexivity|].
  destruct (f x) eqn:Ef; simpl.
  - rewrite ?Ef, IH. f_equal. apply filter_filter_comm.
  - rewrite ?Ef, IH. symmetry. apply filter_weaken.
    intros y Hy. apply negb_true_iff, String.eqb_neq. congruence.
Qed.

Lemma filter_andb {A} (f g : A -> bool) l :
  List.filter f (List.filter g l) = List.filter (fun x => f x && g x) l.
Proof.
  induction l as [|x l IH]; simpl; [reflexivity|].
  destruct (g x) eqn:Eg; simpl; rewrite ?andb_false_r, ?andb_true_r.
  - destruct (f x); rewrite IH; reflexivity.
  - exact IH.
Qed.

Lemma dedup_fold l : forall seen out,
  (List.fold_left dedup_step l (seen, out)).2
  = out ++ first_seen (List.filter (fun x => negb (bool_decide (x ∈ seen))) l).
Proof.
  induction l as [|x l IH]; intros seen out; simpl.
  - rewrite app_nil_r. reflexivity.
  - unfold dedup_step at 2. simpl. destruct (bool_decide (x ∈ seen)) eqn:Hx; simpl.
    + apply IH.
    + rewrite IH, <- app_assoc. simpl. do 2 f_equal.
      rewrite <- first_seen_filter, filter_andb. f_equal.
      apply List.filter_ext. intros y.
      assert (Hiff : y ∈ {[x]} ∪ seen <-> y = x \/ y ∈ seen) by set_solver.
      rewrite (bool_decide_ext _ _ Hiff), bool_decide_or, negb_orb. f_equal.
      destruct (String.eqb_spec y x) as [Heq|Hne].
      * rewrite bool_decide_eq_true_2 by exact Heq. reflexivity.
      * rewrite bool_decide_eq_false_2 by exact Hne. reflexivity.
Qed.

(** The loop with [seen] and [out] keeps each name once, where it is first
    seen. *)
Lemma dedup_first_seen l : dedup l = first_seen l.
Proof.
  unfold dedup. rewrite dedup_fold. simpl. f_equal.
  induction l as [|x l IH]; simpl; [reflexivity|].
  rewrite bool_decide_eq_false_2 by set_solver. simpl. f_equal. exact IH.
Qed.

(** C3 fails on the code: the fallback listing keeps ["."] and [".."],
    which only the primary listing filters out. *)
Theorem list_dir_fallback_keeps_dots :
  list_dir "/data" (Sim.connected Sim.host0 Sim.server_dots)
  = (Ok ["."; ".."; "a.txt"; "b.txt"], Sim.connected Sim.host0 Sim.server_dots).
Proof. reflexivity. Qed.

(** ** [safe_join_local] *)

Lemma in_path_parents (rr out : Path) :
  rr ∈ path_parents out <->
  anchored rr = anchored out /\
  exists suffix, suffix <> [] /\ parts out = parts rr ++ suffix.
Proof.
  unfold path_parents. rewrite list_elem_of_In, in_map_iff. split.
  - intros (k & <- & Hk). rewrite <- in_rev in Hk. apply in_seq in Hk. simpl.
    split; [reflexivity|]. exists (drop k (parts out)). split.
    + intros Hnil. apply (f_equal List.length) in Hnil.
      rewrite length_drop in Hnil. simpl in Hnil. lia.
    + symmetry. apply take_drop.
  - intros (Ha & suffix & Hne & Hp). exists (List.length (parts rr)). split.
    + rewrite Hp, take_app_length. destruct rr; simpl in *. congruence.
    + rewrite <- in_rev. apply in_seq. rewrite Hp, length_app.
      destruct suffix; [congruence|]. simpl. lia.
Qed.

Lemma within_iff_guard (rr out : Path) :
  within rr out <-> out = rr \/ rr ∈ path_parents out.
Proof.
  rewrite in_path_parents. unfold within. split.
  - intros (Ha & suffix & Hp). destruct suffix as [|x suffix].
    + left. rewrite app_nil_r in Hp. destruct rr, out; simpl in *. congruence.
    + right. split; [congruence|]. exists (x :: suffix). split; [discriminate|exact Hp].
  - intros [-> | (Ha & suffix & _ & Hp)].
    + split; [reflexivity|]. exists []. rewrite app_nil_r. reflexivity.
    + split; [congruence|]. exists suffix. exact Hp.
Qed.

(** C2: when the resolved join is neither the resolved root nor below it,
    [safe_join_local] raises the "Unsafe path" error and leaves the host
    and the trace as they were; when it is the root or below it, the
    resolved path is returned. *)
Theorem safe_join_local_guard {OS} `{LocalOS OS}
    (root : Path) (rel : string) (s : St OS) (out rr : Path) :
  let rel' := PyStr.lstrip os_sep (PyStr.replace PyStr.slash (String os_sep "") rel) in
  os_resolve (st_os s) (joinpath root rel') = Ok out ->
  os_resolve (st_os s) root = Ok rr ->
  (~ within rr out ->
   safe_join_local root rel s = (Raise (ValueError ("Unsafe path: " +:+ rel')), s)) /\
  (within rr out -> safe_join_local root rel s = (Ok out, s)).
Proof.
  intros rel' Hout Hrr.
  assert (Hrun : safe_join_local root rel s
                 = if bool_decide (out <> rr) && bool_decide (rr ∉ path_parents out)
                   then (Raise (ValueError ("Unsafe path: " +:+ rel')), s)
                   else (Ok out, s)).
  { cbv [safe_join_local bind call_os]. fold rel'. rewrite Hout, Hrr.
    destruct (bool_decide (out <> rr) && bool_decide (rr ∉ path_parents out));
      reflexivity. }
  rewrite Hrun, within_iff_guard. split.
  - intros Hesc.
    rewrite (bool_decide_eq_true_2 (out <> rr)) by tauto.
    rewrite (bool_decide_eq_true_2 (rr ∉ path_parents out)) by tauto.
    reflexivity.
  - intros [Heq | Hin].
    + rewrite (bool_decide_eq_false_2 (out <> rr)) by tauto. reflexivity.
    + rewrite (bool_decide_eq_false_2 (rr ∉ path_parents out)) by tauto.
      rewrite andb_false_r. reflexivity.
Qed.

Lemma safe_join_local_guard_witness :
  safe_join_local (parse_path "/srv/backups/main/nightly/MIRROR")
                  "../../etc/passwd" (Sim.init Sim.host0)
  = (Raise (ValueError "Unsafe path: ../../etc/passwd"), Sim.init Sim.host0).
Proof.
  refine (proj1 (safe_join_local_guard
                   (parse_path "/srv/backups/main/nightly/MIRROR")
                   "../../etc/passwd" (Sim.init Sim.host0)
                   (parse_path "/srv/backups/main/etc/passwd")
                   (parse_path "/srv/backups/main/nightly/MIRROR")
                   eq_refl eq_refl) _).
  intros (_ & suffix & Hs). vm_compute in Hs. discriminate.
Defined.

Example safe_join_local_examples :
  (safe_join_local (parse_path "/srv/backups") "a/b/c.txt" (Sim.init Sim.host0)).1
  = Ok (parse_path "/srv/backups/a/b/c.txt") /\
  (safe_join_local (parse_path "/srv/backups") "/a/../b" (Sim.init Sim.host0)).1
  = Ok (parse_path "/srv/backups/b") /\
  (safe_join_local (parse_path "/srv/backups") ".." (Sim.init Sim.host0)).1
  = Raise (ValueError "Unsafe path: ..") /\
  (safe_join_local (parse_path "/") "../../etc/passwd" (Sim.init Sim.host0)).1
  = Ok (parse_path "/etc/passwd") /\
  (safe_join_local (parse_path "/etc") "../../etc/passwd" (Sim.init Sim.host0)).1
  = Ok (parse_path "/etc/passwd").
Proof. vm_compute. repeat split. Qed.

(** A listed name that climbs out of the destination stops the run before
    anything is written. *)
Example escape_writes_nothing :
  let s' := (run_job (fun _ => Sim.server Sim.tree_escape true) 100
               (Sim.app_of []) (Sim.with_mode "mirror" Sim.job0)
               (Sim.init Sim.host0)).2 in
  List.filter is_download (st_trace s') = [] /\
  Sim.files (st_os s') = [] /\
  In (Log ERROR "JOB FAILED: nightly -> Unsafe path: ../../../../../etc/passwd")
     (st_trace s').
Proof. vm_compute. intuition. Qed.

(** ** Retention *)

Section Ordering.

Lemma leb_iff a b :
  String.leb a b = true <-> a = b \/ String_as_OT.lt a b.
Proof.
  unfold String.leb. destruct (String.compare a b) eqn:E.
  - apply String.compare_eq_iff in E. tauto.
  - apply String_as_OT.cmp_lt in E. tauto.
  - split; [discriminate|]. intros [-> | Hlt].
    + assert (String.compare b b = Eq) by (apply String_as_OT.cmp_eq; reflexivity).
      congruence.
    + apply String_as_OT.cmp_lt in Hlt. unfold String_as_OT.cmp in Hlt. congruence.
Qed.

Lemma leb_trans a b c :
  String.leb a b = true -> String.leb b c = true -> String.leb a c = true.
Proof.
  rewrite !leb_iff. intros [-> | Hab] [-> | Hbc]; auto.
  right. eapply String_as_OT.lt_trans; eassumption.
Qed.

Lemma leb_ne_ltb a b :
  String.leb a b = true -> a <> b -> String.ltb a b = true.
Proof.
  unfold String.leb, String.ltb. destruct (String.compare a b) eqn:E; auto.
  apply String.compare_eq_iff in E. congruence.
Qed.

Lemma name_ge_trans a b c : name_ge a b -> name_ge b c -> name_ge a c.
Proof. unfold name_ge. intros Hab Hbc. eapply leb_trans; eassumption. Qed.

Lemma name_ge_total a b : name_ge a b \/ name_ge b a.
Proof. unfold name_ge. destruct (String.leb_total (path_name a) (path_name b)); auto. Qed.

Lemma insert_desc_perm x l : Permutation (insert_desc x l) (x :: l).
Proof.
  induction l as [|y l IH]; simpl; [reflexivity|].
  destruct (String.leb (path_name y) (path_name x)); [reflexivity|].
  rewrite IH. apply perm_swap.
Qed.

Lemma sort_desc_perm l : Permutation (sort_desc l) l.
Proof.
  induction l as [|x l IH]; simpl; [reflexivity|].
  rewrite insert_desc_perm, IH. reflexivity.
Qed.

Lemma insert_desc_sorted x l :
  StronglySorted name_ge l -> StronglySorted name_ge (insert_desc x l).
Proof.
  induction 1 as [|y l Hl IH Hy]; simpl.
  - repeat constructor.
  - destruct (String.leb (path_name y) (path_name x)) eqn:E.
    + constructor; [constructor; assumption|].
      constructor; [exact E|].
      eapply List.Forall_impl; [|exact Hy]. intros z Hz. simpl in Hz.
      eapply name_ge_trans; [exact E | exact Hz].
    + constructor; [exact IH|].
      eapply Permutation_Forall; [symmetry; apply insert_desc_perm|].
      constructor; [|exact Hy].
      destruct (name_ge_total y x) as [Hyx|Hxy]; [exact Hyx|].
      unfold name_ge in Hxy. congruence.
Qed.

Lemma sort_desc_sorted l : StronglySorted name_ge (sort_desc l).
Proof.
  induction l as [|x l IH]; simpl; [constructor|].
  apply insert_desc_sorted, IH.
Qed.

Lemma sorted_desc_unique l1 : forall l2,
  StronglySorted name_ge l1 -> StronglySorted name_ge l2 ->
  Permutation l1 l2 -> NoDup (List.map path_name l1) -> l1 = l2.
Proof.
  induction l1 as [|x l1 IH]; intros [|y l2] H1 H2 Hp Hnd.
  - reflexivity.
  - apply Permutation_nil in Hp. discriminate.
  - symmetry in Hp. apply Permutation_nil in Hp. discriminate.
  - apply StronglySorted_inv in H1 as [H1 Hx].
    apply StronglySorted_inv in H2 as [H2 Hy].
    simpl in Hnd. apply NoDup_cons in Hnd as [Hnx Hnd].
    assert (Hxy : x = y).
    { assert (Hin1 : In x (y :: l2)) by (eapply Permutation_in; [exact Hp | left; reflexivity]).
      assert (Hin2 : In y (x :: l1))
        by (eapply Permutation_in; [symmetry; exact Hp | left; reflexivity]).
      destruct Hin1 as [Heq | Hin1]; [congruence|].
      destruct Hin2 as [Heq | Hin2]; [congruence|].
      rewrite List.Forall_forall in Hx, Hy.
      specialize (Hx _ Hin2). specialize (Hy _ Hin1). unfold name_ge in Hx, Hy.
      exfalso. apply Hnx. apply list_elem_of_In.
      rewrite (String.leb_antisym _ _ Hy Hx).
      apply in_map. exact Hin2. }
    subst y. f_equal. apply IH; try assumption.
    eapply Permutation_cons_inv. exact Hp.
Qed.

Lemma sorted_app_ge l1 l2 :
  StronglySorted name_ge (l1 ++ l2) ->
  forall k v, In k l1 -> In v l2 -> name_ge k v.
Proof.
  induction l1 as [|x l1 IH]; simpl; intros Hs k v Hk Hv; [contradiction|].
  apply StronglySorted_inv in Hs as [Hs Hx].
  destruct Hk as [-> | Hk].
  - rewrite List.Forall_forall in Hx. apply Hx, in_or_app. right. exact Hv.
  - eapply IH; eassumption.
Qed.

Lemma filter_perm {A} (f : A -> bool) l l' :
  Permutation l l' -> Permutation (List.filter f l) (List.filter f l').
Proof.
  induction 1 as [|x l l' _ IH|x y l|l l' l'' _ IH1 _ IH2]; simpl.
  - reflexivity.
  - destruct (f x); [constructor|]; exact IH.
  - destruct (f x), (f y); try reflexivity. apply perm_swap.
  - etransitivity; eassumption.
Qed.

Lemma path_name_child job_dir n : path_name (child job_dir n) = n.
Proof. unfold path_name, child. simpl. apply last_last. Qed.

End Ordering.

Section Retention.
Context {OS : Type} `{LocalOS OS}.

Lemma cleanup_loop (l : list Path) : forall s : St OS,
  let r := for_each l
             (fun d =>
                try_except
                  (rmtree d >>
                   log_info ("Cleanup: removed old snapshot " +:+ str_of_path d))
                  (fun _ => log_warn ("Cleanup: could not remove " +:+ str_of_path d)))
             s in
  r.1 = Ok tt /\
  exists d, st_trace r.2 = st_trace s ++ d /\
            List.filter is_rmtree d = List.map Rmtree l.
Proof.
  induction l as [|a l IH]; intros s.
  - simpl. split; [reflexivity|]. exists []. rewrite app_nil_r. auto.
  - set (body := fun d : Path => try_except _ _) in *. cbv zeta in *.
    change (for_each (a :: l) body) with (body a >> for_each l body).
    assert (Hb : exists lvl msg o,
               body a s = (Ok tt, {| st_os := o;
                                     st_trace := st_trace s ++ [Rmtree a; Log lvl msg];
                                     st_ftp := st_ftp s;
                                     st_last_run_key := st_last_run_key s |})).
    { cbv [body try_except bind rmtree emit update_os log_info log_warn]. simpl.
      destruct (os_rmtree (st_os s) a) as [[[]|e] o]; simpl;
        rewrite <- app_assoc; simpl; eauto. }
    destruct Hb as (lvl & msg & o & Hb).
    match type of Hb with _ = (_, ?s1) =>
      assert (Hstep : (body a >> for_each l body) s = for_each l body s1)
        by (unfold bind; rewrite Hb; reflexivity);
      destruct (IH s1) as (Hok & d & Ht & Hf)
    end.
    rewrite Hstep. split; [exact Hok|].
    exists ([Rmtree a; Log lvl msg] ++ d). rewrite Ht. simpl.
    rewrite <- app_assoc. simpl. split; [reflexivity|]. f_equal. exact Hf.
Qed.

(** The loop touches the host through [rmtree] alone, once for each
    folder and in order, and leaves the rest of the state as it was. *)
Lemma cleanup_loop_host (l : list Path) : forall s : St OS,
  let r := for_each l
             (fun d =>
                try_except
                  (rmtree d >>
                   log_info ("Cleanup: removed old snapshot " +:+ str_of_path d))
                  (fun _ => log_warn ("Cleanup: could not remove " +:+ str_of_path d)))
             s in
  st_os r.2 = List.fold_left (fun o d => (os_rmtree o d).2) l (st_os s) /\
  st_ftp r.2 = st_ftp s /\ st_last_run_key r.2 = st_last_run_key s.
Proof.
  induction l as [|a l IH]; intros s.
  - simpl. auto.
  - set (body := fun d : Path => try_except _ _) in *. cbv zeta in *.
    change (for_each (a :: l) body) with (body a >> for_each l body).
    assert (Hb : exists d,
               body a s = (Ok tt, {| st_os := (os_rmtree (st_os s) a).2;
                                     st_trace := d;
                                     st_ftp := st_ftp s;
                                     st_last_run_key := st_last_run_key s |})).
    { cbv [body try_except bind rmtree emit update_os log_info log_warn]. simpl.
      destruct (os_rmtree (st_os s) a) as [[[]|e] o]; simpl; eauto. }
    destruct Hb as (d & Hb).
    match type of Hb with _ = (_, ?s1) =>
      assert (Hstep : (body a >> for_each l body) s = for_each l body s1)
        by (unfold bind; rewrite Hb; reflexivity);
      destruct (IH s1) as (Hos & Hftp & Hkey)
    end.
    rewrite Hstep. simpl in *. auto.
Qed.

Lemma fold_rmtree_kept (kept victims : list Path) :
  (forall o v k, In v victims -> In k kept ->
                 os_is_dir (os_rmtree o v).2 k = os_is_dir o k) ->
  forall (o : OS) k, In k kept ->
    os_is_dir (List.fold_left (fun o d => (os_rmtree o d).2) victims o) k
    = os_is_dir o k.
Proof.
  induction victims as [|v victims IH]; intros Hframe o k Hk; [reflexivity|].
  simpl. rewrite IH.
  - apply Hframe; [left; reflexivity | exact Hk].
  - intros o' v' k' Hv' Hk'. apply Hframe; [right; exact Hv' | exact Hk'].
  - exact Hk.
Qed.

Lemma snapshot_dirs_names (o : OS) job_dir names :
  NoDup names -> NoDup (List.map path_name (snapshot_dirs o job_dir names)).
Proof.
  intros Hnd. unfold snapshot_dirs.
  assert (Heq : List.map path_name
                  (List.filter (os_is_dir o) (List.map (child job_dir) names))
                = List.filter (fun n => os_is_dir o (child job_dir n)) names).
  { clear Hnd. induction names as [|n names IH]; simpl; [reflexivity|].
    destruct (os_is_dir o (child job_dir n)); simpl;
      rewrite ?path_name_child, IH; reflexivity. }
  rewrite Heq. apply NoDup_ListNoDup, List.NoDup_filter, NoDup_ListNoDup.
  exact Hnd.
Qed.

(** C5: [_cleanup_snapshots] does nothing when the job folder is absent.
    Otherwise, with [M] sub-folders of distinct names and [0 <= N < M], it
    keeps the [N] folders of greatest name and calls [rmtree] once on each
    of the others, every kept name being greater than every removed one;
    the choice does not depend on the order in which the folder is listed;
    and the loop ends normally with every removal attempted, whether or
    not some of them fail.  The host it leaves is the host it found with
    [rmtree] applied to each of those folders in turn and nothing else
    done to it; so a kept folder is still a folder afterwards, as long as
    removing one folder leaves the others alone. *)
Theorem cleanup_snapshots_keeps_newest (job_dir : Path) (N : Z) (s : St OS) :
  (os_exists (st_os s) job_dir = false ->
   _cleanup_snapshots job_dir N s = (Ok tt, s)) /\
  (forall names,
      os_exists (st_os s) job_dir = true ->
      os_iterdir (st_os s) job_dir = Ok names ->
      NoDup names ->
      (0 <= N < Z.of_nat (List.length (snapshot_dirs (st_os s) job_dir names)))%Z ->
      let dirs := snapshot_dirs (st_os s) job_dir names in
      let kept := take (Z.to_nat N) (sort_desc dirs) in
      let victims := drop (Z.to_nat N) (sort_desc dirs) in
      let r := _cleanup_snapshots job_dir N s in
      Permutation (kept ++ victims) dirs /\
      List.length kept = Z.to_nat N /\
      (forall k v, In k kept -> In v victims ->
                   String.ltb (path_name v) (path_name k) = true) /\
      r.1 = Ok tt /\
      List.filter is_rmtree (new_events s r.2) = List.map Rmtree victims /\
      (forall names', Permutation names names' ->
         drop (Z.to_nat N) (sort_desc (snapshot_dirs (st_os s) job_dir names'))
         = victims) /\
      st_os r.2
      = List.fold_left (fun o d => (os_rmtree o d).2) victims (st_os s) /\
      st_ftp r.2 = st_ftp s /\ st_last_run_key r.2 = st_last_run_key s /\
      ((forall o v k, In v victims -> In k kept ->
                      os_is_dir (os_rmtree o v).2 k = os_is_dir o k) ->
       forall k, In k kept -> os_is_dir (st_os r.2) k = true)).
Proof.
  split.
  - intros Hex. cbv [_cleanup_snapshots bind read_os]. rewrite Hex. reflexivity.
  - intros names Hex Hiter Hnd HN dirs kept victims r.
    assert (Hperm : Permutation (sort_desc dirs) dirs) by apply sort_desc_perm.
    assert (Hsplit : kept ++ victims = sort_desc dirs) by apply take_drop.
    assert (Hnames : NoDup (List.map path_name (kept ++ victims))).
    { rewrite Hsplit, Hperm. apply snapshot_dirs_names. exact Hnd. }
    split; [rewrite Hsplit; exact Hperm|].
    split.
    { unfold kept. rewrite length_take.
      rewrite (Permutation_length Hperm). fold dirs in HN. lia. }
    split.
    { intros k v Hk Hv. apply leb_ne_ltb.
      - eapply (sorted_app_ge kept victims); try eassumption.
        rewrite Hsplit. apply sort_desc_sorted.
      - intros Heq. rewrite map_app in Hnames.
        apply NoDup_app in Hnames as (_ & Hdisj & _).
        apply (Hdisj (path_name k)).
        + apply list_elem_of_In, in_map, Hk.
        + rewrite <- Heq. apply list_elem_of_In, in_map, Hv. }
    assert (Hrun : r = for_each victims
               (fun d =>
                  try_except
                    (rmtree d >>
                     log_info ("Cleanup: removed old snapshot " +:+ str_of_path d))
                    (fun _ => log_warn ("Cleanup: could not remove " +:+ str_of_path d)))
               s).
    { unfold r. cbv [_cleanup_snapshots bind read_os call_os].
      rewrite Hex. change (negb true) with false. cbv iota beta.
      rewrite Hiter. cbv iota beta.
      unfold slice_from. destruct (0 <=? N)%Z eqn:E; [reflexivity|].
      apply Z.leb_gt in E. lia. }
    destruct (cleanup_loop victims s) as (Hok & d & Ht & Hf).
    rewrite <- Hrun in Hok, Ht.
    destruct (cleanup_loop_host victims s) as (Hos & Hftp & Hkey).
    rewrite <- Hrun in Hos, Hftp, Hkey.
    split; [exact Hok|]. split.
    { rewrite (new_events_app _ _ _ Ht). exact Hf. }
    split.
    { intros names' Hp. unfold victims. f_equal.
      apply sorted_desc_unique.
      + apply sort_desc_sorted.
      + apply sort_desc_sorted.
      + rewrite !sort_desc_perm. unfold dirs, snapshot_dirs.
        apply filter_perm, Permutation_map. symmetry. exact Hp.
      + rewrite sort_desc_perm. apply snapshot_dirs_names.
        rewrite <- Hp. exact Hnd. }
    repeat (split; [assumption|]).
    intros Hframe k Hk. rewrite Hos, (fold_rmtree_kept kept victims Hframe) by exact Hk.
    assert (Hin : In k dirs).
    { apply (Permutation_in k Hperm). rewrite <- Hsplit.
      apply List.in_or_app. left. exact Hk. }
    unfold dirs, snapshot_dirs in Hin. apply List.filter_In in Hin. tauto.
Qed.

End Retention.

Lemma cleanup_snapshots_keeps_newest_witness :
  let r := _cleanup_snapshots (parse_path "/srv/backups/main/nightly") 2
             (Sim.init Sim.host_four) in
  List.filter is_rmtree (new_events (Sim.init Sim.host_four) r.2)
  = [Rmtree (parse_path "/srv/backups/main/nightly/20260102_030000");
     Rmtree (parse_path "/srv/backups/main/nightly/20260101_030000")] /\
  List.filter (fun q => bool_decide (List.removelast q = Sim.nightly))
              (Sim.dirs (st_os r.2))
  = [Sim.nightly ++ ["20260104_030000"]; Sim.nightly ++ ["20260103_030000"]] /\
  Sim.files (st_os r.2) = [Sim.nightly ++ ["notes.txt"]] /\
  os_is_dir (st_os r.2) (parse_path "/srv/backups/main/nightly/20260104_030000")
  = true.
Proof.
  intros r.
  assert (Hnd : NoDup ["20260102_030000"; "20260104_030000"; "20260101_030000";
                       "20260103_030000"; "notes.txt"])
    by (apply (bool_decide_unpack _); vm_compute; exact I).
  pose proof (proj2 (cleanup_snapshots_keeps_newest
                       (parse_path "/srv/backups/main/nightly") 2
                       (Sim.init Sim.host_four))
                ["20260102_030000"; "20260104_030000"; "20260101_030000";
                 "20260103_030000"; "notes.txt"]
                eq_refl eq_refl Hnd) as Hthm.
  cbv zeta in Hthm.
  destruct Hthm as (_ & _ & _ & _ & Hev & _ & Hos & _ & _ & Hkept).
  - vm_compute. split; [discriminate | reflexivity].
  - fold r in Hev, Hos, Hkept. split; [exact Hev|].
    split; [rewrite Hos; vm_compute; reflexivity|].
    split; [rewrite Hos; vm_compute; reflexivity|].
    apply Hkept; [|vm_compute; auto].
    intros o v k Hv Hk. vm_compute in Hv, Hk.
    assert (Hframe : forall cv ck : list string,
              Sim.under cv ck = false ->
              Sim.canon v = cv -> Sim.canon k = ck ->
              os_is_dir (os_rmtree o v).2 k = os_is_dir o k).
    { intros cv ck Hun Hcv Hck.
      cbn [os_is_dir os_rmtree Sim.Host_os]. rewrite Hcv, Hck.
      destruct (bool_decide (cv ∈ Sim.locked o)); [reflexivity|].
      destruct (negb (bool_decide (cv ∈ Sim.dirs o))); [reflexivity|].
      cbn [snd]. unfold Sim.has_dir. cbn [Sim.dirs]. f_equal.
      apply bool_decide_ext. rewrite !list_elem_of_In, List.filter_In.
      rewrite Hun. simpl. tauto. }
    destruct Hv as [<-|[<-|[]]], Hk as [<-|[<-|[]]];
      (eapply Hframe; cycle 1; [reflexivity | reflexivity | reflexivity]).
Defined.

(** The first removal fails, the second is still carried out: the two
    newest snapshots and the one that could not be removed remain. *)
Example cleanup_tolerates_failure :
  let r := _cleanup_snapshots (parse_path "/srv/backups/main/nightly") 2
             (Sim.init Sim.host_snaps) in
  r.1 = Ok tt /\
  st_trace r.2
  = [Rmtree (parse_path "/srv/backups/main/nightly/20260102_030000");
     Log WARN "Cleanup: could not remove /srv/backups/main/nightly/20260102_030000";
     Rmtree (parse_path "/srv/backups/main/nightly/20260101_030000");
     Log INFO "Cleanup: removed old snapshot /srv/backups/main/nightly/20260101_030000"] /\
  List.filter (fun q => bool_decide (List.removelast q = Sim.nightly))
              (Sim.dirs (st_os r.2))
  = [Sim.nightly ++ ["20260102_030000"]; Sim.nightly ++ ["20260104_030000"];
     Sim.nightly ++ ["20260103_030000"]].
Proof. vm_compute. repeat split. Qed.


(** ** Job mode *)

Lemma lower_idem s : PyStr.lower (PyStr.lower s) = PyStr.lower s.
Proof.
  induction s as [|c s IH]; simpl; [reflexivity|]. rewrite IH. f_equal.
  destruct c as [[] [] [] [] [] [] [] []]; reflexivity.
Qed.

(** [lower] sends a character to a letter of ["snapshot"] exactly when the
    character is that letter or its capital. *)
Lemma lower_char_letter c d :
  In d (list_ascii_of_string "snapshot") ->
  Ascii.eqb (PyStr.lower_char c) d = letter_of d c.
Proof.
  intros Hd.
  assert (Hall : List.forallb
            (fun n => List.forallb
               (fun d => Bool.eqb
                  (Ascii.eqb (PyStr.lower_char (Ascii.ascii_of_nat n)) d)
                  (letter_of d (Ascii.ascii_of_nat n)))
               (list_ascii_of_string "snapshot"))
            (List.seq 0 256) = true) by (vm_compute; reflexivity).
  rewrite List.forallb_forall in Hall.
  specialize (Hall (Ascii.nat_of_ascii c)).
  rewrite Ascii.ascii_nat_embedding, List.forallb_forall in Hall.
  apply Bool.eqb_prop, Hall; [|exact Hd].
  apply in_seq. pose proof (Ascii.nat_ascii_bounded c). lia.
Qed.

Lemma spells_lower word :
  (forall d, In d (list_ascii_of_string word) ->
             In d (list_ascii_of_string "snapshot")) ->
  forall s, String.eqb (PyStr.lower s) word = spells word s.
Proof.
  induction word as [|d word IH]; intros Hword [|c s];
    cbn [PyStr.lower spells String.eqb]; try reflexivity.
  rewrite (lower_char_letter c d) by (apply Hword; left; reflexivity).
  rewrite IH by (intros d' Hd'; apply Hword; right; exact Hd').
  destruct (letter_of d c); reflexivity.
Qed.

Section Landing.
Context {OS : Type} `{LocalOS OS}.
Variable net : Profile -> Server.
Variable recursion_limit : nat.
Variable root : Path.

Lemma lands_other e :
  is_download e = false -> is_rmtree e = false -> is_fire e = false ->
  lands_in (OS:=OS) root e.
Proof. destruct e; simpl; intros; try discriminate; exact I. Qed.

Lemma safe_join_local_within rel (s s' : St OS) out :
  safe_join_local root rel s = (Ok out, s') ->
  exists rr rel',
    os_resolve (st_os s) root = Ok rr /\
    os_resolve (st_os s) (joinpath root rel') = Ok out /\ within rr out.
Proof.
  cbv [safe_join_local bind call_os raise ret].
  destruct (os_resolve (st_os s) (joinpath root _)) as [out'|e] eqn:Hout;
    [|discriminate].
  destruct (os_resolve (st_os s) root) as [rr|e]; [|discriminate].
  destruct (bool_decide (out' <> rr) && bool_decide (rr ∉ path_parents out'))
    eqn:Hguard; [discriminate|].
  intros [= -> ->]. exists rr. eexists. split; [reflexivity|].
  split; [exact Hout|]. apply within_iff_guard.
  apply andb_false_iff in Hguard as [Hg|Hg]; apply bool_decide_eq_false in Hg.
  - left. destruct (decide (out = rr)); tauto.
  - right. destruct (decide (rr ∈ path_parents out)); tauto.
Qed.

(** The two lines that end an entry of the walk, and the single file. *)
Lemma lands_join_download remote rel (job : BackupJob) (msg : Path -> string) :
  emits (lands_in root)
    (let! target := safe_join_local (OS:=OS) root rel in
     (if negb (job_dry_run job) then download_file remote target else ret tt) >>
     log_info (msg target)).
Proof.
  apply emits_bind_res; [apply emits_safe_join_local|].
  intros target (s0 & s0' & Hjoin).
  apply safe_join_local_within in Hjoin as (rr & rel' & Hrr & Hout & Hin).
  repeat first
    [ apply emits_download_file;
      [exact lands_other | exists (st_os s0), rr, rel'; auto]
    | emits_step ];
  exact I.
Qed.

Lemma lands_download_dir depth job : forall remote_dir rel_prefix,
  emits (lands_in root)
    (_download_dir (OS:=OS) depth remote_dir root job rel_prefix).
Proof.
  induction depth as [|depth IH]; intros remote_dir rel_prefix; simpl.
  - apply emits_raise.
  - repeat first
      [ apply emits_list_dir | apply emits_is_dir | apply IH
      | apply (lands_join_download _ _ job
                 (fun target => "Downloaded: " +:+ _ +:+ " -> " +:+ str_of_path target))
      | emits_step ];
    exact I.
Qed.

Lemma lands_transfer_step remote_full job :
  emits (lands_in root)
    (transfer_step (OS:=OS) recursion_limit remote_full root job).
Proof.
  unfold transfer_step.
  repeat first
    [ apply emits_is_dir | apply lands_download_dir
    | apply (lands_join_download _ _ job
               (fun target => "Downloaded file: " +:+ _ +:+ " -> "
                              +:+ str_of_path target))
    | emits_step ].
Qed.

(** What the block [if dcfg.get(key, True): self._discord_post(text)]
    comes to when the section is a dict. *)
Lemma notify_block_run app key text kvs (s : St OS) :
  discord_cfg (app_settings app) = JDict kvs ->
  exists d,
    (let! flag := lift (notify (app_settings app) key) in
     if flag then _discord_post app text else ret tt) s
    = (Ok tt, {| st_os := st_os s; st_trace := st_trace s ++ d;
                 st_ftp := st_ftp s; st_last_run_key := st_last_run_key s |}).
Proof.
  intros Hd. cbv [bind lift notify]. rewrite Hd.
  destruct (truthy (dict_get kvs key (JBool true))).
  - cbv [_discord_post try_except bind lift ret emit call_os log_warn].
    destruct (webhook_url (app_settings app)) as [url|e]; simpl.
    + destruct (String.eqb url ""); simpl.
      * exists []. rewrite app_nil_r. destruct s; reflexivity.
      * destruct (os_urlopen (st_os s) url text) as [[]|e]; simpl;
          [|rewrite <- app_assoc]; eauto.
    + eauto.
  - exists []. rewrite app_nil_r. destruct s; reflexivity.
Qed.

End Landing.

Section Mirror.
Context {OS : Type} `{LocalOS OS}.
Variable net : Profile -> Server.
Variable recursion_limit : nat.

(** A run in mirror mode, once the profile is found and the base folder
    is there: it keeps to the [MIRROR] folder, and it says so. *)
Lemma run_job_mirror (app : App) (job : BackupJob) (s : St OS)
    (p : Profile) (local_base : Path) (o1 : OS) :
  is_snapshot job = false ->
  get_profile app (job_profile job) = Some p ->
  os_expanduser (st_os s) (parse_path (job_local_target job)) = Ok local_base ->
  os_mkdir_parents (st_os s) local_base = (Ok tt, o1) ->
  let mirror := joinpath (job_dir_of local_base p job) "MIRROR" in
  Forall (lands_in mirror)
         (new_events s (run_job net recursion_limit app job s).2) /\
  ((exists kvs, discord_cfg (app_settings app) = JDict kvs) ->
   In (Log INFO ("Local : " +:+ str_of_path mirror))
      (new_events s (run_job net recursion_limit app job s).2)).
Proof.
  intros Hsnap Hp Hexp Hmk mirror. unfold run_job. rewrite Hp.
  unfold dest_root_of, cleanup_step. rewrite Hsnap. cbn [andb].
  fold mirror.
  rewrite (bind_ok (local_base_of job) _ s local_base s)
    by (cbv [local_base_of call_os]; rewrite Hexp; reflexivity).
  erewrite (bind_ok (mkdir_parents local_base) _ s tt)
    by (cbv [mkdir_parents bind emit update_os]; simpl; rewrite Hmk; reflexivity).
  split.
  - match goal with
    | |- Forall _ (new_events s (?c ?st).2) =>
        assert (Hcont : emits (lands_in mirror) c);
        [|destruct (Hcont st) as (d & Ht & Hq & _);
          rewrite (new_events_app s _ ([LocalMkdir local_base] ++ d))
            by (rewrite Ht; simpl; rewrite <- app_assoc; reflexivity);
          constructor; [exact I | exact Hq]]
    end.
    repeat first
      [ apply emits_connect; apply lands_other
      | apply emits_close; apply lands_other
      | apply emits_discord_post; apply lands_other
      | apply lands_transfer_step
      | emits_step ];
    exact I.
  - intros [kvs Hd].
    erewrite (bind_ok (read_os os_now_stamp)) by reflexivity.
    erewrite (bind_ok (log_info _)) by reflexivity.
    match goal with
    | |- context [bind (bind (lift (notify _ ?key)) (fun flag => if flag then _discord_post _ ?text else _)) _ ?st] =>
        destruct (notify_block_run app key text kvs st Hd) as (d1 & Hblock)
    end.
    rewrite (bind_ok _ _ _ _ _ Hblock).
    erewrite (bind_ok (log_info _)) by reflexivity.
    erewrite (bind_ok (log_info _)) by reflexivity.
    match goal with
    | |- In _ (new_events s (?c ?st).2) =>
        assert (Hrest : emits (fun _ => True) c);
        [|destruct (Hrest st) as (d & Ht & _ & _);
          erewrite new_events_app
            by (rewrite Ht; simpl; rewrite <- !app_assoc; reflexivity)]
    end.
    + repeat first
        [ apply emits_connect; intros; exact I
        | apply emits_close; intros; exact I
        | apply emits_discord_post; intros; exact I
        | apply emits_transfer_step; intros; exact I
        | emits_step ];
      exact I.
    + rewrite !in_app_iff. simpl. auto 10.
Qed.

End Mirror.

(** C10: the mode is matched whatever the case of its letters, and a job
    whose lower-cased mode is not ["snapshot"] (["mirror"] or anything else)
    runs as a mirror job.  [is_snapshot] holds exactly of the modes that
    spell "snapshot" in small or capital letters.  For any other mode the
    destination is the fixed [MIRROR] folder and the retention step is
    skipped; and the run itself, once the profile is found and the base
    folder is there, names that folder as its destination in the log (the
    [discord] section being a dict or absent), writes every file it
    downloads to that folder or below it, and removes nothing. *)
Theorem non_snapshot_mode_is_mirror {OS} `{LocalOS OS}
    (net : Profile -> Server) (recursion_limit : nat)
    (app : App) (job : BackupJob) :
  PyStr.lower (job_mode job) <> "snapshot" ->
  (forall job', PyStr.lower (job_mode job') = PyStr.lower (job_mode job) ->
                is_snapshot job' = false) /\
  (forall local_base p stamp,
      dest_root_of local_base p job stamp
      = joinpath (job_dir_of local_base p job) "MIRROR") /\
  (forall local_base p, cleanup_step (OS:=OS) local_base p job = ret tt) /\
  (forall s : St OS,
      Forall (fun e => is_rmtree e = false)
             (new_events s (run_job net recursion_limit app job s).2)) /\
  (forall job', is_snapshot job' = spells "snapshot" (job_mode job')) /\
  (forall (s : St OS) p local_base o1,
      get_profile app (job_profile job) = Some p ->
      os_expanduser (st_os s) (parse_path (job_local_target job)) = Ok local_base ->
      os_mkdir_parents (st_os s) local_base = (Ok tt, o1) ->
      let mirror := joinpath (job_dir_of local_base p job) "MIRROR" in
      Forall (lands_in mirror)
             (new_events s (run_job net recursion_limit app job s).2) /\
      ((exists kvs, discord_cfg (app_settings app) = JDict kvs) ->
       In (Log INFO ("Local : " +:+ str_of_path mirror))
          (new_events s (run_job net recursion_limit app job s).2))).
Proof.
  intros Hmode.
  assert (Hsnap : is_snapshot job = false)
    by (unfold is_snapshot; apply String.eqb_neq; exact Hmode).
  split; [|split; [|split; [|split; [|split]]]].
  - intros job' Heq. unfold is_snapshot. rewrite Heq. exact Hsnap.
  - intros. unfold dest_root_of. rewrite Hsnap. reflexivity.
  - intros. unfold cleanup_step. rewrite Hsnap. reflexivity.
  - intros s. apply emits_new_events, emits_run_job.
    + intros [] ? ? ?; try reflexivity; discriminate.
    + reflexivity.
    + congruence.
  - intros job'. unfold is_snapshot. apply spells_lower. auto.
  - intros s p local_base o1 Hp Hexp Hmk.
    exact (run_job_mirror net recursion_limit app job s p local_base o1
             Hsnap Hp Hexp Hmk).
Qed.

Lemma non_snapshot_mode_is_mirror_witness :
  let r := run_job (fun _ => Sim.server Sim.tree5 true) 100
             (Sim.app_of []) (Sim.with_mode "Weekly" Sim.job0)
             (Sim.init Sim.host_snaps) in
  Forall (fun e => is_rmtree e = false)
         (new_events (Sim.init Sim.host_snaps) r.2) /\
  In (Log INFO "Local : /srv/backups/main/nightly/MIRROR")
     (new_events (Sim.init Sim.host_snaps) r.2) /\
  List.filter is_download (st_trace r.2)
  = [DownloadFile "/data/a.txt"
       (parse_path "/srv/backups/main/nightly/MIRROR/a.txt");
     DownloadFile "/data/b.txt"
       (parse_path "/srv/backups/main/nightly/MIRROR/b.txt");
     DownloadFile "/data/sub/c.txt"
       (parse_path "/srv/backups/main/nightly/MIRROR/sub/c.txt");
     DownloadFile "/data/sub/d.txt"
       (parse_path "/srv/backups/main/nightly/MIRROR/sub/d.txt");
     DownloadFile "/data/sub/e.txt"
       (parse_path "/srv/backups/main/nightly/MIRROR/sub/e.txt")] /\
  is_snapshot (Sim.with_mode "SnapShot" Sim.job0) = true.
Proof.
  intros r.
  assert (Hmode : PyStr.lower (job_mode (Sim.with_mode "Weekly" Sim.job0))
                  <> "snapshot") by (vm_compute; discriminate).
  destruct (non_snapshot_mode_is_mirror (fun _ => Sim.server Sim.tree5 true) 100
              (Sim.app_of []) (Sim.with_mode "Weekly" Sim.job0) Hmode)
    as (_ & _ & _ & Hrm & Hspell & Hrun).
  split; [exact (Hrm (Sim.init Sim.host_snaps))|].
  split.
  - refine (proj2 (Hrun (Sim.init Sim.host_snaps) Sim.profile0
                     (parse_path "/srv/backups") _ eq_refl eq_refl eq_refl) _).
    eexists. vm_compute. reflexivity.
  - split; [vm_compute; reflexivity|].
    rewrite Hspell. reflexivity.
Defined.

Example mode_examples :
  is_snapshot (Sim.with_mode "SnapShot" Sim.job0) = true /\
  is_snapshot (Sim.with_mode "SNAPSHOT" Sim.job0) = true /\
  is_snapshot (Sim.with_mode "mirror" Sim.job0) = false /\
  is_snapshot (Sim.with_mode "Weekly" Sim.job0) = false /\
  str_of_path (dest_root_of (parse_path "/srv/backups") Sim.profile0
                 (Sim.with_mode "Weekly" Sim.job0) "20260103_030000")
  = "/srv/backups/main/nightly/MIRROR" /\
  str_of_path (dest_root_of (parse_path "/srv/backups") Sim.profile0
                 (Sim.with_mode "SnapShot" Sim.job0) "20260103_030000")
  = "/srv/backups/main/nightly/20260103_030000".
Proof. repeat split. Qed.

(** ** The scheduler *)

Section Relations.
Context {OS : Type}.
Variables key n : string.

Lemma once_refl (s : St OS) : once key n s s.
Proof. exists []. rewrite app_nil_r. simpl. auto. Qed.

Lemma once_trans (s1 s2 s3 : St OS) :
  once key n s1 s2 -> once key n s2 s3 -> once key n s1 s3.
Proof.
  intros (d1 & Ht1 & Hc1) (d2 & Ht2 & Hc2). exists (d1 ++ d2).
  rewrite Ht2, Ht1, app_assoc. split; [reflexivity|].
  rewrite List.filter_app, length_app. lia.
Qed.

Lemma not_at_refl k (s : St OS) : not_at key n k s s.
Proof. exists []. rewrite app_nil_r. auto. Qed.

Lemma not_at_trans k (s1 s2 s3 : St OS) :
  not_at key n k s1 s2 -> not_at key n k s2 s3 -> not_at key n k s1 s3.
Proof.
  intros (d1 & Ht1 & Hq1 & Hk1) (d2 & Ht2 & Hq2 & Hk2). exists (d1 ++ d2).
  rewrite Ht2, Ht1, app_assoc. split; [reflexivity|].
  split; [apply Forall_app; auto | auto].
Qed.

Lemma same_key_refl (s : St OS) : same_key n s s.
Proof. split; [exists []; rewrite app_nil_r|]; reflexivity. Qed.

Lemma same_key_trans (s1 s2 s3 : St OS) :
  same_key n s1 s2 -> same_key n s2 s3 -> same_key n s1 s3.
Proof.
  intros [(d1 & Ht1) Hk1] [(d2 & Ht2) Hk2]. split; [|congruence].
  exists (d1 ++ d2). rewrite Ht2, Ht1, app_assoc. reflexivity.
Qed.

Lemma no_fire_named d :
  Forall (fun e => is_fire e = false) d -> List.filter (is_fire_named n) d = [].
Proof.
  induction 1 as [|e d He _ IH]; simpl; [reflexivity|].
  destruct e; simpl in *; try exact IH. discriminate.
Qed.

Lemma emits_once {A} (m : M OS A) :
  emits (fun e => is_fire e = false) m -> respects (once key n) m.
Proof.
  intros Hm s. destruct (Hm s) as (d & Ht & Hq & Hk). exists d.
  split; [exact Ht|]. rewrite (no_fire_named d Hq). unfold unfired.
  rewrite Hk. simpl. lia.
Qed.

Lemma emits_not_at {A} k (m : M OS A) :
  emits (fun e => is_fire e = false) m -> respects (not_at key n k) m.
Proof.
  intros Hm s. destruct (Hm s) as (d & Ht & Hq & Hk). exists d.
  split; [exact Ht|]. split; [|rewrite Hk; auto].
  eapply List.Forall_impl; [|exact Hq]. intros [] He; simpl in *; congruence.
Qed.

Lemma emits_same_key {A} (m : M OS A) :
  emits (fun e => is_fire e = false) m -> respects (same_key n) m.
Proof.
  intros Hm s. destruct (Hm s) as (d & Ht & Hq & Hk).
  split; [eauto | rewrite Hk; reflexivity].
Qed.

End Relations.

Section Scheduler.
Context {OS : Type} `{LocalOS OS}.
Variable net : Profile -> Server.
Variable recursion_limit : nat.
Variable app : App.
Variable now : Clock.

#[local] Abbreviation key := (key_time_of now).
#[local] Abbreviation body := (check_job (OS:=OS) net recursion_limit app now).

Lemma run_job_no_fire job :
  emits (fun e => is_fire e = false) (run_job (OS:=OS) net recursion_limit app job).
Proof. apply emits_run_job; intros; reflexivity || assumption. Qed.

(** The three outcomes of one turn of the loop. *)
Lemma check_job_skip idx job (s : St OS) :
  due job now = false -> body idx job s = (Ok tt, s).
Proof.
  unfold due, check_job. intros Hdue.
  destruct (job_enabled job); [|reflexivity].
  destruct (bool_decide (weekday_now now ∈ job_days job)); [|reflexivity].
  simpl in *.
  destruct (job_hour job =? clock_hour now)%Z; [|reflexivity].
  destruct (job_minute job =? clock_minute now)%Z; [discriminate|reflexivity].
Qed.

Lemma check_job_dedup idx job (s : St OS) :
  st_last_run_key s !! job_name job = Some key -> body idx job s = (Ok tt, s).
Proof.
  intros Hlast. unfold check_job.
  destruct (negb (job_enabled job)); [reflexivity|].
  destruct (negb (bool_decide (weekday_now now ∈ job_days job))); [reflexivity|].
  destruct (negb (job_hour job =? clock_hour now)%Z
            || negb (job_minute job =? clock_minute now)%Z); [reflexivity|].
  cbv [bind get_last_run_key]. rewrite (bool_decide_eq_true_2 _ Hlast). reflexivity.
Qed.

Lemma check_job_fire idx job (s : St OS) :
  due job now = true ->
  st_last_run_key s !! job_name job <> Some key ->
  body idx job s
  = run_job net recursion_limit app job
      {| st_os := st_os s;
         st_trace := st_trace s ++ [Fire idx (job_name job)];
         st_ftp := st_ftp s;
         st_last_run_key := <[job_name job := key]> (st_last_run_key s) |}.
Proof.
  unfold due, check_job. intros Hdue Hlast.
  apply andb_true_iff in Hdue as [Hdue Hm].
  apply andb_true_iff in Hdue as [Hdue Hh].
  apply andb_true_iff in Hdue as [He Hd].
  rewrite He, Hd, Hh, Hm. simpl.
  cbv [bind get_last_run_key set_last_run_key emit].
  rewrite (bool_decide_eq_false_2 _ Hlast). reflexivity.
Qed.

Lemma check_job_cases idx job (s : St OS) :
  body idx job s = (Ok tt, s) \/
  (due job now = true /\ st_last_run_key s !! job_name job <> Some key).
Proof.
  destruct (due job now) eqn:Hdue; [|left; apply check_job_skip; exact Hdue].
  destruct (decide (st_last_run_key s !! job_name job = Some key)) as [Hl|Hl].
  - left. apply check_job_dedup. exact Hl.
  - right. auto.
Qed.

Lemma check_job_once n idx job : respects (once key n) (body idx job).
Proof.
  intros s. destruct (check_job_cases idx job s) as [-> | [Hdue Hlast]].
  { apply once_refl. }
  rewrite check_job_fire by assumption.
  match goal with |- once _ _ _ (run_job _ _ _ _ ?s1).2 =>
    pose proof (emits_once key n _ (run_job_no_fire job) s1) as Hrun;
    apply (once_trans key n s s1); [|exact Hrun]
  end.
  exists [Fire idx (job_name job)]. simpl. split; [reflexivity|].
  unfold unfired. simpl.
  destruct (String.eqb_spec (job_name job) n) as [Heq | Hne]; simpl.
  - subst n. rewrite lookup_insert_eq.
    rewrite bool_decide_eq_true_2 by reflexivity.
    rewrite bool_decide_eq_false_2 by exact Hlast. lia.
  - rewrite lookup_insert_ne by exact Hne. lia.
Qed.

Lemma check_job_not_at n k idx job :
  idx <> k -> respects (not_at key n k) (body idx job).
Proof.
  intros Hidx s. destruct (check_job_cases idx job s) as [-> | [Hdue Hlast]].
  { apply not_at_refl. }
  rewrite check_job_fire by assumption.
  match goal with |- not_at _ _ _ _ (run_job _ _ _ _ ?s1).2 =>
    pose proof (emits_not_at key n k _ (run_job_no_fire job) s1) as Hrun;
    apply (not_at_trans key n k s s1); [|exact Hrun]
  end.
  exists [Fire idx (job_name job)]. simpl. split; [reflexivity|]. split.
  - constructor; [|constructor]. simpl. apply Nat.eqb_neq. exact Hidx.
  - intros Hk. destruct (decide (job_name job = n)) as [<- | Hne].
    + apply lookup_insert_eq.
    + rewrite lookup_insert_ne by exact Hne. exact Hk.
Qed.

Lemma check_job_same_key n idx job :
  job_name job <> n -> respects (same_key n) (body idx job).
Proof.
  intros Hne s. destruct (check_job_cases idx job s) as [-> | [Hdue Hlast]].
  { apply same_key_refl. }
  rewrite check_job_fire by assumption.
  match goal with |- same_key _ _ (run_job _ _ _ _ ?s1).2 =>
    pose proof (emits_same_key n _ (run_job_no_fire job) s1) as Hrun;
    apply (same_key_trans n s s1); [|exact Hrun]
  end.
  split; simpl; [eauto|]. apply lookup_insert_ne. exact Hne.
Qed.

Lemma check_job_sets_key idx job (s : St OS) :
  due job now = true ->
  st_last_run_key (body idx job s).2 !! job_name job = Some key.
Proof.
  intros Hdue.
  destruct (decide (st_last_run_key s !! job_name job = Some key)) as [Hl|Hl].
  - rewrite check_job_dedup by exact Hl. exact Hl.
  - rewrite check_job_fire by assumption.
    match goal with |- st_last_run_key (run_job _ _ _ _ ?s1).2 !! _ = _ =>
      destruct (run_job_no_fire job s1) as (d & _ & _ & ->)
    end.
    simpl. apply lookup_insert_eq.
Qed.

Lemma lookup_shift {A} (x : A) (l : list A) (i i0 : nat) :
  i0 < i -> (x :: l) !! (i - i0) = l !! (i - S i0).
Proof. intros Hlt. replace (i - i0) with (S (i - S i0)) by lia. reflexivity. Qed.

(** A loop in which the turn at position [k], if reached in a state
    satisfying [P], does nothing, never fires at [k]. *)
Lemma loop_not_at n k (P : St OS -> Prop) :
  (forall s s', P s -> not_at key n k s s' -> P s') ->
  forall l i0 s,
    P s ->
    (forall s0 j, P s0 -> i0 <= k -> l !! (k - i0) = Some j ->
                  body k j s0 = (Ok tt, s0)) ->
    not_at key n k s (for_each_indexed i0 l body s).2.
Proof.
  intros HP. induction l as [|a l IH]; intros i0 s Hs Hk; simpl.
  - apply not_at_refl.
  - unfold bind. destruct (decide (i0 = k)) as [-> | Hne].
    + rewrite (Hk s a Hs) by (rewrite ?Nat.sub_diag; reflexivity || lia).
      apply IH; [exact Hs|]. intros; lia.
    + pose proof (check_job_not_at n k i0 a Hne s) as Hb.
      destruct (body i0 a s) as [[[]|e] s1]; simpl in *; [|exact Hb].
      eapply not_at_trans; [exact Hb|]. apply IH; [eapply HP; eauto|].
      intros s0 j Hs0 Hle Hl. apply Hk; [exact Hs0 | lia |].
      rewrite lookup_shift by lia. exact Hl.
Qed.

Lemma armed_stays n k (s s' : St OS) :
  st_last_run_key s !! n = Some key -> not_at key n k s s' ->
  st_last_run_key s' !! n = Some key.
Proof. intros Hs (d & _ & _ & Hk). auto. Qed.

(** Once a due job named [n] stands at a position [i] before [k], the job
    at [k], also named [n], is never fired. *)
Lemma loop_second_skipped n i k j1 :
  i < k -> due j1 now = true -> job_name j1 = n ->
  forall l i0 s,
    i0 <= i -> l !! (i - i0) = Some j1 ->
    (forall j, l !! (k - i0) = Some j -> job_name j = n) ->
    not_at key n k s (for_each_indexed i0 l body s).2.
Proof.
  intros Hik Hdue Hname. induction l as [|a l IH]; intros i0 s Hi0 Hi Hk; simpl.
  - apply not_at_refl.
  - unfold bind.
    assert (Hne : i0 <> k) by lia.
    pose proof (check_job_not_at n k i0 a Hne s) as Hb.
    destruct (decide (i0 = i)) as [-> | Hlt].
    + rewrite Nat.sub_diag in Hi. injection Hi as ->.
      pose proof (check_job_sets_key i j1 s Hdue) as Hset. rewrite Hname in Hset.
      destruct (body i j1 s) as [[[]|e] s1]; simpl in *; [|exact Hb].
      eapply not_at_trans; [exact Hb|].
      apply (loop_not_at n k (fun s0 => st_last_run_key s0 !! n = Some key)).
      * intros ? ? ? ?. eapply armed_stays; eassumption.
      * exact Hset.
      * intros s0 j Hs0 _ Hl. apply check_job_dedup.
        rewrite lookup_shift in Hk by lia. rewrite (Hk j Hl). exact Hs0.
    + destruct (body i0 a s) as [[[]|e] s1]; simpl in *; [|exact Hb].
      eapply not_at_trans; [exact Hb|]. apply IH; [lia | |].
      * rewrite lookup_shift in Hi by lia. exact Hi.
      * intros j Hl. apply Hk. rewrite lookup_shift by lia. exact Hl.
Qed.

Lemma trace_grows n (s s' : St OS) :
  once key n s s' -> exists d, st_trace s' = st_trace s ++ d.
Proof. intros (d & Ht & _). eauto. Qed.

(** From a state in which [n] has not fired for the key, a loop that ends
    normally fires the first job named [n] when that job is due. *)
Lemma loop_first_fires n i j1 :
  due j1 now = true -> job_name j1 = n ->
  forall l i0 s,
    i0 <= i -> l !! (i - i0) = Some j1 ->
    (forall i' j', i0 <= i' < i -> l !! (i' - i0) = Some j' -> job_name j' <> n) ->
    st_last_run_key s !! n <> Some key ->
    (for_each_indexed i0 l body s).1 = Ok tt ->
    exists d, st_trace (for_each_indexed i0 l body s).2 = st_trace s ++ d /\
              In (Fire i n) d.
Proof.
  intros Hdue Hname. induction l as [|a l IH]; intros i0 s Hi0 Hi Hfirst Hkey Hok.
  - rewrite lookup_nil in Hi. discriminate.
  - simpl in *. unfold bind in *.
    destruct (decide (i0 = i)) as [-> | Hlt].
    + rewrite Nat.sub_diag in Hi. injection Hi as ->.
      rewrite <- Hname in Hkey. rewrite check_job_fire in * by assumption.
      match goal with |- context [run_job _ _ _ _ ?s1] =>
        destruct (run_job_no_fire j1 s1) as (d1 & Ht1 & _ & _);
        destruct (run_job net recursion_limit app j1 s1) as [[[]|e] s2]
      end; simpl in *; [|discriminate].
      destruct (trace_grows n s2 _
                  (respects_for_each_indexed (once key n) (once_refl key n)
                     (once_trans key n) l body (S i)
                     (fun j x => check_job_once n j x) s2)) as (d2 & Ht2).
      exists ((Fire i (job_name j1) :: d1) ++ d2).
      rewrite Ht2, Ht1, <- !app_assoc. simpl. rewrite Hname. auto.
    + assert (Ha : job_name a <> n).
      { apply (Hfirst i0); [lia|]. rewrite Nat.sub_diag. reflexivity. }
      pose proof (check_job_same_key n i0 a Ha s) as [(d1 & Ht1) Hk1].
      destruct (body i0 a s) as [[[]|e] s1]; simpl in *; [|discriminate].
      destruct (IH (S i0) s1) as (d2 & Ht2 & Hin); try assumption.
      * lia.
      * rewrite lookup_shift in Hi by lia. exact Hi.
      * intros i' j' Hi' Hl. apply (Hfirst i'); [lia|].
        rewrite lookup_shift by lia. exact Hl.
      * congruence.
      * exists (d1 ++ d2). rewrite Ht2, Ht1, <- app_assoc.
        split; [reflexivity|]. apply in_or_app. auto.
Qed.

(** ... and it does run it: the loop reaches a state from which [run_job]
    is carried out on that job to its end, and goes on from there. *)
Lemma loop_first_runs n i j1 :
  due j1 now = true -> job_name j1 = n ->
  forall l i0 s,
    i0 <= i -> l !! (i - i0) = Some j1 ->
    (forall i' j', i0 <= i' < i -> l !! (i' - i0) = Some j' -> job_name j' <> n) ->
    st_last_run_key s !! n <> Some key ->
    (for_each_indexed i0 l body s).1 = Ok tt ->
    exists s0 d2,
      (exists d0, st_trace s0 = st_trace s ++ d0) /\
      (run_job net recursion_limit app j1 (fired_state key i n s0)).1 = Ok tt /\
      st_trace (for_each_indexed i0 l body s).2
      = st_trace (run_job net recursion_limit app j1 (fired_state key i n s0)).2
        ++ d2.
Proof.
  intros Hdue Hname. induction l as [|a l IH]; intros i0 s Hi0 Hi Hfirst Hkey Hok.
  - rewrite lookup_nil in Hi. discriminate.
  - simpl in *. unfold bind in *.
    destruct (decide (i0 = i)) as [-> | Hlt].
    + rewrite Nat.sub_diag in Hi. injection Hi as ->.
      rewrite <- Hname in Hkey. rewrite check_job_fire in * by assumption.
      exists s. rewrite <- Hname.
      change {| st_os := st_os s;
                st_trace := st_trace s ++ [Fire i (job_name j1)];
                st_ftp := st_ftp s;
                st_last_run_key := <[job_name j1 := key]> (st_last_run_key s) |}
        with (fired_state key i (job_name j1) s) in *.
      destruct (run_job net recursion_limit app j1
                  (fired_state key i (job_name j1) s)) as [[[]|e] s2];
        simpl in *; [|discriminate].
      destruct (trace_grows (job_name j1) s2 _
                  (respects_for_each_indexed (once key (job_name j1))
                     (once_refl key (job_name j1))
                     (once_trans key (job_name j1)) l body (S i)
                     (fun j x => check_job_once (job_name j1) j x) s2))
        as (d2 & Ht2).
      exists d2. split; [exists []; rewrite app_nil_r; reflexivity|].
      split; [reflexivity | exact Ht2].
    + assert (Ha : job_name a <> n).
      { apply (Hfirst i0); [lia|]. rewrite Nat.sub_diag. reflexivity. }
      pose proof (check_job_same_key n i0 a Ha s) as [(d1 & Ht1) Hk1].
      destruct (body i0 a s) as [[[]|e] s1]; simpl in *; [|discriminate].
      destruct (IH (S i0) s1) as (s0 & d2 & (d0 & Ht0) & Hrun & Ht2);
        try assumption.
      * lia.
      * rewrite lookup_shift in Hi by lia. exact Hi.
      * intros i' j' Hi' Hl. apply (Hfirst i'); [lia|].
        rewrite lookup_shift by lia. exact Hl.
      * congruence.
      * exists s0, d2. split; [|split; assumption].
        exists (d1 ++ d0). rewrite Ht0, Ht1, <- app_assoc. reflexivity.
Qed.

Lemma tick_respects (R : St OS -> St OS -> Prop) :
  (forall s, R s s) -> (forall s1 s2 s3, R s1 s2 -> R s2 s3 -> R s1 s3) ->
  (forall A (m : M OS A), emits (fun e => is_fire e = false) m -> respects R m) ->
  respects R (check_and_run_due_jobs net recursion_limit app now) ->
  respects R (_tick net recursion_limit app now).
Proof.
  intros Hrefl Htrans Hemits Hloop. unfold _tick.
  destruct (negb (app_scheduler_running app)); [apply respects_ret, Hrefl|].
  apply respects_try_except; [exact Htrans | exact Hloop |].
  intros e. apply Hemits. repeat emits_step; reflexivity.
Qed.

Lemma scheduler_respects (R : St OS -> St OS -> Prop) ticks :
  (forall s, R s s) -> (forall s1 s2 s3, R s1 s2 -> R s2 s3 -> R s1 s3) ->
  respects R (_tick net recursion_limit app now) ->
  respects R (run_scheduler net recursion_limit app (repeat now ticks)).
Proof.
  intros Hrefl Htrans Htick. unfold run_scheduler.
  apply respects_for_each; [exact Hrefl | exact Htrans |].
  intros x Hx. apply repeat_spec in Hx. subst x. exact Htick.
Qed.

Lemma tick_once n : respects (once key n) (_tick net recursion_limit app now).
Proof.
  apply tick_respects.
  - apply once_refl.
  - apply once_trans.
  - intros A m. apply emits_once.
  - apply respects_for_each_indexed;
      [apply once_refl | apply once_trans | intros; apply check_job_once].
Qed.

Lemma tick_not_due idx job :
  app_jobs app !! idx = Some job -> due job now = false ->
  respects (not_at key "" idx) (_tick net recursion_limit app now).
Proof.
  intros Hjob Hdue. apply tick_respects.
  - apply not_at_refl.
  - apply not_at_trans.
  - intros A m. apply emits_not_at.
  - intros s. apply (loop_not_at "" idx (fun _ => True)); auto.
    intros s0 j _ _ Hl. rewrite Nat.sub_0_r in Hl.
    apply check_job_skip. congruence.
Qed.

Lemma tick_second_skipped n i k j1 j2 :
  i < k -> app_jobs app !! i = Some j1 -> app_jobs app !! k = Some j2 ->
  job_name j1 = n -> job_name j2 = n -> due j1 now = true ->
  respects (not_at key n k) (_tick net recursion_limit app now).
Proof.
  intros Hik H1 H2 Hn1 Hn2 Hdue. apply tick_respects.
  - apply not_at_refl.
  - apply not_at_trans.
  - intros A m. apply emits_not_at.
  - intros s. apply (loop_second_skipped n i k j1); auto.
    + lia.
    + rewrite Nat.sub_0_r. exact H1.
    + intros j Hl. rewrite Nat.sub_0_r in Hl. congruence.
Qed.

End Scheduler.

Lemma filter_single {A} (f : A -> bool) (x : A) (d : list A) :
  In x d -> f x = true -> List.length (List.filter f d) <= 1 ->
  List.filter f d = [x].
Proof.
  intros Hin Hf Hlen.
  assert (Hx : In x (List.filter f d)) by (apply filter_In; auto).
  destruct (List.filter f d) as [|y [|z t]]; simpl in *.
  - contradiction.
  - destruct Hx as [-> | []]. reflexivity.
  - lia.
Qed.

Lemma scheduler_once {OS} `{LocalOS OS}
    (net : Profile -> Server) (recursion_limit : nat) (app : App)
    (now : Clock) (n : string) (ticks : nat) (s : St OS) :
  once (key_time_of now) n s
       (run_scheduler net recursion_limit app (repeat now ticks) s).2.
Proof.
  apply (scheduler_respects net recursion_limit app now
           (once (key_time_of now) n) ticks
           (once_refl _ _) (once_trans _ _)
           (tick_once net recursion_limit app now n) s).
Qed.

Lemma once_count {OS} key n (s s' : St OS) :
  once key n s s' ->
  List.length (List.filter (is_fire_named n) (new_events s s')) <= 1.
Proof.
  intros (d & Ht & Hc). rewrite (new_events_app _ _ _ Ht).
  unfold unfired in Hc.
  destruct (bool_decide (st_last_run_key s !! n = Some key)); lia.
Qed.

(** C4: over any number of ticks that read the same weekday, hour and
    minute, at most one firing is recorded for a job name; once the key of
    that minute is recorded for the name no further firing of it occurs, and
    a firing records the key; and a tick at a time whose hour or minute
    differs from a job's configured hour and minute does not fire that
    job. *)
Theorem scheduler_fires_once_per_minute {OS} `{LocalOS OS}
    (net : Profile -> Server) (recursion_limit : nat) (app : App)
    (now : Clock) (n : string) (ticks : nat) (s : St OS) :
  let s' := (run_scheduler net recursion_limit app (repeat now ticks) s).2 in
  List.length (List.filter (is_fire_named n) (new_events s s')) <= 1 /\
  (st_last_run_key s !! n = Some (key_time_of now) ->
   List.filter (is_fire_named n) (new_events s s') = []) /\
  (List.filter (is_fire_named n) (new_events s s') <> [] ->
   st_last_run_key s' !! n = Some (key_time_of now)) /\
  (forall now' idx job (s0 : St OS),
      app_jobs app !! idx = Some job ->
      job_hour job <> clock_hour now' \/ job_minute job <> clock_minute now' ->
      Forall (fun e => is_fire_at idx e = false)
             (new_events s0 (_tick net recursion_limit app now' s0).2)).
Proof.
  intros s'.
  pose proof (scheduler_once net recursion_limit app now n ticks s) as Honce.
  fold s' in Honce. split; [eapply once_count; exact Honce|].
  destruct Honce as (d & Ht & Hc). rewrite (new_events_app _ _ _ Ht).
  unfold unfired in Hc. repeat split.
  - intros Hk. rewrite (bool_decide_eq_true_2 _ Hk) in Hc.
    destruct (List.filter (is_fire_named n) d); [reflexivity | simpl in Hc; lia].
  - intros Hne.
    destruct (decide (st_last_run_key s' !! n = Some (key_time_of now)))
      as [Hk|Hk]; [exact Hk|].
    rewrite (bool_decide_eq_false_2 _ Hk) in Hc.
    destruct (List.filter (is_fire_named n) d); [congruence|].
    destruct (bool_decide (st_last_run_key s !! n = Some (key_time_of now)));
      simpl in Hc; lia.
  - intros now' idx job s0 Hjob Hmis.
    assert (Hdue : due job now' = false).
    { unfold due. destruct Hmis as [Hh | Hm].
      - apply Z.eqb_neq in Hh. rewrite Hh, andb_false_r. reflexivity.
      - apply Z.eqb_neq in Hm. rewrite Hm, andb_false_r. reflexivity. }
    destruct (tick_not_due net recursion_limit app now' idx job Hjob Hdue s0)
      as (d0 & Ht0 & Hq0 & _).
    rewrite (new_events_app _ _ _ Ht0). exact Hq0.
Qed.

Lemma scheduler_fires_once_per_minute_witness :
  List.length
    (List.filter (is_fire_named "nightly")
       (new_events (Sim.init Sim.host0)
          (run_scheduler (fun _ => Sim.server Sim.tree5 true) 100
             (Sim.app_of [Sim.job0]) (repeat Sim.saturday_0300 3)
             (Sim.init Sim.host0)).2)) <= 1.
Proof.
  exact (proj1 (scheduler_fires_once_per_minute
                  (fun _ => Sim.server Sim.tree5 true) 100
                  (Sim.app_of [Sim.job0]) Sim.saturday_0300 "nightly" 3
                  (Sim.init Sim.host0))).
Defined.

(** Three ticks during Saturday 03:00 and three during 03:01: one firing. *)
Example saturday_ticks :
  List.filter is_fire
    (st_trace
       (run_scheduler (fun _ => Sim.server Sim.tree5 true) 100
          (Sim.app_of [Sim.job0])
          (repeat Sim.saturday_0300 3 ++ repeat Sim.saturday_0301 3)
          (Sim.init Sim.host0)).2)
  = [Fire 0 "nightly"].
Proof. vm_compute. reflexivity. Qed.

(** The key carries no date: while it stays recorded, the same weekday,
    hour and minute a week later do not fire the job again. *)
Example next_saturday :
  List.filter is_fire
    (st_trace
       (run_scheduler (fun _ => Sim.server Sim.tree5 true) 100
          (Sim.app_of [Sim.job0])
          [Sim.saturday_0300; Sim.saturday_0301; Sim.saturday_0300]
          (Sim.init Sim.host0)).2)
  = [Fire 0 "nightly"].
Proof. vm_compute. reflexivity. Qed.

(** C9: the key is recorded per job name.  Of two due jobs of one name,
    the one at the later position is never fired at that time, at most one
    firing is recorded for the name, and a loop that starts before the name
    has fired for the key and ends normally fires exactly the first job of
    that name, and runs it: [run_job] is carried out on the first job to
    its end, from the state in which the key was recorded, and what the
    loop leaves behind continues the trace of that run. *)
Theorem same_name_second_job_skipped {OS} `{LocalOS OS}
    (net : Profile -> Server) (recursion_limit : nat) (app : App)
    (now : Clock) (i k : nat) (j1 j2 : BackupJob) :
  i < k ->
  app_jobs app !! i = Some j1 -> app_jobs app !! k = Some j2 ->
  job_name j1 = job_name j2 ->
  due j1 now = true -> due j2 now = true ->
  (forall ticks (s : St OS),
      let s' := (run_scheduler net recursion_limit app (repeat now ticks) s).2 in
      Forall (fun e => is_fire_at k e = false) (new_events s s') /\
      List.length (List.filter (is_fire_named (job_name j1)) (new_events s s')) <= 1) /\
  (forall s : St OS,
      st_last_run_key s !! job_name j1 <> Some (key_time_of now) ->
      (forall i' j', i' < i -> app_jobs app !! i' = Some j' ->
                     job_name j' <> job_name j1) ->
      (check_and_run_due_jobs net recursion_limit app now s).1 = Ok tt ->
      List.filter (is_fire_named (job_name j1))
        (new_events s (check_and_run_due_jobs net recursion_limit app now s).2)
      = [Fire i (job_name j1)] /\
      exists s0 d2,
        (exists d0, st_trace s0 = st_trace s ++ d0) /\
        (run_job net recursion_limit app j1
           (fired_state (key_time_of now) i (job_name j1) s0)).1 = Ok tt /\
        st_trace (check_and_run_due_jobs net recursion_limit app now s).2
        = st_trace (run_job net recursion_limit app j1
                      (fired_state (key_time_of now) i (job_name j1) s0)).2
          ++ d2).
Proof.
  intros Hik H1 H2 Hname Hdue1 Hdue2. split.
  - intros ticks s s'. split.
    + destruct (scheduler_respects net recursion_limit app now
                  (not_at (key_time_of now) (job_name j1) k) ticks
                  (not_at_refl _ _ _) (not_at_trans _ _ _)
                  (tick_second_skipped net recursion_limit app now
                     (job_name j1) i k j1 j2 Hik H1 H2 eq_refl
                     (eq_sym Hname) Hdue1) s) as (d & Ht & Hq & _).
      fold s' in Ht. rewrite (new_events_app _ _ _ Ht). exact Hq.
    + eapply once_count. apply scheduler_once.
  - intros s Hkey Hfirst Hok. split.
    2: { apply (loop_first_runs net recursion_limit app now (job_name j1) i j1
                  Hdue1 eq_refl (app_jobs app) 0 s); try assumption.
         - lia.
         - rewrite Nat.sub_0_r. exact H1.
         - intros i' j' Hi' Hl. rewrite Nat.sub_0_r in Hl.
           apply (Hfirst i'); [lia | exact Hl]. }
    destruct (loop_first_fires net recursion_limit app now (job_name j1) i j1
                Hdue1 eq_refl (app_jobs app) 0 s) as (d & Ht & Hin);
      try assumption.
    + lia.
    + rewrite Nat.sub_0_r. exact H1.
    + intros i' j' Hi' Hl. rewrite Nat.sub_0_r in Hl. apply (Hfirst i'); [lia | exact Hl].
    + fold (check_and_run_due_jobs net recursion_limit app now) in Ht.
      rewrite (new_events_app _ _ _ Ht).
      apply filter_single; [exact Hin | simpl; apply String.eqb_refl |].
      destruct (respects_for_each_indexed
                  (once (key_time_of now) (job_name j1))
                  (once_refl _ _) (once_trans _ _) (app_jobs app)
                  (check_job net recursion_limit app now) 0
                  (fun j x => check_job_once net recursion_limit app now
                                (job_name j1) j x) s) as (d' & Ht' & Hc).
      fold (check_and_run_due_jobs net recursion_limit app now) in Ht'.
      rewrite Ht in Ht'. apply app_inv_head in Ht'. subst d'.
      unfold unfired in Hc.
      destruct (bool_decide (st_last_run_key s !! job_name j1
                             = Some (key_time_of now))); lia.
Qed.

Lemma same_name_second_job_skipped_witness :
  let net := fun _ : Profile => Sim.server Sim.tree5 true in
  let app := Sim.app_of [Sim.job0; Sim.with_mode "mirror" Sim.job0] in
  let pass := (check_and_run_due_jobs net 100 app Sim.saturday_0300
                 (Sim.init Sim.host0)).2 in
  Forall (fun e => is_fire_at 1 e = false)
    (new_events (Sim.init Sim.host0)
       (run_scheduler net 100 app (repeat Sim.saturday_0300 3)
          (Sim.init Sim.host0)).2) /\
  List.filter (is_fire_named "nightly") (new_events (Sim.init Sim.host0) pass)
  = [Fire 0 "nightly"] /\
  List.filter is_download (st_trace pass)
  = [DownloadFile "/data/a.txt"
       (parse_path "/srv/backups/main/nightly/20260103_030000/a.txt");
     DownloadFile "/data/b.txt"
       (parse_path "/srv/backups/main/nightly/20260103_030000/b.txt");
     DownloadFile "/data/sub/c.txt"
       (parse_path "/srv/backups/main/nightly/20260103_030000/sub/c.txt");
     DownloadFile "/data/sub/d.txt"
       (parse_path "/srv/backups/main/nightly/20260103_030000/sub/d.txt");
     DownloadFile "/data/sub/e.txt"
       (parse_path "/srv/backups/main/nightly/20260103_030000/sub/e.txt")].
Proof.
  intros net app pass.
  assert (Hlt : 0 < 1) by lia.
  destruct (same_name_second_job_skipped net 100 app Sim.saturday_0300 0 1
              Sim.job0 (Sim.with_mode "mirror" Sim.job0)
              Hlt eq_refl eq_refl eq_refl eq_refl eq_refl) as [Hticks Hpass].
  split; [exact (proj1 (Hticks 3 (Sim.init Sim.host0)))|].
  split; [|vm_compute; reflexivity].
  apply Hpass.
  - vm_compute. discriminate.
  - intros i' j' Hi'. lia.
  - vm_compute. reflexivity.
Defined.

(** Two jobs named alike, both due: the first runs, the second does not;
    a job of another name runs as well. *)
Example same_name_jobs :
  List.filter is_fire
    (st_trace
       (run_scheduler (fun _ => Sim.server Sim.tree5 true) 100
          (Sim.app_of [Sim.job0; Sim.with_mode "mirror" Sim.job0;
                       Sim.with_name "weekly" Sim.job0])
          (repeat Sim.saturday_0300 3) (Sim.init Sim.host0)).2)
  = [Fire 0 "nightly"; Fire 2 "weekly"].
Proof. vm_compute. reflexivity. Qed.

(** * Further properties of the engine *)

(** ** The FTP client *)

Section Client.
Context {OS : Type} `{LocalOS OS}.

(** X3: [download_file] creates the parent folders and opens the local
    file before it asks for the data: when the transfer is refused the
    error is raised with the file already created (or truncated) and
    nothing written to it; when it succeeds the data received is written. *)
Theorem download_file_outcomes (s : St OS) srv remote_full local_path o1 o2 :
  st_ftp s = Some srv ->
  os_mkdir_parents (st_os s) (path_parent local_path) = (Ok tt, o1) ->
  os_open_wb o1 local_path = (Ok tt, o2) ->
  (forall e, srv_retr srv remote_full = Raise e ->
     download_file remote_full local_path s
     = (Raise e,
        {| st_os := o2;
           st_trace := st_trace s ++ [DownloadFile remote_full local_path;
                                      LocalMkdir (path_parent local_path)];
           st_ftp := st_ftp s; st_last_run_key := st_last_run_key s |})) /\
  (forall data, srv_retr srv remote_full = Ok data ->
     download_file remote_full local_path s
     = (Ok tt,
        {| st_os := os_write o2 local_path data;
           st_trace := st_trace s ++ [DownloadFile remote_full local_path;
                                      LocalMkdir (path_parent local_path)];
           st_ftp := st_ftp s; st_last_run_key := st_last_run_key s |})).
Proof.
  intros Hf Hmk Hop.
  split; intros x Hr;
    cbv [download_file mkdir_parents bind emit update_os the_ftp get_ftp lift
         ret raise]; simpl;
    rewrite Hmk; simpl; rewrite Hop; simpl; rewrite Hf, Hr; simpl;
    rewrite <- app_assoc; reflexivity.
Qed.

End Client.

Lemma download_file_outcomes_witness :
  (download_file "/data/a.txt" (parse_path "/srv/backups/a.txt")
     (Sim.connected Sim.host0 (Sim.server Sim.tree5 true))).1 = Ok tt.
Proof.
  edestruct (download_file_outcomes
               (Sim.connected Sim.host0 (Sim.server Sim.tree5 true))
               (Sim.server Sim.tree5 true) "/data/a.txt"
               (parse_path "/srv/backups/a.txt")) as [_ Hw];
    [reflexivity | vm_compute; reflexivity | vm_compute; reflexivity |].
  rewrite (Hw "data" eq_refl). reflexivity.
Defined.

(** ** De-duplication of the fallback listing *)

Lemma first_seen_members l x : In x (first_seen l) <-> In x l.
Proof.
  induction l as [|y l IH]; simpl; [tauto|].
  rewrite filter_In, IH. split.
  - intros [Hy | [Hin _]]; auto.
  - intros [Hy | Hin]; [auto|].
    destruct (String.eqb_spec x y) as [->|Hne]; [auto|].
    right. split; [exact Hin | reflexivity].
Qed.

Lemma first_seen_nodup l : List.NoDup (first_seen l).
Proof.
  induction l as [|y l IH]; simpl; constructor.
  - rewrite filter_In. intros [_ Hy].
    apply negb_true_iff, String.eqb_neq in Hy. congruence.
  - apply List.NoDup_filter, IH.
Qed.

Lemma filter_twice {A} (f : A -> bool) l :
  List.filter f (List.filter f l) = List.filter f l.
Proof. apply filter_weaken. auto. Qed.

Lemma first_seen_idem l : first_seen (first_seen l) = first_seen l.
Proof.
  induction l as [|y l IH]; simpl; [reflexivity|].
  rewrite first_seen_filter, IH, filter_twice. reflexivity.
Qed.

(** X4: the de-duplication loop of the fallback listing returns every
    name of its input exactly once, and running it again changes nothing. *)
Theorem dedup_once_each (items : list string) :
  List.NoDup (dedup items) /\
  (forall x, In x (dedup items) <-> In x items) /\
  dedup (dedup items) = dedup items.
Proof.
  rewrite !dedup_first_seen. split; [apply first_seen_nodup|].
  split; [intros x; apply first_seen_members | apply first_seen_idem].
Qed.

(** ** Retention at its edges *)

Section RetentionEdges.
Context {OS : Type} `{LocalOS OS}.

(** X6: with no more sub-folders than [keep_last], [_cleanup_snapshots]
    removes nothing, logs nothing and returns normally. *)
Theorem cleanup_keeps_all_when_few (job_dir : Path) (N : Z) (s : St OS)
    (names : list string) :
  os_exists (st_os s) job_dir = true ->
  os_iterdir (st_os s) job_dir = Ok names ->
  (Z.of_nat (List.length (snapshot_dirs (st_os s) job_dir names)) <= N)%Z ->
  _cleanup_snapshots job_dir N s = (Ok tt, s).
Proof.
  intros Hex Hiter Hfew.
  cbv [_cleanup_snapshots bind read_os call_os].
  rewrite Hex. change (negb true) with false. cbv iota beta.
  rewrite Hiter. cbv iota beta.
  fold (snapshot_dirs (st_os s) job_dir names).
  assert (Hnone : slice_from N (sort_desc (snapshot_dirs (st_os s) job_dir names))
                  = []).
  { unfold slice_from. destruct (0 <=? N)%Z eqn:E; [|apply Z.leb_gt in E; lia].
    apply drop_ge. rewrite (Permutation_length (sort_desc_perm _)). lia. }
  rewrite Hnone. reflexivity.
Qed.

End RetentionEdges.

Lemma cleanup_keeps_all_when_few_witness :
  _cleanup_snapshots (parse_path "/srv/backups/main/nightly") 4
    (Sim.init Sim.host_snaps)
  = (Ok tt, Sim.init Sim.host_snaps).
Proof.
  refine (cleanup_keeps_all_when_few
            (parse_path "/srv/backups/main/nightly") 4 (Sim.init Sim.host_snaps)
            ["20260102_030000"; "20260104_030000"; "20260101_030000";
             "20260103_030000"; "notes.txt"]
            eq_refl eq_refl _).
  vm_compute. discriminate.
Defined.

Section RunEffects.
Context {OS : Type} `{LocalOS OS}.
Variable net : Profile -> Server.
Variable recursion_limit : nat.
Variable Q : event -> Prop.

Hypothesis Q_plain :
  forall e, is_download e = false -> is_rmtree e = false ->
            is_fire e = false -> Q e.

(** [run_job] keeps within [Q] as soon as its transfer and its retention
    step do. *)
Lemma emits_run_job_steps app job :
  (forall remote_full dest_root,
      emits Q (transfer_step (OS:=OS) recursion_limit remote_full dest_root job)) ->
  (forall local_base p, emits Q (cleanup_step (OS:=OS) local_base p job)) ->
  emits Q (run_job (OS:=OS) net recursion_limit app job).
Proof.
  intros Htr Hcl. unfold run_job, local_base_of.
  destruct (get_profile app (job_profile job)) as [p|].
  2: { apply emits_emit, Q_plain; reflexivity. }
  repeat first
    [ apply emits_connect; exact Q_plain | apply emits_close; exact Q_plain
    | apply emits_mkdir_parents; exact Q_plain
    | apply emits_discord_post; exact Q_plain
    | apply Htr | apply Hcl
    | emits_step ];
  apply Q_plain; reflexivity.
Qed.

End RunEffects.

(** X7: a job whose [keep_last] is zero or negative never removes a
    snapshot, in snapshot mode as in any other. *)
Theorem retention_off_removes_nothing {OS} `{LocalOS OS}
    (net : Profile -> Server) (recursion_limit : nat)
    (app : App) (job : BackupJob) (s : St OS) :
  (job_keep_last job <= 0)%Z ->
  Forall (fun e => is_rmtree e = false)
         (new_events s (run_job net recursion_limit app job s).2).
Proof.
  intros Hkeep. apply emits_new_events, emits_run_job_steps.
  - intros [] ? ? ?; try reflexivity; discriminate.
  - intros. apply emits_transfer_step.
    + intros [] ? ? ?; try reflexivity; discriminate.
    + reflexivity.
  - intros. unfold cleanup_step.
    assert (Hoff : (0 <? job_keep_last job)%Z = false) by (apply Z.ltb_ge; lia).
    rewrite Hoff, andb_false_r. apply emits_ret.
Qed.

Lemma retention_off_removes_nothing_witness :
  Forall (fun e => is_rmtree e = false)
         (new_events (Sim.init Sim.host_snaps)
            (run_job (fun _ => Sim.server Sim.tree5 true) 100 (Sim.app_of [])
               (Sim.with_keep_last 0 Sim.job0) (Sim.init Sim.host_snaps)).2).
Proof.
  refine (retention_off_removes_nothing (fun _ => Sim.server Sim.tree5 true) 100
            (Sim.app_of []) (Sim.with_keep_last 0 Sim.job0)
            (Sim.init Sim.host_snaps) _).
  vm_compute. discriminate.
Defined.

(** ** How a run ends *)

Section RunOutcome.
Context {OS : Type} `{LocalOS OS}.
Variable net : Profile -> Server.
Variable recursion_limit : nat.

(** A computation that returns normally with the client closed. *)
Let closed (m : M OS unit) : Prop :=
  forall s, (m s).1 = Ok tt /\ st_ftp (m s).2 = None.

(** A computation that never raises. *)
Let safe {A} (m : M OS A) : Prop := forall s, is_ok (m s).1 = true.

Lemma safe_emit e : safe (emit e).
Proof. intros s. reflexivity. Qed.

Lemma safe_ret {A} (a : A) : safe (ret a).
Proof. intros s. reflexivity. Qed.

Lemma safe_bind {A B} (m : M OS A) (f : A -> M OS B) :
  safe m -> (forall a, safe (f a)) -> safe (bind m f).
Proof.
  intros Hm Hf s. unfold bind. specialize (Hm s).
  destruct (m s) as [[a|e] s1]; simpl in *; [apply Hf | discriminate].
Qed.

Lemma closed_bind {A} (m : M OS A) (f : A -> M OS unit) :
  safe m -> (forall a, closed (f a)) -> closed (bind m f).
Proof.
  intros Hm Hf s. unfold bind. specialize (Hm s).
  destruct (m s) as [[a|e] s1]; simpl in *; [apply Hf | discriminate].
Qed.

Lemma closed_finally (m : M OS unit) (h : exn -> M OS unit) :
  (forall e, safe (h e)) -> closed (try_finally (try_except m h) close).
Proof.
  intros Hh s. unfold try_finally, try_except.
  destruct (m s) as [[[]|e] s1].
  - cbv [close bind get_ftp set_ftp emit ret]. destruct (st_ftp s1); auto.
  - specialize (Hh e s1). destruct (h e s1) as [[[]|e'] s2]; simpl in Hh;
      [|discriminate].
    cbv [close bind get_ftp set_ftp emit ret]. destruct (st_ftp s2); auto.
Qed.

Lemma prefix_append (p x : string) : String.prefix p (p +:+ x) = true.
Proof.
  induction p as [|a p IH].
  - destruct x; reflexivity.
  - change (String a p +:+ x) with (String a (p +:+ x)). simpl.
    destruct (ascii_dec a a); [exact IH | congruence].
Qed.

Lemma safe_try_except {A} (m : M OS A) (h : exn -> M OS A) :
  (forall e, safe (h e)) -> safe (try_except m h).
Proof.
  intros Hh s. unfold try_except.
  destruct (m s) as [[a|e] s1]; [reflexivity | apply Hh].
Qed.

Lemma safe_discord_post app text : safe (_discord_post app text).
Proof.
  unfold _discord_post. apply safe_try_except. intros e. apply safe_emit.
Qed.

Lemma safe_notify app key kvs :
  discord_cfg (app_settings app) = JDict kvs ->
  safe (lift (notify (app_settings app) key)).
Proof. intros Hd s. unfold lift, notify. rewrite Hd. reflexivity. Qed.

(** What a call of [_discord_post] comes to: it returns normally and adds
    nothing but its own request and warning. *)
Lemma discord_post_run app text (s : St OS) :
  exists d,
    _discord_post app text s
    = (Ok tt, {| st_os := st_os s; st_trace := st_trace s ++ d;
                 st_ftp := st_ftp s; st_last_run_key := st_last_run_key s |}) /\
    List.filter (fun ev => negb (is_discord ev)) d = [].
Proof.
  cbv [_discord_post try_except bind lift ret emit call_os log_warn].
  destruct (webhook_url (app_settings app)) as [url|e]; simpl.
  - destruct (String.eqb url ""); simpl.
    + exists []. rewrite app_nil_r. destruct s; auto.
    + destruct (os_urlopen (st_os s) url text) as [[]|e]; simpl.
      * exists [DiscordPost text]. split; reflexivity.
      * exists [DiscordPost text;
                Log WARN ("Discord webhook failed: " +:+ str_of_exn e)].
        rewrite <- app_assoc. split; [reflexivity|].
        cbn [List.filter is_discord negb]. rewrite prefix_append. reflexivity.
  - exists [Log WARN ("Discord webhook failed: " +:+ str_of_exn e)].
    split; [reflexivity|].
    cbn [List.filter is_discord negb]. rewrite prefix_append. reflexivity.
Qed.

(** X8: once the profile is found and the base folder exists or could be
    created, how [run_job] ends depends on the settings alone.  When their
    [discord] section, present or not, is a dict, [run_job] returns
    normally whatever happens during the connection, the transfer, the
    retention step and the webhook requests, and it leaves the client
    closed.  When it is something else, [run_job] raises [AttributeError]
    on its first look at the section, before any connection is made. *)
Theorem run_job_returns_closed (app : App) (job : BackupJob) (s : St OS)
    (p : Profile) (local_base : Path) (o1 : OS) :
  get_profile app (job_profile job) = Some p ->
  os_expanduser (st_os s) (parse_path (job_local_target job)) = Ok local_base ->
  os_mkdir_parents (st_os s) local_base = (Ok tt, o1) ->
  ((exists kvs, discord_cfg (app_settings app) = JDict kvs) ->
   (run_job net recursion_limit app job s).1 = Ok tt /\
   st_ftp (run_job net recursion_limit app job s).2 = None) /\
  ((forall kvs, discord_cfg (app_settings app) <> JDict kvs) ->
   (run_job net recursion_limit app job s).1
   = Raise (no_attribute (discord_cfg (app_settings app)) "get") /\
   new_events s (run_job net recursion_limit app job s).2
   = [LocalMkdir local_base;
      Log INFO ("JOB: " +:+ job_name job +:+ " | mode=" +:+ job_mode job
                +:+ " | profile=" +:+ prof_name p)]).
Proof.
  intros Hp Hexp Hmk. split.
  - intros [kvs Hd]. unfold run_job. rewrite Hp.
    rewrite (bind_ok (local_base_of job) _ s local_base s)
      by (cbv [local_base_of call_os]; rewrite Hexp; reflexivity).
    erewrite (bind_ok (mkdir_parents local_base) _ s tt)
      by (cbv [mkdir_parents bind emit update_os]; simpl; rewrite Hmk; reflexivity).
    repeat first
      [ apply closed_finally; intros e;
        repeat first [ apply safe_bind; [|intros ?]
                     | apply safe_emit | apply safe_ret
                     | apply safe_discord_post
                     | apply (safe_notify _ _ _ Hd)
                     | match goal with |- safe (if ?b then _ else _) => destruct b end ]
      | apply closed_bind; [|intros ?]
      | apply safe_emit | apply safe_ret
      | apply safe_discord_post
      | apply (safe_notify _ _ _ Hd)
      | apply safe_bind; [|intros ?]
      | intros s0; reflexivity
      | match goal with |- safe (if ?b then _ else _) => destruct b end ].
  - intros Hd. unfold run_job. rewrite Hp.
    cbv [local_base_of call_os mkdir_parents bind emit update_os read_os
         log_info lift notify].
    rewrite Hexp. simpl. rewrite Hmk. simpl.
    unfold new_events. simpl.
    destruct (discord_cfg (app_settings app)) as [| | | | |kvs] eqn:Hcfg;
      try (split; [reflexivity|]; simpl; rewrite <- app_assoc;
           apply drop_app_length).
    exfalso. exact (Hd kvs eq_refl).
Qed.

(** X9: when the connection or the login fails, the run stops there.  With
    a [discord] section that is a dict (or none), [run_job] returns
    normally with the base folder created and the client closed; the
    webhook traffic set aside, it has logged the job, the failure with the
    text of the error and the traceback, and nothing else: no transfer, no
    removal and no logout takes place. *)
Theorem run_job_connection_failure (app : App) (job : BackupJob) (s : St OS)
    (p : Profile) (local_base : Path) (o1 : OS) (e : exn)
    (kvs : list (string * json)) :
  get_profile app (job_profile job) = Some p ->
  os_expanduser (st_os s) (parse_path (job_local_target job)) = Ok local_base ->
  os_mkdir_parents (st_os s) local_base = (Ok tt, o1) ->
  srv_login (net p) = Raise e ->
  discord_cfg (app_settings app) = JDict kvs ->
  (run_job net recursion_limit app job s).1 = Ok tt /\
  st_os (run_job net recursion_limit app job s).2 = o1 /\
  st_ftp (run_job net recursion_limit app job s).2 = None /\
  st_last_run_key (run_job net recursion_limit app job s).2 = st_last_run_key s /\
  List.filter (fun ev => negb (is_discord ev))
    (new_events s (run_job net recursion_limit app job s).2)
  = [LocalMkdir local_base;
     Log INFO ("JOB: " +:+ job_name job +:+ " | mode=" +:+ job_mode job
               +:+ " | profile=" +:+ prof_name p);
     Log INFO ("Remote: " +:+ remote_full_of p job);
     Log INFO ("Local : " +:+
               str_of_path (dest_root_of local_base p job (os_now_stamp o1)))]
    ++ (if job_dry_run job
        then [Log WARN "Dry run enabled: no files will be downloaded."]
        else [])
    ++ [FtpConnect (prof_host p) (prof_port p);
        Log ERROR ("JOB FAILED: " +:+ job_name job +:+ " -> " +:+ str_of_exn e);
        Log ERROR (format_exc e)].
Proof.
  intros Hp Hexp Hmk Hlogin Hd. unfold run_job. rewrite Hp.
  cbv [local_base_of call_os mkdir_parents bind emit update_os read_os
       log_info log_warn log_error set_ftp get_ftp ret lift notify
       try_finally try_except connect close].
  rewrite Hexp. simpl. rewrite Hmk, Hd. simpl.
  assert (Hpost : forall (b : bool) text (s0 : St OS),
            exists d,
              (if b then _discord_post app text else fun s1 => (Ok tt, s1)) s0
              = (Ok tt, {| st_os := st_os s0; st_trace := st_trace s0 ++ d;
                           st_ftp := st_ftp s0;
                           st_last_run_key := st_last_run_key s0 |}) /\
              List.filter (fun ev => negb (is_discord ev)) d = []).
  { intros [] text s0; [apply discord_post_run|].
    exists []. rewrite app_nil_r. destruct s0; auto. }
  match goal with
  | |- context [(if ?b then _discord_post app ?t else _) ?st] =>
      destruct (Hpost b t st) as (d1 & -> & Hd1)
  end.
  simpl. destruct (job_dry_run job); simpl; rewrite Hlogin; simpl;
    match goal with
    | |- context [(if ?b then _discord_post app ?t else _) ?st] =>
        destruct (Hpost b t st) as (d2 & -> & Hd2)
    end;
    simpl; repeat (split; [reflexivity|]);
    unfold new_events; simpl;
    rewrite <- !app_assoc, drop_app_length;
    rewrite !List.filter_app, Hd1, Hd2; reflexivity.
Qed.

End RunOutcome.

Lemma run_job_returns_closed_witness :
  st_ftp (run_job (fun _ => Sim.server Sim.tree_mixed true) 100
            (Sim.app_of []) (Sim.with_subdirs false Sim.job0)
            (Sim.init Sim.host0)).2 = None.
Proof.
  refine (proj2 (proj1 (run_job_returns_closed
                   (fun _ => Sim.server Sim.tree_mixed true)
                   100 (Sim.app_of []) (Sim.with_subdirs false Sim.job0)
                   (Sim.init Sim.host0) Sim.profile0 (parse_path "/srv/backups")
                   _ eq_refl eq_refl _) _)).
  - vm_compute. reflexivity.
  - eexists. vm_compute. reflexivity.
Defined.

(** [_discord_post] with no webhook, with one that answers, with one that
    does not, and with a [discord] section that is a list. *)
Example discord_post_examples :
  let app_with settings :=
    {| app_jobs := []; app_profiles := []; app_settings := settings;
       app_timeout := 30; app_scheduler_running := true |} in
  let trace_of settings :=
    st_trace (_discord_post (app_with settings) "hello" (Sim.init Sim.host0)).2 in
  trace_of (JDict []) = [] /\
  trace_of Sim.settings0 = [DiscordPost "hello"] /\
  trace_of (JDict [("discord", JDict [("webhook_url", JStr " https://down.example ")])])
  = [DiscordPost "hello";
     Log WARN "Discord webhook failed: <urlopen error [Errno -2] Name or service not known>"] /\
  trace_of (JDict [("discord", JList [])])
  = [Log WARN "Discord webhook failed: 'list' object has no attribute 'get'"].
Proof. vm_compute. auto. Qed.

(** A [discord] section that is a string: the run ends at its first look
    at the section. *)
Example run_job_settings_not_a_dict :
  let app := {| app_jobs := []; app_profiles := [Sim.profile0];
                app_settings := JDict [("discord", JStr "off")];
                app_timeout := 30; app_scheduler_running := true |} in
  let r := run_job (fun _ => Sim.server Sim.tree5 true) 100 app Sim.job0
             (Sim.init Sim.host0) in
  r.1 = Raise (AttributeError "'str' object has no attribute 'get'") /\
  st_trace r.2
  = [LocalMkdir (parse_path "/srv/backups");
     Log INFO "JOB: nightly | mode=snapshot | profile=main"].
Proof. vm_compute. auto. Qed.

Lemma run_job_connection_failure_witness :
  List.filter (fun ev => negb (is_discord ev))
    (new_events (Sim.init Sim.host0)
       (run_job (fun _ => Sim.server_down) 100 (Sim.app_of []) Sim.job0
          (Sim.init Sim.host0)).2)
  = [LocalMkdir (parse_path "/srv/backups");
     Log INFO "JOB: nightly | mode=snapshot | profile=main";
     Log INFO "Remote: /data";
     Log INFO "Local : /srv/backups/main/nightly/20260103_030000";
     FtpConnect "ftp.example.org" 21;
     Log ERROR "JOB FAILED: nightly -> 530 Login incorrect.";
     Log ERROR "Traceback (most recent call last): 530 Login incorrect."].
Proof.
  assert (Hmk : os_mkdir_parents (st_os (Sim.init Sim.host0))
                  (parse_path "/srv/backups")
                = (Ok tt, (os_mkdir_parents Sim.host0 (parse_path "/srv/backups")).2))
    by reflexivity.
  assert (Hexp : os_expanduser (st_os (Sim.init Sim.host0))
                   (parse_path (job_local_target Sim.job0))
                 = Ok (parse_path "/srv/backups")) by reflexivity.
  assert (Hd : discord_cfg (app_settings (Sim.app_of []))
               = JDict [("webhook_url", JStr Sim.webhook)]) by reflexivity.
  exact (proj2 (proj2 (proj2 (proj2
           (run_job_connection_failure (fun _ => Sim.server_down) 100
              (Sim.app_of []) Sim.job0 (Sim.init Sim.host0) Sim.profile0
              (parse_path "/srv/backups") _ (FtpError "530 Login incorrect.")
              _ eq_refl Hexp Hmk eq_refl Hd))))).
Defined.

(** ** Where a download may land *)

Section LocalJoin.
Context {OS : Type} `{LocalOS OS}.

(** X10: whatever [safe_join_local] returns lies inside the root: a
    returned path is the resolved join, it is the resolved root or below it,
    and the call has changed nothing. *)
Theorem safe_join_local_returns_inside (root : Path) (rel : string)
    (s s' : St OS) (out : Path) :
  safe_join_local root rel s = (Ok out, s') ->
  s' = s /\
  os_resolve (st_os s)
    (joinpath root (PyStr.lstrip os_sep
                      (PyStr.replace PyStr.slash (String os_sep "") rel)))
  = Ok out /\
  exists rr, os_resolve (st_os s) root = Ok rr /\ within rr out.
Proof.
  cbv [safe_join_local bind call_os raise ret].
  destruct (os_resolve (st_os s) (joinpath root _)) as [out'|e]; [|discriminate].
  destruct (os_resolve (st_os s) root) as [rr|e]; [|discriminate].
  destruct (bool_decide (out' <> rr) && bool_decide (rr ∉ path_parents out'))
    eqn:Hguard; [discriminate|].
  intros [= -> ->]. split; [reflexivity|]. split; [reflexivity|].
  exists rr. split; [reflexivity|]. apply within_iff_guard.
  apply andb_false_iff in Hguard as [Hg | Hg]; apply bool_decide_eq_false in Hg.
  - left. destruct (decide (out = rr)); [assumption | contradiction].
  - right. destruct (decide (rr ∈ path_parents out)); [assumption | contradiction].
Qed.

End LocalJoin.

Lemma safe_join_local_returns_inside_witness :
  exists rr, os_resolve (st_os (Sim.init Sim.host0)) (parse_path "/srv/backups")
             = Ok rr /\
             within rr (parse_path "/srv/backups/a/b.txt").
Proof.
  refine (proj2 (proj2 (safe_join_local_returns_inside
                          (parse_path "/srv/backups") "a/./b.txt"
                          (Sim.init Sim.host0) (Sim.init Sim.host0)
                          (parse_path "/srv/backups/a/b.txt") _))).
  vm_compute. reflexivity.
Defined.

(** ** More on the scheduler *)

Section SchedulerSound.
Context {OS : Type} `{LocalOS OS}.
Variable net : Profile -> Server.
Variable recursion_limit : nat.
Variable app : App.

Lemma accounted_refl clocks (s : St OS) : accounted app clocks s s.
Proof. exists []. rewrite app_nil_r. auto. Qed.

Lemma accounted_trans clocks (s1 s2 s3 : St OS) :
  accounted app clocks s1 s2 -> accounted app clocks s2 s3 ->
  accounted app clocks s1 s3.
Proof.
  intros (d1 & Ht1 & Hq1) (d2 & Ht2 & Hq2). exists (d1 ++ d2).
  rewrite Ht2, Ht1, app_assoc. split; [reflexivity | apply Forall_app; auto].
Qed.

Lemma emits_accounted {A} clocks (m : M OS A) :
  emits (fun e => is_fire e = false) m -> respects (accounted app clocks) m.
Proof.
  intros Hm s. destruct (Hm s) as (d & Ht & Hq & _). exists d.
  split; [exact Ht|]. eapply List.Forall_impl; [|exact Hq].
  intros [] He; simpl in *; auto; discriminate.
Qed.

Lemma check_job_accounted clocks now idx job :
  In now clocks -> app_jobs app !! idx = Some job ->
  respects (accounted app clocks) (check_job net recursion_limit app now idx job).
Proof.
  intros Hnow Hjob s.
  destruct (check_job_cases net recursion_limit app now idx job s)
    as [-> | [Hdue Hlast]].
  { apply accounted_refl. }
  rewrite check_job_fire by assumption.
  match goal with |- accounted _ _ _ (run_job _ _ _ _ ?s1).2 =>
    apply (accounted_trans clocks s s1);
      [|apply (emits_accounted clocks _ (run_job_no_fire net recursion_limit app job))]
  end.
  exists [Fire idx (job_name job)]. split; [reflexivity|].
  constructor; [|constructor]. simpl. exists job, now. auto.
Qed.

Lemma loop_accounted clocks now l : forall i0,
  In now clocks ->
  (forall k job, l !! k = Some job -> app_jobs app !! (i0 + k) = Some job) ->
  respects (accounted app clocks)
    (for_each_indexed i0 l (check_job net recursion_limit app now)).
Proof.
  induction l as [|a l IH]; intros i0 Hnow Hl; simpl.
  - intros s. apply accounted_refl.
  - apply respects_bind; [apply accounted_trans | |].
    + apply check_job_accounted; [exact Hnow|].
      rewrite <- (Nat.add_0_r i0). apply Hl. reflexivity.
    + intros _. apply IH; [exact Hnow|]. intros k job Hk.
      replace (S i0 + k) with (i0 + S k) by lia. apply Hl. exact Hk.
Qed.

Lemma tick_accounted clocks now :
  In now clocks ->
  respects (accounted app clocks) (_tick net recursion_limit app now).
Proof.
  intros Hnow. apply tick_respects.
  - apply accounted_refl.
  - apply accounted_trans.
  - intros A m. apply emits_accounted.
  - apply loop_accounted; auto.
Qed.

(** X12: the scheduler fires nothing it should not.  Over any sequence of
    clock readings, every firing is of the job standing at that position,
    under its own name, and that job is enabled and due (weekday, hour and
    minute) at one of the readings. *)
Theorem scheduler_fires_only_due_jobs (clocks : list Clock) (s : St OS) :
  Forall (fired_due app clocks)
         (new_events s (run_scheduler net recursion_limit app clocks s).2).
Proof.
  assert (Hall : forall l, (forall c, In c l -> In c clocks) ->
            respects (accounted app clocks)
              (for_each l (_tick net recursion_limit app))).
  { intros l Hl. apply respects_for_each.
    - apply accounted_refl.
    - apply accounted_trans.
    - intros c Hc. apply tick_accounted. auto. }
  destruct (Hall clocks (fun c Hc => Hc) s) as (d & Ht & Hq).
  unfold run_scheduler. rewrite (new_events_app _ _ _ Ht). exact Hq.
Qed.


Section OneMinute.
Variable now : Clock.

#[local] Abbreviation key := (key_time_of now).
#[local] Abbreviation body := (check_job (OS:=OS) net recursion_limit app now).

Lemma key_sticks n l : forall i0 (s : St OS),
  st_last_run_key s !! n = Some key ->
  st_last_run_key (for_each_indexed i0 l body s).2 !! n = Some key.
Proof.
  intros i0 s Hk.
  destruct (respects_for_each_indexed (once key n) (once_refl key n)
              (once_trans key n) l body i0
              (fun j x => check_job_once net recursion_limit app now n j x) s)
    as (d & _ & Hc).
  unfold unfired in Hc. rewrite (bool_decide_eq_true_2 _ Hk) in Hc.
  destruct (decide (st_last_run_key (for_each_indexed i0 l body s).2 !! n
                    = Some key)) as [Hk'|Hk']; [exact Hk'|].
  rewrite (bool_decide_eq_false_2 _ Hk') in Hc. lia.
Qed.

Lemma loop_marks l : forall i0 (s : St OS),
  (for_each_indexed i0 l body s).1 = Ok tt ->
  forall job, In job l -> due job now = true ->
    st_last_run_key (for_each_indexed i0 l body s).2 !! job_name job = Some key.
Proof.
  induction l as [|a l IH]; intros i0 s Hok job Hin Hdue; [contradiction|].
  simpl in *. unfold bind in *.
  pose proof (check_job_sets_key net recursion_limit app now i0 a s) as Hset.
  destruct (body i0 a s) as [[[]|e] s1]; simpl in *; [|discriminate].
  destruct Hin as [-> | Hin].
  - apply key_sticks. auto.
  - apply IH; assumption.
Qed.

Lemma loop_noop l : forall i0 (s : St OS),
  (forall job, In job l -> due job now = true ->
               st_last_run_key s !! job_name job = Some key) ->
  for_each_indexed i0 l body s = (Ok tt, s).
Proof.
  induction l as [|a l IH]; intros i0 s Hall; [reflexivity|].
  simpl. unfold bind.
  assert (Ha : body i0 a s = (Ok tt, s)).
  { destruct (check_job_cases net recursion_limit app now i0 a s)
      as [Hs | [Hdue Hlast]]; [exact Hs|].
    exfalso. apply Hlast, Hall; [left; reflexivity | exact Hdue]. }
  rewrite Ha. apply IH. intros job Hin. apply Hall. right. exact Hin.
Qed.

(** X14: a pass over the jobs that ran to its end leaves every due job
    marked for this minute, so a second pass at the same weekday, hour and
    minute does nothing at all: no firing, no event, no change of state. *)
Theorem second_pass_does_nothing (s : St OS) :
  (check_and_run_due_jobs net recursion_limit app now s).1 = Ok tt ->
  (forall job, In job (app_jobs app) -> due job now = true ->
     st_last_run_key (check_and_run_due_jobs net recursion_limit app now s).2
       !! job_name job = Some key) /\
  check_and_run_due_jobs net recursion_limit app now
    (check_and_run_due_jobs net recursion_limit app now s).2
  = (Ok tt, (check_and_run_due_jobs net recursion_limit app now s).2).
Proof.
  intros Hok. unfold check_and_run_due_jobs in *.
  pose proof (loop_marks (app_jobs app) 0 s Hok) as Hmarks.
  split; [exact Hmarks | apply loop_noop; exact Hmarks].
Qed.

End OneMinute.
End SchedulerSound.

Lemma second_pass_does_nothing_witness :
  let s1 := (check_and_run_due_jobs (fun _ => Sim.server Sim.tree5 true) 100
               (Sim.app_of [Sim.job0; Sim.with_name "weekly" Sim.job0])
               Sim.saturday_0300 (Sim.init Sim.host0)).2 in
  check_and_run_due_jobs (fun _ => Sim.server Sim.tree5 true) 100
    (Sim.app_of [Sim.job0; Sim.with_name "weekly" Sim.job0])
    Sim.saturday_0300 s1
  = (Ok tt, s1).
Proof.
  refine (proj2 (second_pass_does_nothing (fun _ => Sim.server Sim.tree5 true) 100
                   (Sim.app_of [Sim.job0; Sim.with_name "weekly" Sim.job0])
                   Sim.saturday_0300 (Sim.init Sim.host0) _)).
  vm_compute. reflexivity.
Defined.

(** ** The key of a minute *)

Lemma string_app_inj a : forall a' b b',
  String.length a = String.length a' ->
  a +:+ b = a' +:+ b' -> a = a' /\ b = b'.
Proof.
  induction a as [|c a IH]; intros [|c' a'] b b' Hlen Heq;
    simpl in Hlen; try discriminate.
  - split; [reflexivity | exact Heq].
  - change (String c (a +:+ b) = String c' (a' +:+ b')) in Heq.
    injection Heq as -> Heq. injection Hlen as Hlen.
    destruct (IH a' b b' Hlen Heq) as [-> ->]. split; reflexivity.
Qed.

Lemma fmt_02d_length (z : Z) :
  (0 <= z <= 99)%Z -> String.length (PyStr.fmt_02d z) = 2.
Proof.
  intros Hz.
  assert (Hall : List.forallb
                   (fun n => Nat.eqb (String.length (PyStr.fmt_02d (Z.of_nat n))) 2)
                   (List.seq 0 100) = true) by (vm_compute; reflexivity).
  rewrite List.forallb_forall in Hall.
  specialize (Hall (Z.to_nat z)). rewrite Z2Nat.id in Hall by lia.
  apply Nat.eqb_eq, Hall, in_seq. lia.
Qed.

Lemma fmt_02d_inj (z1 z2 : Z) :
  (0 <= z1 <= 59)%Z -> (0 <= z2 <= 59)%Z ->
  PyStr.fmt_02d z1 = PyStr.fmt_02d z2 -> z1 = z2.
Proof.
  intros H1 H2 Heq.
  assert (Hall : List.forallb
                   (fun n => List.forallb
                      (fun m => implb (String.eqb (PyStr.fmt_02d (Z.of_nat n))
                                                  (PyStr.fmt_02d (Z.of_nat m)))
                                      (Nat.eqb n m))
                      (List.seq 0 60))
                   (List.seq 0 60) = true) by (vm_compute; reflexivity).
  rewrite List.forallb_forall in Hall.
  specialize (Hall (Z.to_nat z1)). rewrite List.forallb_forall in Hall.
  assert (Hin1 : In (Z.to_nat z1) (List.seq 0 60)) by (apply in_seq; lia).
  assert (Hin2 : In (Z.to_nat z2) (List.seq 0 60)) by (apply in_seq; lia).
  specialize (Hall Hin1 (Z.to_nat z2) Hin2).
  rewrite !Z2Nat.id in Hall by lia. rewrite Heq, String.eqb_refl in Hall.
  simpl in Hall. apply Nat.eqb_eq in Hall. lia.
Qed.

Lemma weekday_now_length c : String.length (weekday_now c) = 3.
Proof. destruct c as [[] ? ?]; reflexivity. Qed.

Lemma weekday_now_inj c1 c2 :
  weekday_now c1 = weekday_now c2 -> clock_weekday c1 = clock_weekday c2.
Proof.
  destruct c1 as [[] ? ?], c2 as [[] ? ?]; simpl;
    intros Heq; try reflexivity; vm_compute in Heq; discriminate.
Qed.

(** X15: two readings of the clock have the same key only when they agree
    on the weekday, the hour and the minute: the de-duplication never takes
    one minute of the week for another. *)
Theorem key_time_injective (c1 c2 : Clock) :
  valid_clock c1 -> valid_clock c2 ->
  key_time_of c1 = key_time_of c2 -> c1 = c2.
Proof.
  intros [Hh1 Hm1] [Hh2 Hm2] Heq. unfold key_time_of in Heq.
  apply string_app_inj in Heq as [Hday Heq];
    [|rewrite !weekday_now_length; reflexivity].
  apply (string_app_inj "-" "-") in Heq as [_ Heq]; [|reflexivity].
  apply string_app_inj in Heq as [Hhour Heq];
    [|rewrite !fmt_02d_length by lia; reflexivity].
  apply (string_app_inj ":" ":") in Heq as [_ Hmin]; [|reflexivity].
  apply weekday_now_inj in Hday.
  apply fmt_02d_inj in Hhour; [|lia|lia].
  apply fmt_02d_inj in Hmin; [|lia|lia].
  destruct c1, c2; simpl in *. congruence.
Qed.

Lemma key_time_injective_witness :
  key_time_of Sim.saturday_0300 <> key_time_of Sim.saturday_0301.
Proof.
  intros Heq.
  apply (key_time_injective Sim.saturday_0300 Sim.saturday_0301) in Heq.
  - discriminate.
  - vm_compute. intuition discriminate.
  - vm_compute. intuition discriminate.
Defined.

(** * The configuration files *)

Lemma traverse_inverse {A B} (f : A -> Loaded B) (g : B -> A) (l : list B) :
  (forall x, f (g x) = Value x) -> traverse f (List.map g l) = Value l.
Proof.
  intros Hfg. induction l as [|x l IH]; simpl; [reflexivity|].
  rewrite Hfg, IH. reflexivity.
Qed.

Lemma load_json_present path dflt (fs : Files) obj :
  fs !! path = Some obj -> load_json path dflt fs = (obj, fs).
Proof. intros Hobj. unfold load_json. rewrite Hobj. reflexivity. Qed.

Lemma load_json_result path dflt (fs fs' : Files) obj :
  load_json path dflt fs = (obj, fs') ->
  fs' !! path = Some obj /\ (forall q, q <> path -> fs' !! q = fs !! q).
Proof.
  unfold load_json. destruct (fs !! path) as [old|] eqn:Hold; intros [= <- <-].
  - split; [exact Hold|reflexivity].
  - split; [apply lookup_insert_eq|].
    intros q Hq. apply lookup_insert_ne. congruence.
Qed.

Section FileFacts.

Variable py_int : string -> option Z.
Variable data_dir : string.

Lemma profile_round_trip p : profile_of_json py_int (json_of_profile p) = Value p.
Proof. destruct p. reflexivity. Qed.

Lemma job_round_trip j : job_of_json py_int data_dir (json_of_job j) = Value j.
Proof.
  destruct j. unfold job_of_json, json_of_job.
  cbv [dict_get dict_lookup String.eqb Ascii.eqb Bool.eqb andb iterate load_bind
       job_name job_enabled job_profile job_mode job_remote_source
       job_local_target job_days job_hour job_minute job_include_subdirs
       job_keep_last job_dry_run].
  rewrite (traverse_inverse to_str JStr) by reflexivity. reflexivity.
Qed.

Lemma profiles_decode ps a :
  profiles_of_json py_int
    (JDict [("profiles", JList (List.map json_of_profile ps));
            ("active_profile", match a with
                               | Some a => JStr a
                               | None => JNull
                               end)])
  = Value (ps, a).
Proof.
  unfold profiles_of_json.
  cbv [dict_get dict_lookup String.eqb Ascii.eqb Bool.eqb andb iterate load_bind].
  rewrite (traverse_inverse _ json_of_profile) by apply profile_round_trip.
  destruct a; reflexivity.
Qed.

Lemma jobs_decode js :
  jobs_of_json py_int data_dir (JDict [("jobs", JList (List.map json_of_job js))])
  = Value js.
Proof.
  unfold jobs_of_json.
  cbv [dict_get dict_lookup String.eqb Ascii.eqb Bool.eqb andb iterate load_bind].
  apply traverse_inverse, job_round_trip.
Qed.

Lemma load_profiles_present (fs : Files) obj :
  fs !! PROFILES_PATH = Some obj ->
  load_profiles py_int fs = (profiles_of_json py_int obj, fs).
Proof.
  intros Hobj. unfold load_profiles.
  rewrite (load_json_present _ _ _ _ Hobj). reflexivity.
Qed.

Lemma load_jobs_present (fs : Files) obj :
  fs !! JOBS_PATH = Some obj ->
  load_jobs py_int data_dir fs = (jobs_of_json py_int data_dir obj, fs).
Proof.
  intros Hobj. unfold load_jobs.
  rewrite (load_json_present _ _ _ _ Hobj). reflexivity.
Qed.

Lemma load_profiles_result (fs fs' : Files) r :
  load_profiles py_int fs = (r, fs') ->
  (exists obj, fs' !! PROFILES_PATH = Some obj /\ profiles_of_json py_int obj = r) /\
  (forall q, q <> PROFILES_PATH -> fs' !! q = fs !! q).
Proof.
  unfold load_profiles. destruct (load_json _ _ fs) as [obj fs1] eqn:Hload.
  intros [= <- <-]. apply load_json_result in Hload as [Hobj Hrest].
  split; [exists obj; auto|exact Hrest].
Qed.

Lemma load_jobs_result (fs fs' : Files) r :
  load_jobs py_int data_dir fs = (r, fs') ->
  (exists obj, fs' !! JOBS_PATH = Some obj /\ jobs_of_json py_int data_dir obj = r) /\
  (forall q, q <> JOBS_PATH -> fs' !! q = fs !! q).
Proof.
  unfold load_jobs. destruct (load_json _ _ fs) as [obj fs1] eqn:Hload.
  intros [= <- <-]. apply load_json_result in Hload as [Hobj Hrest].
  split; [exists obj; auto|exact Hrest].
Qed.

Lemma load_profiles_saved ps a (fs : Files) :
  load_profiles py_int (save_profiles ps a fs)
  = (Value (ps, a), save_profiles ps a fs).
Proof.
  unfold save_profiles, save_json.
  rewrite (load_profiles_present _ _ (lookup_insert_eq fs _ _)).
  rewrite profiles_decode. reflexivity.
Qed.

Lemma load_jobs_saved js (fs : Files) :
  load_jobs py_int data_dir (save_jobs js fs) = (Value js, save_jobs js fs).
Proof.
  unfold save_jobs, save_json.
  rewrite (load_jobs_present _ _ (lookup_insert_eq fs _ _)).
  rewrite jobs_decode. reflexivity.
Qed.

Lemma in_sync_save_jobs d js :
  in_sync py_int data_dir d -> in_sync py_int data_dir (save_jobs_of d js).
Proof.
  intros [Hp _].
  split; cbn [save_jobs_of profiles active_profile jobs files];
    [|apply load_jobs_saved].
  apply load_profiles_result in Hp as [(obj & Hobj & Hdec) _].
  rewrite <- Hdec. apply load_profiles_present.
  unfold save_jobs, save_json, Files. rewrite lookup_insert_ne by discriminate.
  exact Hobj.
Qed.

Lemma in_sync_save_profiles d ps a :
  in_sync py_int data_dir d -> in_sync py_int data_dir (save_profiles_of d ps a).
Proof.
  intros [_ Hj].
  split; cbn [save_profiles_of profiles active_profile jobs files];
    [apply load_profiles_saved|].
  apply load_jobs_result in Hj as [(obj & Hobj & Hdec) _].
  rewrite <- Hdec. apply load_jobs_present.
  unfold save_profiles, save_json, Files. rewrite lookup_insert_ne by discriminate.
  exact Hobj.
Qed.

(** X24: what is saved is what is loaded.  Whatever the profiles, the
    active profile and the jobs, and whatever the files held before,
    [load_profiles] after [save_profiles] and [load_jobs] after [save_jobs]
    return the very lists that were saved, every field of every entry
    unchanged, and write nothing; and a start on the saved files finds both. *)
Theorem saved_data_load_back ps a js (fs : Files) :
  load_profiles py_int (save_profiles ps a fs)
  = (Value (ps, a), save_profiles ps a fs) /\
  load_jobs py_int data_dir (save_jobs js fs) = (Value js, save_jobs js fs) /\
  load_data py_int data_dir (save_jobs js (save_profiles ps a fs))
  = Value {| profiles := ps; active_profile := a; jobs := js;
             files := save_jobs js (save_profiles ps a fs) |}.
Proof.
  split; [apply load_profiles_saved|]. split; [apply load_jobs_saved|].
  unfold load_data.
  assert (Hp : save_jobs js (save_profiles ps a fs) !! PROFILES_PATH
               = Some (JDict [("profiles", JList (List.map json_of_profile ps));
                              ("active_profile", match a with
                                                 | Some a => JStr a
                                                 | None => JNull
                                                 end)])).
  { unfold save_jobs, save_json, Files. rewrite lookup_insert_ne by discriminate.
    apply lookup_insert_eq. }
  rewrite (load_profiles_present _ _ Hp), profiles_decode, load_jobs_saved.
  reflexivity.
Qed.

(** X25: [load_json] writes a file only when there is none.  A file that
    exists is returned as it is and left alone; a second call returns what
    the first returned and writes nothing, whatever default it is given; and
    no other file is touched. *)
Theorem load_json_settles path dflt dflt' (fs : Files) :
  load_json path dflt' (load_json path dflt fs).2 = load_json path dflt fs /\
  (forall obj, fs !! path = Some obj -> load_json path dflt fs = (obj, fs)) /\
  (forall q, q <> path -> (load_json path dflt fs).2 !! q = fs !! q).
Proof.
  destruct (load_json path dflt fs) as [obj fs'] eqn:Hload.
  pose proof (load_json_result _ _ _ _ _ Hload) as [Hobj Hrest].
  split; [apply load_json_present; exact Hobj|].
  split; [|exact Hrest].
  intros old Hold. rewrite (load_json_present _ dflt _ _ Hold) in Hload.
  symmetry. exact Hload.
Qed.

(** X26: a start leaves memory and files in agreement.  When the profiles
    and the jobs load as values of the declared types, loading them once
    more returns the same profiles, active profile and jobs, and writes
    nothing. *)
Theorem startup_in_sync (fs : Files) d :
  load_data py_int data_dir fs = Value d -> in_sync py_int data_dir d.
Proof.
  unfold load_data.
  destruct (load_profiles py_int fs) as [lp fs1] eqn:Hp.
  destruct (load_jobs py_int data_dir fs1) as [lj fs2] eqn:Hj.
  apply load_profiles_result in Hp as [(objp & Hobjp & Hdecp) _].
  apply load_jobs_result in Hj as [(objj & Hobjj & Hdecj) Hrest].
  destruct lp as [[ps a]| |], lj as [js| |]; simpl; try discriminate.
  intros [= <-]. split; simpl.
  - rewrite <- Hdecp. apply load_profiles_present.
    rewrite Hrest by discriminate. exact Hobjp.
  - rewrite <- Hdecj. apply load_jobs_present. exact Hobjj.
Qed.

Lemma parse_settings_range s_timeout s_tick t k :
  parse_settings py_int s_timeout s_tick = Some (t, k) ->
  py_int (PyStr.strip (or_else s_timeout "30")) = Some t /\
  py_int (PyStr.strip (or_else s_tick "20")) = Some k /\
  (0 < t)%Z /\ (0 < k)%Z.
Proof.
  unfold parse_settings.
  destruct (py_int (PyStr.strip (or_else s_timeout "30"))) as [t'|]; [|discriminate].
  destruct (py_int (PyStr.strip (or_else s_tick "20"))) as [k'|]; [|discriminate].
  destruct (_ || _) eqn:Hr; [discriminate|]. intros [= <- <-].
  apply orb_false_iff in Hr as [Ht Hk].
  apply Z.leb_gt in Ht, Hk. auto.
Qed.

(** The two ways [save_settings_ui] ends. *)
Lemma save_settings_cases s_timeout s_tick s_auto cfg (fs : Files) cfg' fs' dlg :
  save_settings_ui py_int s_timeout s_tick s_auto cfg fs = (cfg', fs', dlg) ->
  (refused dlg = true /\ cfg' = cfg /\ fs' = fs) \/
  (exists t k,
      py_int (PyStr.strip (or_else s_timeout "30")) = Some t /\
      py_int (PyStr.strip (or_else s_tick "20")) = Some k /\
      (0 < t)%Z /\ (0 < k)%Z /\
      cfg' = {| cfg_settings :=
                  JDict [("app", JDict [("timeout_seconds", JInt t);
                                        ("tick_seconds", JInt k);
                                        ("auto_start", JBool s_auto)])];
                cfg_timeout := t; cfg_tick_seconds := k;
                cfg_auto_start := s_auto |} /\
      fs' = save_json SETTINGS_PATH (cfg_settings cfg') fs /\
      dlg = ShowInfo "Saved" "Settings saved.").
Proof.
  unfold save_settings_ui.
  destruct (parse_settings py_int s_timeout s_tick) as [[t k]|] eqn:Hparse;
    intros [= <- <- <-]; [|left; auto].
  apply parse_settings_range in Hparse as (Ht & Hk & Htr & Hkr).
  right. exists t, k. repeat (split; [solve [assumption|reflexivity]|]).
  reflexivity.
Qed.

(** X27: settings that [save_settings_ui] accepts are positive and load
    back.  The timeout and the tick are the numbers read from the form, both
    above zero; and the next start reads from the file exactly the settings,
    the timeout, the tick and the auto-start flag now in memory.  A refusal
    changes neither memory nor the file. *)
Theorem settings_saved_load_back s_timeout s_tick s_auto cfg (fs : Files)
    cfg' fs' dlg :
  save_settings_ui py_int s_timeout s_tick s_auto cfg fs = (cfg', fs', dlg) ->
  (refused dlg = true -> cfg' = cfg /\ fs' = fs) /\
  (refused dlg = false ->
   py_int (PyStr.strip (or_else s_timeout "30")) = Some (cfg_timeout cfg') /\
   py_int (PyStr.strip (or_else s_tick "20")) = Some (cfg_tick_seconds cfg') /\
   (0 < cfg_timeout cfg')%Z /\ (0 < cfg_tick_seconds cfg')%Z /\
   cfg_auto_start cfg' = s_auto /\
   load_config py_int fs' = (Value cfg', fs')).
Proof.
  intros Hrun.
  destruct (save_settings_cases _ _ _ _ _ _ _ _ Hrun) as
    [(Href & -> & ->)|(t & k & Ht & Hk & Htr & Hkr & -> & -> & ->)].
  - split; [auto|congruence].
  - split; [discriminate|]. intros _. simpl.
    repeat (split; [solve [assumption|reflexivity]|]).
    unfold load_config, load_settings, save_json.
    rewrite (load_json_present _ _ _ _ (lookup_insert_eq fs _ _)).
    reflexivity.
Qed.

(** X28: saving the settings drops the Discord section.  The settings kept
    in memory and written to the file hold the [app] section only, whatever
    they held before: from then on [_discord_post] finds no webhook URL and
    makes no request, and every [notify_*] flag reads as its default. *)
Theorem settings_save_drops_discord s_timeout s_tick s_auto cfg (fs : Files)
    cfg' fs' dlg :
  save_settings_ui py_int s_timeout s_tick s_auto cfg fs = (cfg', fs', dlg) ->
  refused dlg = false ->
  discord_cfg (cfg_settings cfg') = JDict [] /\
  webhook_url (cfg_settings cfg') = Ok "" /\
  posts (cfg_settings cfg') = false /\
  (forall key, notify (cfg_settings cfg') key = Ok true) /\
  fs' !! SETTINGS_PATH = Some (cfg_settings cfg').
Proof.
  intros Hrun Hok.
  destruct (save_settings_cases _ _ _ _ _ _ _ _ Hrun) as
    [(Href & _)|(t & k & _ & _ & _ & _ & -> & -> & _)]; [congruence|].
  repeat split. apply lookup_insert_eq.
Qed.

End FileFacts.

Lemma startup_in_sync_witness :
  exists d,
    load_data SimUI.py_int SimUI.data_dir ∅ = Value d /\
    profiles d = [] /\ jobs d = [] /\
    in_sync SimUI.py_int SimUI.data_dir d.
Proof.
  eexists. split; [vm_compute; reflexivity|].
  split; [reflexivity|]. split; [reflexivity|].
  apply (startup_in_sync SimUI.py_int SimUI.data_dir ∅).
  vm_compute. reflexivity.
Defined.

Lemma settings_saved_load_back_witness :
  load_config SimUI.py_int
    (save_settings_ui SimUI.py_int "45" "" true SimUI.config0 SimUI.files0).1.2
  = (Value {| cfg_settings :=
                JDict [("app", JDict [("timeout_seconds", JInt 45);
                                      ("tick_seconds", JInt 20);
                                      ("auto_start", JBool true)])];
              cfg_timeout := 45; cfg_tick_seconds := 20; cfg_auto_start := true |},
     (save_settings_ui SimUI.py_int "45" "" true SimUI.config0 SimUI.files0).1.2).
Proof.
  exact (proj2 (proj2 (proj2 (proj2 (proj2
           (proj2 (settings_saved_load_back SimUI.py_int "45" "" true
                     SimUI.config0 SimUI.files0 _ _ _ eq_refl) eq_refl)))))).
Defined.

Lemma settings_save_drops_discord_witness :
  posts (cfg_settings SimUI.config0) = true /\
  posts (cfg_settings
           (save_settings_ui SimUI.py_int "45" "" true
              SimUI.config0 SimUI.files0).1.1) = false.
Proof.
  split; [reflexivity|].
  exact (proj1 (proj2 (proj2
           (settings_save_drops_discord SimUI.py_int "45" "" true
              SimUI.config0 SimUI.files0 _ _ _ eq_refl eq_refl)))).
Defined.

(** * The forms *)

(** ** Lists of profiles and of jobs *)

Lemma or_else_nonempty x d : d <> "" -> or_else x d <> "".
Proof. unfold or_else. destruct (String.eqb_spec x ""); congruence. Qed.

Lemma DAYS_NoDup : List.NoDup DAYS.
Proof.
  unfold DAYS. repeat constructor; simpl; intuition discriminate.
Qed.

Lemma in_names_delete (l : list Profile) : forall idx p a,
  l !! idx = Some p -> a <> prof_name p ->
  In a (List.map prof_name l) -> In a (List.map prof_name (delete idx l)).
Proof.
  induction l as [|q l IH]; intros [|idx] p a Hl Hne Hin;
    simpl in *; try discriminate.
  - injection Hl as ->. destruct Hin as [Hq|Hin]; [congruence|exact Hin].
  - destruct Hin as [Hq|Hin]; [left; exact Hq|right; eapply IH; eauto].
Qed.

Lemma in_names_insert (l : list Profile) : forall i (new : Profile) a,
  In a (List.map prof_name (<[i := new]> l)) -> a = prof_name new \/ In a (List.map prof_name l).
Proof.
  induction l as [|q l IH]; intros [|i] new a Hin; simpl in *; try tauto.
  - destruct Hin as [Hq|Hin]; [left; symmetry; exact Hq|tauto].
  - destruct Hin as [Hq|Hin]; [tauto|]. apply IH in Hin. tauto.
Qed.

Lemma in_names_insert_other (l : list Profile) : forall i old (new : Profile) a,
  l !! i = Some old -> a <> prof_name old ->
  In a (List.map prof_name l) -> In a (List.map prof_name (<[i := new]> l)).
Proof.
  induction l as [|q l IH]; intros [|i] old new a Hl Hne Hin;
    simpl in *; try discriminate.
  - injection Hl as ->. destruct Hin as [Hq|Hin]; [congruence|right; exact Hin].
  - destruct Hin as [Hq|Hin]; [left; exact Hq|right; eapply IH; eauto].
Qed.

Lemma in_names_insert_new (l : list Profile) : forall i old (new : Profile),
  l !! i = Some old -> In (prof_name new) (List.map prof_name (<[i := new]> l)).
Proof.
  induction l as [|q l IH]; intros [|i] old new Hl; simpl in *; try discriminate.
  - left; reflexivity.
  - right; eapply IH; eauto.
Qed.

Lemma in_names_lookup (l : list Profile) : forall i p,
  l !! i = Some p -> In (prof_name p) (List.map prof_name l).
Proof.
  induction l as [|q l IH]; intros [|i] p Hl; simpl in *; try discriminate.
  - injection Hl as ->. left; reflexivity.
  - right; eapply IH; eauto.
Qed.

Lemma names_insert_same (l : list Profile) : forall i old (new : Profile),
  l !! i = Some old -> prof_name new = prof_name old ->
  List.map prof_name (<[i := new]> l) = List.map prof_name l.
Proof.
  induction l as [|q l IH]; intros [|i] old new Hl Hn; simpl in *; try discriminate.
  - injection Hl as ->. rewrite Hn. reflexivity.
  - f_equal. eapply IH; eauto.
Qed.

Lemma nodup_names_insert (l : list Profile) : forall i (new : Profile),
  List.NoDup (List.map prof_name l) -> ~ In (prof_name new) (List.map prof_name l) ->
  List.NoDup (List.map prof_name (<[i := new]> l)).
Proof.
  induction l as [|q l IH]; intros [|i] new Hnd Hnew; simpl in *; try assumption.
  - apply List.NoDup_cons_iff in Hnd as [_ Hnd].
    apply List.NoDup_cons_iff. split; [tauto|exact Hnd].
  - apply List.NoDup_cons_iff in Hnd as [Hq Hnd].
    apply List.NoDup_cons_iff. split; [|apply IH; tauto].
    intros Hin. apply in_names_insert in Hin. destruct Hin as [Heq|Hin]; [|tauto].
    apply Hnew. left. exact Heq.
Qed.

Lemma nodup_names_delete (l : list Profile) : forall i,
  List.NoDup (List.map prof_name l) -> List.NoDup (List.map prof_name (delete i l)).
Proof.
  induction l as [|q l IH]; intros [|i] Hnd; simpl in *; try assumption.
  - apply List.NoDup_cons_iff in Hnd. tauto.
  - apply List.NoDup_cons_iff in Hnd as [Hq Hnd].
    apply List.NoDup_cons_iff. split; [|apply IH; exact Hnd].
    intros Hin. apply Hq. clear -Hin. revert i Hin.
    induction l as [|r l IHl]; intros [|i] Hin; simpl in *; tauto || eauto.
    destruct Hin as [Hr|Hin]; [tauto|right; eauto].
Qed.

Lemma nodup_names_snoc (l : list Profile) (p : Profile) :
  List.NoDup (List.map prof_name l) ->
  (List.NoDup (List.map prof_name (l ++ [p])) <-> ~ In (prof_name p) (List.map prof_name l)).
Proof.
  intros Hnd. rewrite List.map_app. simpl. split.
  - intros Hall Hin. apply List.NoDup_remove_2 in Hall.
    apply Hall. rewrite List.app_nil_r. exact Hin.
  - intros Hnew. apply List.NoDup_app.
    + exact Hnd.
    + repeat constructor. simpl. tauto.
    + intros x Hx [<-|[]]. tauto.
Qed.

Lemma find_unique (l : list Profile) (p : Profile) : forall i,
  l !! i = Some p ->
  (forall k q, (k < i)%nat -> l !! k = Some q -> prof_name q <> prof_name p) ->
  List.find (fun q => String.eqb (prof_name q) (prof_name p)) l = Some p.
Proof.
  induction l as [|q l IH]; intros [|i] Hl Hbefore; simpl in *; try discriminate.
  - injection Hl as ->. rewrite String.eqb_refl. reflexivity.
  - destruct (String.eqb_spec (prof_name q) (prof_name p)) as [Heq|_].
    + exfalso. apply (Hbefore 0%nat q); [lia|reflexivity|exact Heq].
    + apply (IH i Hl). intros k r Hk Hr. apply (Hbefore (S k) r); [lia|exact Hr].
Qed.

Lemma nodup_names_lookup (l : list Profile) : forall i k p q,
  List.NoDup (List.map prof_name l) -> l !! i = Some p -> l !! k = Some q ->
  prof_name p = prof_name q -> i = k.
Proof.
  induction l as [|r l IH]; intros [|i] [|k] p q Hnd Hi Hk Heq;
    simpl in *; try discriminate; try reflexivity;
    apply List.NoDup_cons_iff in Hnd as [Hr Hnd].
  - injection Hi as ->. exfalso. apply Hr. rewrite Heq.
    eapply in_names_lookup; eauto.
  - injection Hk as ->. exfalso. apply Hr. rewrite <- Heq.
    eapply in_names_lookup; eauto.
  - f_equal. eapply IH; eauto.
Qed.

Lemma Forall_delete_list {A} (P : A -> Prop) (l : list A) : forall i,
  List.Forall P l -> List.Forall P (delete i l).
Proof.
  induction l as [|x l IH]; intros [|i] Hl; simpl; try assumption;
    apply List.Forall_cons_iff in Hl as [Hx Hl]; [exact Hl|].
  constructor; [exact Hx|apply IH; exact Hl].
Qed.

Lemma Forall_insert_list {A} (P : A -> Prop) (l : list A) : forall i y,
  P y -> List.Forall P l -> List.Forall P (<[i := y]> l).
Proof.
  induction l as [|x l IH]; intros [|i] y Hy Hl; simpl; try assumption;
    apply List.Forall_cons_iff in Hl as [Hx Hl]; constructor; auto.
Qed.

(** ** The handlers *)

Section FormFacts.

Variable py_int : string -> option Z.
Variable data_dir : string.

Lemma parse_time_range f hh mm :
  parse_time py_int f = Some (hh, mm) ->
  py_int (PyStr.strip (or_else (j_hour f) "0")) = Some hh /\
  py_int (PyStr.strip (or_else (j_min f) "0")) = Some mm /\
  (0 <= hh <= 23)%Z /\ (0 <= mm <= 59)%Z.
Proof.
  unfold parse_time.
  destruct (py_int (PyStr.strip (or_else (j_hour f) "0"))) as [h|]; [|discriminate].
  destruct (py_int (PyStr.strip (or_else (j_min f) "0"))) as [m|]; [|discriminate].
  destruct (negb _) eqn:Hr; [discriminate|]. intros [= <- <-].
  apply negb_false_iff in Hr. rewrite !andb_true_iff in Hr.
  destruct Hr as [[H1 H2] [H3 H4]].
  apply Z.leb_le in H1, H2, H3, H4. auto.
Qed.

Lemma parse_keep_range f keep :
  parse_keep py_int f = Some keep ->
  py_int (PyStr.strip (or_else (j_keep f) "10")) = Some keep /\ (0 <= keep)%Z.
Proof.
  unfold parse_keep.
  destruct (py_int (PyStr.strip (or_else (j_keep f) "10"))) as [k|]; [|discriminate].
  destruct (k <? 0)%Z eqn:Hk; [discriminate|]. intros [= <-].
  apply Z.ltb_ge in Hk. auto.
Qed.

(** The two ways [job_save] ends. *)
Lemma job_save_cases f sel d d' dlg :
  job_save py_int data_dir f sel d = (d', dlg) ->
  (refused dlg = true /\ d' = d) \/
  (exists idx j,
      sel = Some idx /\ (idx < List.length (jobs d))%nat /\ valid_job j /\
      py_int (PyStr.strip (or_else (j_hour f) "0")) = Some (job_hour j) /\
      py_int (PyStr.strip (or_else (j_min f) "0")) = Some (job_minute j) /\
      py_int (PyStr.strip (or_else (j_keep f) "10")) = Some (job_keep_last j) /\
      job_days j = List.filter (day_vars f) DAYS /\
      d' = save_jobs_of d (<[idx := j]> (jobs d)) /\
      dlg = ShowInfo "Saved" "Job saved.").
Proof.
  unfold job_save. destruct sel as [idx|]; [|intros [= <- <-]; left; auto].
  destruct (parse_time py_int f) as [[hh mm]|] eqn:Ht;
    [|intros [= <- <-]; left; auto].
  destruct (parse_keep py_int f) as [keep|] eqn:Hk;
    [|intros [= <- <-]; left; auto].
  apply parse_time_range in Ht as (Hh & Hm & Hhr & Hmr).
  apply parse_keep_range in Hk as (Hk & Hkr).
  destruct (List.filter (day_vars f) DAYS) as [|day days] eqn:Hd;
    [intros [= <- <-]; left; auto|].
  destruct (idx <? List.length (jobs d))%nat eqn:Hidx;
    [|intros [= <- <-]; left; auto].
  intros [= <- <-]. right. apply Nat.ltb_lt in Hidx.
  eexists idx, _. rewrite <- Hd.
  repeat split; try reflexivity; cbn [job_hour job_minute job_keep_last
    job_days job_name job_mode job_remote_source];
    try assumption; try lia.
  - rewrite Hd. discriminate.
  - apply List.NoDup_filter, DAYS_NoDup.
  - intros x Hx. apply List.filter_In in Hx. tauto.
  - apply or_else_nonempty. discriminate.
  - apply or_else_nonempty. discriminate.
  - apply or_else_nonempty. discriminate.
Qed.

(** X16: a job that [job_save] accepts is well formed and takes the place
    of the selected one.  The hour, the minute and the count are the numbers
    read from the form, within 0-23, 0-59 and from 0 up; the days are the
    ticked ones in the order of the week, at least one; name, mode and
    remote source are not empty.  Every other job, the profiles and the
    active profile are left as they were, and the list is written to the
    jobs file. *)
Theorem job_save_stores_valid_job f sel d d' dlg :
  job_save py_int data_dir f sel d = (d', dlg) ->
  refused dlg = false ->
  exists idx j,
    sel = Some idx /\ jobs d !! idx <> None /\
    jobs d' = <[idx := j]> (jobs d) /\ valid_job j /\
    py_int (PyStr.strip (or_else (j_hour f) "0")) = Some (job_hour j) /\
    py_int (PyStr.strip (or_else (j_min f) "0")) = Some (job_minute j) /\
    py_int (PyStr.strip (or_else (j_keep f) "10")) = Some (job_keep_last j) /\
    job_days j = List.filter (day_vars f) DAYS /\
    files d' = save_jobs (jobs d') (files d) /\
    profiles d' = profiles d /\ active_profile d' = active_profile d.
Proof.
  intros Hrun Hok.
  destruct (job_save_cases _ _ _ _ _ Hrun) as
    [[Href _]|(idx & j & -> & Hidx & Hj & Hh & Hm & Hk & Hd & -> & ->)];
    [congruence|].
  exists idx, j. split; [reflexivity|].
  split; [intros Hnone; apply lookup_ge_None in Hnone; lia|].
  repeat (split; [solve [assumption|reflexivity]|]). reflexivity.
Qed.

(** X17: a handler that ends in a warning or an error, or that lets an
    [IndexError] escape, has changed nothing: neither the lists in memory
    nor what is on disk. *)
Theorem refused_changes_nothing a d d' dlg :
  handle py_int data_dir a d = (d', dlg) ->
  refused dlg = true ->
  d' = d.
Proof.
  destruct a; simpl; intros Hrun Href.
  - unfold job_new in Hrun. injection Hrun as <- <-. discriminate.
  - unfold job_delete in Hrun. repeat case_match; simplify_eq;
      try reflexivity; discriminate.
  - destruct (job_save_cases _ _ _ _ _ Hrun) as
      [[_ ->]|(idx & j & _ & _ & _ & _ & _ & _ & _ & _ & ->)];
      [reflexivity|discriminate].
  - unfold profile_new in Hrun. injection Hrun as <- <-. discriminate.
  - unfold profile_delete in Hrun. repeat case_match; simplify_eq;
      try reflexivity; discriminate.
  - unfold profile_set_active in Hrun. repeat case_match; simplify_eq;
      try reflexivity; discriminate.
  - unfold profile_save in Hrun. repeat case_match; simplify_eq;
      try reflexivity; discriminate.
Qed.

(** The two ways [profile_save] ends. *)
Lemma profile_save_cases f sel d d' dlg :
  profile_save py_int f sel d = (d', dlg) ->
  (refused dlg = true /\ d' = d) \/
  (exists port new,
      py_int (PyStr.strip (or_else (v_port f) "21")) = Some port /\
      new = {| prof_name := or_else (PyStr.strip (v_name f)) "Unnamed";
               prof_host := PyStr.strip (v_host f);
               prof_port := port;
               prof_username := PyStr.strip (v_user f);
               prof_password := v_pass f;
               prof_tls := v_tls f;
               prof_root := or_else (PyStr.strip (v_root f)) "/" |} /\
      dlg = ShowInfo "Saved" "Profile saved." /\
      ((sel = None /\ ~ In (prof_name new) (List.map prof_name (profiles d)) /\
        d' = save_profiles_of d (profiles d ++ [new]) (Some (prof_name new))) \/
       (exists i old,
           sel = Some i /\ profiles d !! i = Some old /\
           (prof_name new = prof_name old \/
            ~ In (prof_name new) (List.map prof_name (profiles d))) /\
           d' = save_profiles_of d (<[i := new]> (profiles d))
                  (if bool_decide (active_profile d = Some (prof_name old))
                   then Some (prof_name new) else active_profile d)))).
Proof.
  unfold profile_save.
  destruct (py_int (PyStr.strip (or_else (v_port f) "21"))) as [port|];
    [|intros [= <- <-]; left; auto].
  set (new := {| prof_name := or_else (PyStr.strip (v_name f)) "Unnamed";
                 prof_port := port |}).
  destruct sel as [i|].
  - destruct (profiles d !! i) as [old|] eqn:Hold;
      [|intros [= <- <-]; left; auto].
    destruct (negb _ && _) eqn:Hdup; intros [= <- <-]; [left; auto|].
    right. exists port, new. do 3 (split; [reflexivity|]).
    right. exists i, old. split; [reflexivity|]. split; [exact Hold|].
    split; [|reflexivity].
    apply andb_false_iff in Hdup as [Hsame|Hfresh].
    + left. apply negb_false_iff, String.eqb_eq in Hsame. exact Hsame.
    + right. apply bool_decide_eq_false in Hfresh.
      rewrite <- list_elem_of_In. exact Hfresh.
  - destruct (bool_decide _) eqn:Hdup; intros [= <- <-]; [left; auto|].
    right. exists port, new. do 3 (split; [reflexivity|]).
    left. split; [reflexivity|]. split; [|reflexivity].
    apply bool_decide_eq_false in Hdup. rewrite <- list_elem_of_In. exact Hdup.
Qed.

(** X18: no handler leaves the active profile dangling.  If the active
    profile, when there is one, names a profile of the list, then it still
    does after any press of a button, a deletion or a renaming of the active
    profile included. *)
Theorem handlers_keep_active_known a d :
  active_known d -> active_known (handle py_int data_dir a d).1.
Proof.
  intros Hd. destruct (handle py_int data_dir a d) as [d' dlg] eqn:Hrun. simpl.
  destruct a; simpl in Hrun.
  - unfold job_new in Hrun. injection Hrun as <- <-. exact Hd.
  - unfold job_delete in Hrun. repeat case_match; simplify_eq; exact Hd.
  - destruct (job_save_cases _ _ _ _ _ Hrun) as
      [[_ ->]|(idx & j & _ & _ & _ & _ & _ & _ & _ & -> & _)]; exact Hd.
  - unfold profile_new in Hrun. injection Hrun as <- <-.
    intros x [= <-]. simpl. rewrite List.map_app. apply List.in_or_app.
    right. left. reflexivity.
  - unfold profile_delete in Hrun.
    destruct sel as [idx|]; [|injection Hrun as <- <-; exact Hd].
    destruct (profiles d !! idx) as [p|] eqn:Hp;
      [|injection Hrun as <- <-; exact Hd].
    destruct (negb confirm); injection Hrun as <- <-; [exact Hd|].
    intros x. simpl. destruct (bool_decide _) eqn:Hact.
    + destruct (delete idx (profiles d)) as [|q qs]; [discriminate|].
      intros [= <-]. left. reflexivity.
    + apply bool_decide_eq_false in Hact. intros Hx.
      eapply in_names_delete; [exact Hp| |apply Hd; exact Hx]. congruence.
  - unfold profile_set_active in Hrun.
    destruct sel as [idx|]; [|injection Hrun as <- <-; exact Hd].
    destruct (profiles d !! idx) as [p|] eqn:Hp; injection Hrun as <- <-;
      [|exact Hd].
    intros x [= <-]. simpl. eapply in_names_lookup; eauto.
  - destruct (profile_save_cases _ _ _ _ _ Hrun) as
      [[_ ->]|(port & new & _ & _ & _ &
               [(_ & _ & ->)|(i & old & _ & Hold & _ & ->)])].
    + exact Hd.
    + intros x [= <-]. simpl. rewrite List.map_app. apply List.in_or_app.
      right. left. reflexivity.
    + intros x. simpl. destruct (bool_decide _) eqn:Hact.
      * intros [= <-]. eapply in_names_insert_new; eauto.
      * apply bool_decide_eq_false in Hact. intros Hx.
        eapply in_names_insert_other; [exact Hold| |apply Hd; exact Hx].
        congruence.
Qed.

(** X19: every change is written out.  If a restart would find in the
    two files the profiles, the active profile and the jobs that are in
    memory, then it still would after any press of a button. *)
Theorem handlers_keep_in_sync a d :
  in_sync py_int data_dir d ->
  in_sync py_int data_dir (handle py_int data_dir a d).1.
Proof.
  intros Hd. destruct (handle py_int data_dir a d) as [d' dlg] eqn:Hrun. simpl.
  destruct a; simpl in Hrun.
  - unfold job_new in Hrun. injection Hrun as <- <-.
    apply in_sync_save_jobs. exact Hd.
  - unfold job_delete in Hrun. repeat case_match; simplify_eq;
      solve [exact Hd|apply in_sync_save_jobs; exact Hd].
  - destruct (job_save_cases _ _ _ _ _ Hrun) as
      [[_ ->]|(idx & j & _ & _ & _ & _ & _ & _ & _ & -> & _)];
      solve [exact Hd|apply in_sync_save_jobs; exact Hd].
  - unfold profile_new in Hrun. injection Hrun as <- <-.
    apply in_sync_save_profiles. exact Hd.
  - unfold profile_delete in Hrun. repeat case_match; simplify_eq;
      solve [exact Hd|apply in_sync_save_profiles; exact Hd].
  - unfold profile_set_active in Hrun. repeat case_match; simplify_eq;
      solve [exact Hd|apply in_sync_save_profiles; exact Hd].
  - destruct (profile_save_cases _ _ _ _ _ Hrun) as
      [[_ ->]|(port & new & _ & _ & _ &
               [(_ & _ & ->)|(i & old & _ & _ & _ & ->)])];
      solve [exact Hd|apply in_sync_save_profiles; exact Hd].
Qed.

(** X20: the handlers never store a malformed job.  If every job of the
    list is well formed (hour 0-23, minute 0-59, count from 0 up, at least
    one day and only days of the week, each once, a name, a mode and a
    remote source), then so is every job after any press of a button. *)
Theorem handlers_keep_jobs_valid a d :
  List.Forall valid_job (jobs d) ->
  List.Forall valid_job (jobs (handle py_int data_dir a d).1).
Proof.
  intros Hd. destruct (handle py_int data_dir a d) as [d' dlg] eqn:Hrun. simpl.
  destruct a; simpl in Hrun.
  - unfold job_new in Hrun. injection Hrun as <- <-. simpl.
    apply List.Forall_app. split; [exact Hd|]. constructor; [|constructor].
    unfold valid_job; simpl. repeat split; try lia; try discriminate.
    + repeat constructor. simpl. tauto.
    + intros day [<-|[]]. unfold DAYS. simpl. tauto.
  - unfold job_delete in Hrun. repeat case_match; simplify_eq; try exact Hd.
    simpl. apply Forall_delete_list. exact Hd.
  - destruct (job_save_cases _ _ _ _ _ Hrun) as
      [[_ ->]|(idx & j & _ & _ & Hj & _ & _ & _ & _ & -> & _)]; [exact Hd|].
    simpl. apply Forall_insert_list; assumption.
  - unfold profile_new in Hrun. injection Hrun as <- <-. exact Hd.
  - unfold profile_delete in Hrun. repeat case_match; simplify_eq; exact Hd.
  - unfold profile_set_active in Hrun. repeat case_match; simplify_eq; exact Hd.
  - destruct (profile_save_cases _ _ _ _ _ Hrun) as
      [[_ ->]|(port & new & _ & _ & _ &
               [(_ & _ & ->)|(i & old & _ & _ & _ & ->)])]; exact Hd.
Qed.

(** X21: [profile_save] never makes two profiles share a name: on a list
    of distinct names it either refuses or leaves a list of distinct names,
    for a new profile as for a changed one. *)
Theorem profile_save_keeps_names_distinct f sel d :
  List.NoDup (List.map prof_name (profiles d)) ->
  List.NoDup (List.map prof_name (profiles (profile_save py_int f sel d).1)).
Proof.
  intros Hd. destruct (profile_save py_int f sel d) as [d' dlg] eqn:Hrun. simpl.
  destruct (profile_save_cases _ _ _ _ _ Hrun) as
    [[_ ->]|(port & new & _ & _ & _ &
             [(_ & Hfresh & ->)|(i & old & _ & Hold & [Hsame|Hfresh] & ->)])];
    simpl.
  - exact Hd.
  - apply nodup_names_snoc; assumption.
  - rewrite (names_insert_same _ _ _ _ Hold Hsame). exact Hd.
  - apply nodup_names_insert; assumption.
Qed.

(** X22: a profile that [profile_save] has accepted is the one
    [get_profile] returns for its name, provided the names were distinct
    before: host, port, user, password and root are those of the form. *)
Theorem saved_profile_is_found f sel d d' dlg (app : App) :
  List.NoDup (List.map prof_name (profiles d)) ->
  profile_save py_int f sel d = (d', dlg) ->
  refused dlg = false ->
  app_profiles app = profiles d' ->
  exists port,
    py_int (PyStr.strip (or_else (v_port f) "21")) = Some port /\
    get_profile app (or_else (PyStr.strip (v_name f)) "Unnamed")
    = Some {| prof_name := or_else (PyStr.strip (v_name f)) "Unnamed";
              prof_host := PyStr.strip (v_host f);
              prof_port := port;
              prof_username := PyStr.strip (v_user f);
              prof_password := v_pass f;
              prof_tls := v_tls f;
              prof_root := or_else (PyStr.strip (v_root f)) "/" |}.
Proof.
  intros Hnd Hrun Hok Happ. unfold get_profile. rewrite Happ.
  destruct (profile_save_cases _ _ _ _ _ Hrun) as
    [[Href _]|(port & new & Hport & Hnew & _ & Hcase)]; [congruence|].
  exists port. split; [exact Hport|]. rewrite <- Hnew.
  change (or_else (PyStr.strip (v_name f)) "Unnamed") with (prof_name
    {| prof_name := or_else (PyStr.strip (v_name f)) "Unnamed";
       prof_host := PyStr.strip (v_host f); prof_port := port;
       prof_username := PyStr.strip (v_user f); prof_password := v_pass f;
       prof_tls := v_tls f; prof_root := or_else (PyStr.strip (v_root f)) "/" |}).
  rewrite <- Hnew.
  destruct Hcase as [(_ & Hfresh & ->)|(i & old & _ & Hold & Hwhich & ->)]; simpl.
  - apply (find_unique _ _ (List.length (profiles d))).
    + rewrite lookup_app_r by lia. rewrite Nat.sub_diag. reflexivity.
    + intros k q Hk Hq Heq. rewrite lookup_app_l in Hq by lia.
      apply Hfresh. rewrite <- Heq. eapply in_names_lookup; eauto.
  - apply (find_unique _ _ i).
    + apply list_lookup_insert_eq. apply lookup_lt_Some in Hold. exact Hold.
    + intros k q Hk Hq Heq. rewrite list_lookup_insert_ne in Hq by lia.
      destruct Hwhich as [Hsame|Hfresh].
      * rewrite Hsame in Heq.
        pose proof (nodup_names_lookup _ _ _ _ _ Hnd Hq Hold Heq). lia.
      * apply Hfresh. rewrite <- Heq. eapply in_names_lookup; eauto.
Qed.

(** X23: [profile_new] does not look at the names in use.  On a list of
    distinct names the list stays one of distinct names exactly when
    ["Profile_"] followed by the new length is not taken; after a deletion
    it can be, and then two profiles answer to one name. *)
Theorem profile_new_may_repeat_a_name d :
  List.NoDup (List.map prof_name (profiles d)) ->
  (List.NoDup (List.map prof_name (profiles (profile_new d).1)) <->
   ~ In ("Profile_" +:+ pretty (S (List.length (profiles d))))
        (List.map prof_name (profiles d))).
Proof.
  intros Hnd. unfold profile_new. simpl.
  exact (nodup_names_snoc (profiles d)
           {| prof_name := "Profile_" +:+ pretty (S (List.length (profiles d)));
              prof_host := ""; prof_port := 21; prof_username := "";
              prof_password := ""; prof_tls := false; prof_root := "/" |} Hnd).
Qed.

Lemma or_else_keep x dflt : x <> "" -> or_else x dflt = x.
Proof.
  intros Hx. unfold or_else. destruct (String.eqb_spec x ""); congruence.
Qed.

Lemma job_save_accepts f idx d hh mm keep :
  parse_time py_int f = Some (hh, mm) ->
  parse_keep py_int f = Some keep ->
  List.filter (day_vars f) DAYS <> [] ->
  (idx < List.length (jobs d))%nat ->
  job_save py_int data_dir f (Some idx) d
  = (save_jobs_of d
       (<[idx := {| job_name := or_else (PyStr.strip (j_name f)) "Unnamed Job";
                    job_enabled := j_enabled f;
                    job_profile := PyStr.strip (j_profile f);
                    job_mode := or_else (PyStr.strip (j_mode f)) "snapshot";
                    job_remote_source := or_else (PyStr.strip (j_remote f)) "/";
                    job_local_target := or_else (PyStr.strip (j_local f)) data_dir;
                    job_days := List.filter (day_vars f) DAYS;
                    job_hour := hh; job_minute := mm;
                    job_include_subdirs := j_subdirs f;
                    job_keep_last := keep; job_dry_run := j_dry f |}]> (jobs d)),
     ShowInfo "Saved" "Job saved.").
Proof.
  intros Ht Hk Hd Hidx. unfold job_save. rewrite Ht, Hk.
  apply Nat.ltb_lt in Hidx. rewrite Hidx.
  destruct (List.filter (day_vars f) DAYS); [congruence|reflexivity].
Qed.

(** X29: opening a job and saving it changes nothing, for a job as the
    form writes them.  If the selected job is well formed, its texts are
    stripped, its days stand in the order of the week, and [int] reads its
    three numbers back from their [str], then [job_save] on the form that
    [on_job_select] has filled is accepted and stores the very same job. *)
Theorem reopened_job_saves_unchanged idx d f j :
  jobs d !! idx = Some j ->
  valid_job j -> tidy_job j ->
  reads_back py_int "0" (job_hour j) ->
  reads_back py_int "0" (job_minute j) ->
  reads_back py_int "10" (job_keep_last j) ->
  job_save py_int data_dir (on_job_select (Some idx) d f).1 (Some idx) d
  = (save_jobs_of d (jobs d), ShowInfo "Saved" "Job saved.").
Proof.
  intros Hj (Hh & Hm & Hk & Hne & _ & _ & Hname & Hmode & Hremote)
         (Sname & Sprofile & Smode & Sremote & Slocal & Hlocal & Hdays)
         Rh Rm Rk.
  unfold stripped, reads_back, in_week_order in *.
  unfold on_job_select. rewrite Hj. cbn [fst].
  assert (Hfilter : List.filter
            (fun day => if bool_decide (day ∈ DAYS)
                        then bool_decide (day ∈ job_days j)
                        else day_vars f day) DAYS = job_days j).
  { etransitivity; [|exact Hdays].
    apply List.filter_ext_in. intros day Hday.
    apply list_elem_of_In in Hday. rewrite (bool_decide_eq_true_2 _ Hday).
    reflexivity. }
  erewrite job_save_accepts; cycle 1.
  - unfold parse_time. cbn [j_hour j_min]. rewrite Rh, Rm.
    assert (Hr : ((0 <=? job_hour j)%Z && (job_hour j <=? 23)%Z &&
                  ((0 <=? job_minute j)%Z && (job_minute j <=? 59)%Z)) = true).
    { rewrite !andb_true_iff, !Z.leb_le. lia. }
    rewrite Hr. reflexivity.
  - unfold parse_keep. cbn [j_keep]. rewrite Rk.
    assert (Hr : (job_keep_last j <? 0)%Z = false) by (apply Z.ltb_ge; lia).
    rewrite Hr. reflexivity.
  - cbn [day_vars]. rewrite Hfilter. exact Hne.
  - apply lookup_lt_Some in Hj. exact Hj.
  - cbn [j_name j_enabled j_profile j_mode j_remote j_local j_subdirs j_dry
         day_vars].
    rewrite Hfilter, Sname, Sprofile, Smode, Sremote, Slocal.
    rewrite !or_else_keep by assumption.
    destruct j. cbn. rewrite list_insert_id by exact Hj. reflexivity.
Qed.

(** X30: opening a profile and saving it changes nothing, for a profile as
    the form writes them.  If the texts of the selected profile are stripped
    (the password apart, which is kept as typed), its name and root are not
    empty, and [int] reads the port back from its [str], then
    [profile_save] on the form that [on_profile_select] has filled is
    accepted, whatever the other names are, and stores the very same
    profile; the active profile stays the same. *)
Theorem reopened_profile_saves_unchanged i d f p :
  profiles d !! i = Some p ->
  tidy_profile p ->
  reads_back py_int "21" (prof_port p) ->
  profile_save py_int (on_profile_select (Some i) d f).1 (Some i) d
  = (save_profiles_of d (profiles d) (active_profile d),
     ShowInfo "Saved" "Profile saved.").
Proof.
  intros Hp (Sname & Hname & Shost & Suser & Sroot & Hroot) Rp.
  unfold stripped, reads_back in *.
  unfold on_profile_select. rewrite Hp. cbn [fst].
  unfold profile_save.
  cbn [v_name v_host v_port v_user v_pass v_tls v_root prof_name].
  rewrite Rp, Hp, Sname, Shost, Suser, Sroot.
  rewrite !or_else_keep by assumption.
  rewrite String.eqb_refl. cbn [negb andb].
  replace {| prof_name := prof_name p; prof_host := prof_host p;
             prof_port := prof_port p; prof_username := prof_username p;
             prof_password := prof_password p; prof_tls := prof_tls p;
             prof_root := prof_root p |} with p by (destruct p; reflexivity).
  rewrite list_insert_id by exact Hp.
  destruct (bool_decide (active_profile d = Some (prof_name p))) eqn:Hact;
    [|reflexivity].
  apply bool_decide_eq_true in Hact. rewrite Hact. reflexivity.
Qed.

End FormFacts.

Lemma job_save_stores_valid_job_witness :
  exists j,
    jobs (SimUI.press [JobSave SimUI.nightly_form (Some 0%nat)] SimUI.one_each)
    = [j] /\
    job_name j = "Nightly" /\ job_hour j = 3%Z /\ job_minute j = 0%Z /\
    job_days j = ["Mon"; "Fri"] /\ job_mode j = "snapshot".
Proof.
  destruct (job_save_stores_valid_job SimUI.py_int SimUI.data_dir
              SimUI.nightly_form (Some 0%nat) SimUI.one_each _ _ eq_refl eq_refl)
    as (idx & j & Hsel & _ & Hjobs & _).
  injection Hsel as <-. exists j. split; [exact Hjobs|].
  vm_compute in Hjobs. injection Hjobs as <-. vm_compute. auto.
Defined.

Lemma refused_changes_nothing_witness :
  (handle SimUI.py_int SimUI.data_dir
     (JobSave SimUI.late_form (Some 0%nat)) SimUI.one_each).1 = SimUI.one_each.
Proof.
  apply (refused_changes_nothing SimUI.py_int SimUI.data_dir
           (JobSave SimUI.late_form (Some 0%nat)) SimUI.one_each _
           (ShowError "Invalid time" "Hour must be 0-23 and Minute must be 0-59."));
    reflexivity.
Defined.

Lemma handlers_keep_active_known_witness :
  active_known SimUI.second_left /\
  active_profile SimUI.second_left = Some "Profile_2".
Proof.
  split; [|reflexivity].
  apply (handlers_keep_active_known SimUI.py_int SimUI.data_dir
           (ProfileDelete (Some 0%nat) true)
           (SimUI.press [ProfileNew; ProfileNew] SimUI.empty)).
  intros a [= <-]. vm_compute. tauto.
Defined.

Lemma handlers_keep_in_sync_witness :
  in_sync SimUI.py_int SimUI.data_dir
    (handle SimUI.py_int SimUI.data_dir
       (JobSave SimUI.nightly_form (Some 0%nat)) SimUI.one_each).1.
Proof.
  apply (handlers_keep_in_sync SimUI.py_int SimUI.data_dir).
  split; vm_compute; reflexivity.
Defined.

Lemma handlers_keep_jobs_valid_witness :
  List.Forall valid_job
    (jobs (handle SimUI.py_int SimUI.data_dir
             (JobSave SimUI.nightly_form (Some 0%nat)) SimUI.one_each).1).
Proof.
  apply (handlers_keep_jobs_valid SimUI.py_int SimUI.data_dir).
  vm_compute. constructor; [|constructor].
  repeat split; try discriminate.
  - repeat constructor. simpl. tauto.
  - intros day [<-|[]]. simpl. tauto.
Defined.

Lemma profile_save_keeps_names_distinct_witness :
  List.NoDup
    (List.map prof_name
       (profiles (profile_save SimUI.py_int SimUI.main_form None SimUI.one_each).1)).
Proof.
  apply (profile_save_keeps_names_distinct SimUI.py_int).
  vm_compute. repeat constructor. simpl. tauto.
Defined.

Lemma saved_profile_is_found_witness :
  get_profile
    {| app_jobs := []; app_settings := Sim.settings0; app_timeout := 30;
       app_scheduler_running := false;
       app_profiles :=
         profiles (profile_save SimUI.py_int SimUI.main_form None SimUI.one_each).1 |}
    "Main"
  = Some {| prof_name := "Main"; prof_host := "ftp.example.org"; prof_port := 21;
            prof_username := "dayz"; prof_password := " s3cret ";
            prof_tls := true; prof_root := "/" |}.
Proof.
  assert (Hnd : List.NoDup (List.map prof_name (profiles SimUI.one_each)))
    by (vm_compute; repeat constructor; simpl; tauto).
  destruct (saved_profile_is_found SimUI.py_int SimUI.main_form None
              SimUI.one_each _ _
              {| app_jobs := []; app_settings := Sim.settings0; app_timeout := 30;
                 app_scheduler_running := false;
                 app_profiles :=
                   profiles (profile_save SimUI.py_int SimUI.main_form None
                               SimUI.one_each).1 |}
              Hnd eq_refl eq_refl eq_refl) as (port & Hport & Hfound).
  vm_compute in Hport. injection Hport as <-. exact Hfound.
Defined.

Lemma profile_new_may_repeat_a_name_witness :
  List.map prof_name (profiles (profile_new SimUI.second_left).1)
  = ["Profile_2"; "Profile_2"] /\
  ~ List.NoDup (List.map prof_name (profiles (profile_new SimUI.second_left).1)).
Proof.
  split; [reflexivity|].
  assert (Hnd : List.NoDup (List.map prof_name (profiles SimUI.second_left)))
    by (vm_compute; repeat constructor; simpl; tauto).
  intros Hall.
  apply (proj1 (profile_new_may_repeat_a_name SimUI.second_left Hnd)) in Hall.
  apply Hall. vm_compute. left. reflexivity.
Defined.

Lemma reopened_job_saves_unchanged_witness :
  jobs (job_save SimUI.py_int SimUI.data_dir
          (on_job_select (Some 0%nat) SimUI.one_each SimUI.late_form).1
          (Some 0%nat) SimUI.one_each).1
  = jobs SimUI.one_each.
Proof.
  rewrite (reopened_job_saves_unchanged SimUI.py_int SimUI.data_dir
             0%nat SimUI.one_each SimUI.late_form
             {| job_name := "BackupJob_1"; job_enabled := true;
                job_profile := "Profile_1"; job_mode := "snapshot";
                job_remote_source := "/"; job_local_target := SimUI.data_dir;
                job_days := ["Sat"]; job_hour := 0; job_minute := 0;
                job_include_subdirs := true; job_keep_last := 10;
                job_dry_run := false |}).
  - reflexivity.
  - reflexivity.
  - repeat split; simpl; try lia; try discriminate.
    + repeat constructor. simpl. tauto.
    + intros day [<-|[]]. simpl. tauto.
  - repeat split; try reflexivity. discriminate.
  - reflexivity.
  - reflexivity.
  - reflexivity.
Defined.

Lemma reopened_profile_saves_unchanged_witness :
  profiles (profile_save SimUI.py_int
              (on_profile_select (Some 0%nat) SimUI.with_main SimUI.main_form).1
              (Some 0%nat) SimUI.with_main).1
  = profiles SimUI.with_main.
Proof.
  rewrite (reopened_profile_saves_unchanged SimUI.py_int
             0%nat SimUI.with_main SimUI.main_form
             {| prof_name := "Main"; prof_host := "ftp.example.org";
                prof_port := 21; prof_username := "dayz";
                prof_password := " s3cret "; prof_tls := true;
                prof_root := "/" |}).
  - reflexivity.
  - reflexivity.
  - repeat split; try reflexivity; discriminate.
  - reflexivity.
Defined.
